(** * Survival of a Sword King: the authoritative game-tick core

    A shallow embedding of [server/gameEngine.ts] (class [GameEngine]),
    of the [DatabaseStorage] methods the engine and the routes call
    ([server/storage.ts]), of the tables of [shared/schema.ts] and of the
    rebirth endpoint of [server/routes.ts], followed by the properties of
    the specification, chapter 8, proved or refuted on that embedding.

    Conventions.
    - [integer] columns are [Z] (the 32-bit range of the column type is
      not modelled); [real] columns and every JavaScript
      expression that leaves the integers ([x * 0.1], [x / 100],
      [Math.sqrt]) are IEEE binary64 values, Rocq's primitive [float],
      so that [Math.floor (n * 0.1)] is computed as JavaScript does.
    - a table is the list of its rows, in insertion order; [WHERE] is a
      filter, [UPDATE ... WHERE] rewrites every matching row.
    - the in-memory [Map]s of the engine are [gmap]s.
    - [Date.now()], the database clock, [Math.random()] and
      [gen_random_uuid()] are inputs of the operation that reads them.
    - every operation runs to completion before the next one starts. *)

From Stdlib Require Import ZArith Floats String Ascii List Lia Bool.
From stdpp Require Import base option list gmap strings pretty.

Set Warnings "-inexact-float".
Local Open Scope string_scope.
Local Open Scope Z_scope.

(** ** JavaScript numbers and strings *)

Module JS.

(** An integer read as a [number]. Integer columns are 32-bit, far
    below 2^53, so the conversion is exact. *)
Definition num (z : Z) : float :=
  if z <? 0 then PrimFloat.opp (PrimFloat.of_uint63 (Uint63.of_Z (- z)))
  else PrimFloat.of_uint63 (Uint63.of_Z z).

(** [Math.floor], read back as an integer. On a number that is not
    finite (never produced from 32-bit columns) the result is 0. *)
Definition floor (x : float) : Z :=
  match Prim2SF x with
  | S754_finite s m e => Z.shiftl (if s then Z.neg m else Z.pos m) e
  | _ => 0
  end.

(** [String.prototype.toLowerCase] on the ASCII letters. *)
Definition lower (c : ascii) : ascii :=
  let n := nat_of_ascii c in
  if ((65 <=? n) && (n <=? 90))%nat then ascii_of_nat (n + 32) else c.

Fixpoint toLowerCase (s : string) : string :=
  match s with
  | EmptyString => EmptyString
  | String c r => String (lower c) (toLowerCase r)
  end.

(** [s.replace(a, b)] with one-character strings [a] and [b]: a string
    pattern replaces its first occurrence only. *)
Fixpoint replace (a b : ascii) (s : string) : string :=
  match s with
  | EmptyString => EmptyString
  | String c r => if Ascii.eqb c a then String b r else String c (replace a b r)
  end.

(** [s.includes(sub)] *)
Fixpoint includes (sub s : string) : bool :=
  String.prefix sub s ||
  match s with
  | EmptyString => false
  | String _ r => includes sub r
  end.

(** The decimal rendering of an integer inside a template literal. *)
Definition show (z : Z) : string := pretty z.

End JS.

(** ** Tables ([shared/schema.ts]) *)

(** A [timestamp] column: milliseconds, nullable. *)
Definition timestamp := option Z.

Record Player := mkPlayer {
  player_id : string;
  username : string;
  password : string;
  characterName : string;
  level : Z;
  experience : Z;
  rebirthCycle : Z;
  health : Z;
  maxHealth : Z;
  aura : Z;
  maxAura : Z;
  hiddenStrength : Z;
  hiddenAgility : Z;
  hiddenIntelligence : Z;
  hiddenEndurance : Z;
  positionX : float;
  positionY : float;
  positionZ : float;
  rotationY : float;
  isInTutorialZone : bool;
  tutorialProgress : Z;
  unlockedAbilities : list string;
  isOnline : bool;
  lastSeen : timestamp;
  createdAt : timestamp
}.

Record Monster := mkMonster {
  monster_id : string;
  monster_name : string;
  monster_level : Z;
  monster_health : Z;
  monster_maxHealth : Z;
  monster_positionX : float;
  monster_positionY : float;
  monster_positionZ : float;
  monster_zone : string;
  difficultyMultiplier : float;
  isAlive : bool;
  monster_spawnedAt : timestamp
}.

Record LootItem := mkLootItem {
  item_id : string;
  item_name : string;
  item_type : string;
  rarity : string;
  description : string;
  effects : list (string * Z);
  value : Z;
  stackable : bool;
  maxStack : Z;
  icon : string
}.

Record PlayerInventory := mkPlayerInventory {
  inv_id : string;
  inv_playerId : string;
  inv_itemId : string;
  inv_quantity : Z;
  acquiredAt : timestamp
}.

Record WorldLoot := mkWorldLoot {
  loot_id : string;
  loot_itemId : string;
  loot_quantity : Z;
  loot_positionX : float;
  loot_positionY : float;
  loot_positionZ : float;
  loot_zone : string;
  droppedBy : option string;
  loot_spawnedAt : timestamp;
  expiresAt : timestamp
}.

(** [Partial<Player>], on the columns the engine and the storage ever
    pass to an update. *)
Record PlayerUpdates := mkPlayerUpdates {
  set_level : option Z;
  set_experience : option Z;
  set_rebirthCycle : option Z;
  set_health : option Z;
  set_maxHealth : option Z;
  set_aura : option Z;
  set_maxAura : option Z;
  set_hiddenStrength : option Z;
  set_hiddenAgility : option Z;
  set_hiddenIntelligence : option Z;
  set_hiddenEndurance : option Z
}.

Definition noUpdates : PlayerUpdates :=
  mkPlayerUpdates None None None None None None None None None None None.

(** [.set(updates)] on one row of [players]. *)
Definition setPlayer (u : PlayerUpdates) (p : Player) : Player :=
  {| player_id := player_id p;
     username := username p;
     password := password p;
     characterName := characterName p;
     level := default (level p) (set_level u);
     experience := default (experience p) (set_experience u);
     rebirthCycle := default (rebirthCycle p) (set_rebirthCycle u);
     health := default (health p) (set_health u);
     maxHealth := default (maxHealth p) (set_maxHealth u);
     aura := default (aura p) (set_aura u);
     maxAura := default (maxAura p) (set_maxAura u);
     hiddenStrength := default (hiddenStrength p) (set_hiddenStrength u);
     hiddenAgility := default (hiddenAgility p) (set_hiddenAgility u);
     hiddenIntelligence := default (hiddenIntelligence p) (set_hiddenIntelligence u);
     hiddenEndurance := default (hiddenEndurance p) (set_hiddenEndurance u);
     positionX := positionX p;
     positionY := positionY p;
     positionZ := positionZ p;
     rotationY := rotationY p;
     isInTutorialZone := isInTutorialZone p;
     tutorialProgress := tutorialProgress p;
     unlockedAbilities := unlockedAbilities p;
     isOnline := isOnline p;
     lastSeen := lastSeen p;
     createdAt := createdAt p |}.

(** [Partial<Monster>]: the engine updates [health], [deleteMonster]
    sets [isAlive]. *)
Record MonsterUpdates := mkMonsterUpdates {
  set_monster_health : option Z;
  set_isAlive : option bool
}.

Definition setMonster (u : MonsterUpdates) (m : Monster) : Monster :=
  {| monster_id := monster_id m;
     monster_name := monster_name m;
     monster_level := monster_level m;
     monster_health := default (monster_health m) (set_monster_health u);
     monster_maxHealth := monster_maxHealth m;
     monster_positionX := monster_positionX m;
     monster_positionY := monster_positionY m;
     monster_positionZ := monster_positionZ m;
     monster_zone := monster_zone m;
     difficultyMultiplier := difficultyMultiplier m;
     isAlive := default (isAlive m) (set_isAlive u);
     monster_spawnedAt := monster_spawnedAt m |}.

Definition setQuantity (q : Z) (r : PlayerInventory) : PlayerInventory :=
  {| inv_id := inv_id r;
     inv_playerId := inv_playerId r;
     inv_itemId := inv_itemId r;
     inv_quantity := q;
     acquiredAt := acquiredAt r |}.

(** ** The database ([server/storage.ts], class [DatabaseStorage]) *)

(** The statements that write, as [DatabaseStorage] issues them. The
    database keeps them in a journal, which is how "an update was
    issued" is observed. *)
Inductive Write :=
| UpdatePlayer (id : string) (u : PlayerUpdates)
| UpdateMonster (id : string) (u : MonsterUpdates)
| InsertMonster (m : Monster)
| InsertWorldLoot (l : WorldLoot)
| InsertInventory (r : PlayerInventory)
| UpdateInventory (rowId : string) (quantity : Z)
| DeleteWorldLoot (id : string)
| DeleteExpiredLoot (now : Z).

Record Db := mkDb {
  players : list Player;
  monsters : list Monster;
  lootItems : list LootItem;
  playerInventory : list PlayerInventory;
  worldLoot : list WorldLoot;
  journal : list Write
}.

Module Storage.

(** [UPDATE t SET f WHERE key = id] *)
Definition updateWhere {A} (key : A -> string) (id : string) (f : A -> A)
    (rows : list A) : list A :=
  List.map (fun r => if String.eqb (key r) id then f r else r) rows.

(** [${column} > now()]; a comparison with NULL selects nothing. *)
Definition laterThan (now : Z) (t : timestamp) : bool :=
  match t with Some e => now <? e | None => false end.

(** [${column} <= now()] *)
Definition notLaterThan (now : Z) (t : timestamp) : bool :=
  match t with Some e => e <=? now | None => false end.

Definition getPlayer (id : string) (d : Db) : option Player :=
  List.find (fun p => String.eqb (player_id p) id) (players d).

Definition updatePlayer (id : string) (updates : PlayerUpdates) (d : Db) : Db :=
  {| players := updateWhere player_id id (setPlayer updates) (players d);
     monsters := monsters d;
     lootItems := lootItems d;
     playerInventory := playerInventory d;
     worldLoot := worldLoot d;
     journal := journal d ++ [UpdatePlayer id updates] |}.

Definition getOnlinePlayers (d : Db) : list Player :=
  List.filter isOnline (players d).

(** [createMonster]: [id] and [spawnedAt] are the column defaults
    [gen_random_uuid()] and [now()]; [isAlive] defaults to [true]. *)
Definition createMonster (m : Monster) (d : Db) : Db :=
  {| players := players d;
     monsters := monsters d ++ [m];
     lootItems := lootItems d;
     playerInventory := playerInventory d;
     worldLoot := worldLoot d;
     journal := journal d ++ [InsertMonster m] |}.

Definition getMonstersInZone (zone : string) (d : Db) : list Monster :=
  List.filter (fun m => String.eqb (monster_zone m) zone && isAlive m) (monsters d).

Definition updateMonster (id : string) (updates : MonsterUpdates) (d : Db) : Db :=
  {| players := players d;
     monsters := updateWhere monster_id id (setMonster updates) (monsters d);
     lootItems := lootItems d;
     playerInventory := playerInventory d;
     worldLoot := worldLoot d;
     journal := journal d ++ [UpdateMonster id updates] |}.

Definition deleteMonster (id : string) (d : Db) : Db :=
  updateMonster id (mkMonsterUpdates None (Some false)) d.

(** The [set] of [performRebirth]. *)
Definition rebirthUpdates (player : Player) : PlayerUpdates :=
  let statGains := JS.floor (JS.num (level player) * 10) in
  {| set_level := Some 1;
     set_experience := Some 0;
     set_rebirthCycle := Some (rebirthCycle player + 1);
     set_health := Some 1000;
     set_maxHealth := Some 1000;
     set_aura := Some 500;
     set_maxAura := Some 500;
     set_hiddenStrength := Some (hiddenStrength player + statGains);
     set_hiddenAgility := Some (hiddenAgility player + statGains);
     set_hiddenIntelligence := Some (hiddenIntelligence player + statGains);
     set_hiddenEndurance := Some (hiddenEndurance player + statGains) |}.

(** [performRebirth]: [None] is the thrown "Player not found";
    otherwise the first row the update returns, and the database. *)
Definition performRebirth (playerId : string) (d : Db) : option (option Player * Db) :=
  match getPlayer playerId d with
  | None => None
  | Some player =>
      let d' := updatePlayer playerId (rebirthUpdates player) d in
      Some (getPlayer playerId d', d')
  end.

Definition getAllLootItems (d : Db) : list LootItem := lootItems d.

(** [UPDATE player_inventory SET quantity = q WHERE id = rowId].
    The table is read by (player, item), which is no key of it, so the
    place of a rewritten row shows: the database writes the new version
    of the row behind the others, and the next [SELECT] without
    [ORDER BY] lists it last. *)
Definition rewriteQuantity (rowId : string) (q : Z) (rows : list PlayerInventory)
    : list PlayerInventory :=
  (List.filter (fun r => negb (String.eqb (inv_id r) rowId)) rows
   ++ List.map (setQuantity q) (List.filter (fun r => String.eqb (inv_id r) rowId) rows))%list.

(** [addToInventory]; [newId] and [now] are the defaults of a fresh
    row, and [existing] is the first row the [SELECT] lists.
    [player_inventory.player_id] and [player_inventory.item_id]
    reference [players.id] and [loot_items.id] ([shared/schema.ts]):
    the insert of a row whose player or item no row has is refused, the
    call throws and nothing is written. That is [None]. *)
Definition addToInventory (newId : string) (now : Z)
    (playerId itemId : string) (quantity : Z) (d : Db) : option Db :=
  match List.find (fun r => String.eqb (inv_playerId r) playerId
                            && String.eqb (inv_itemId r) itemId)
                  (playerInventory d) with
  | Some existing =>
      Some {| players := players d;
              monsters := monsters d;
              lootItems := lootItems d;
              playerInventory :=
                rewriteQuantity (inv_id existing) (inv_quantity existing + quantity)
                  (playerInventory d);
              worldLoot := worldLoot d;
              journal := journal d
                ++ [UpdateInventory (inv_id existing) (inv_quantity existing + quantity)] |}
  | None =>
      let row := mkPlayerInventory newId playerId itemId quantity (Some now) in
      if existsb (fun p => String.eqb (player_id p) playerId) (players d)
         && existsb (fun i => String.eqb (item_id i) itemId) (lootItems d)
      then
        Some {| players := players d;
                monsters := monsters d;
                lootItems := lootItems d;
                playerInventory := playerInventory d ++ [row];
                worldLoot := worldLoot d;
                journal := journal d ++ [InsertInventory row] |}
      else None
  end.

(** [createWorldLoot]: [expiresAt] defaults to [now() + interval '5 minutes']. *)
Definition createWorldLoot (l : WorldLoot) (d : Db) : Db :=
  {| players := players d;
     monsters := monsters d;
     lootItems := lootItems d;
     playerInventory := playerInventory d;
     worldLoot := worldLoot d ++ [l];
     journal := journal d ++ [InsertWorldLoot l] |}.

Definition fiveMinutes : Z := 300000.

(** [collectWorldLoot]; [None] when [addToInventory] throws: the loot
    row is then still there and nothing was written. *)
Definition collectWorldLoot (newId : string) (now : Z)
    (playerId lootId : string) (d : Db) : option (bool * Db) :=
  match List.find (fun l => String.eqb (loot_id l) lootId && laterThan now (expiresAt l))
                  (worldLoot d) with
  | None => Some (false, d)
  | Some loot =>
      match addToInventory newId now playerId (loot_itemId loot) (loot_quantity loot) d with
      | None => None
      | Some d1 =>
          Some (true,
                {| players := players d1;
                   monsters := monsters d1;
                   lootItems := lootItems d1;
                   playerInventory := playerInventory d1;
                   worldLoot :=
                     List.filter (fun l => negb (String.eqb (loot_id l) lootId))
                       (worldLoot d1);
                   journal := journal d1 ++ [DeleteWorldLoot lootId] |})
      end
  end.

Definition cleanupExpiredLoot (now : Z) (d : Db) : Db :=
  {| players := players d;
     monsters := monsters d;
     lootItems := lootItems d;
     playerInventory := playerInventory d;
     worldLoot := List.filter (fun l => negb (notLaterThan now (expiresAt l))) (worldLoot d);
     journal := journal d ++ [DeleteExpiredLoot now] |}.

Definition getLootItem (id : string) (d : Db) : option LootItem :=
  List.find (fun i => String.eqb (item_id i) id) (lootItems d).

(** [getWorldLootInZone]: the rows of [world_loot] in the zone and not
    expired, each with the rows of [loot_items] it joins. *)
Definition getWorldLootInZone (now : Z) (zone : string) (d : Db)
    : list (WorldLoot * LootItem) :=
  flat_map
    (fun l =>
       List.map (fun i => (l, i))
         (List.filter (fun i => String.eqb (loot_itemId l) (item_id i)) (lootItems d)))
    (List.filter (fun l => String.eqb (loot_zone l) zone && laterThan now (expiresAt l))
       (worldLoot d)).

(** [getPlayerInventory]: the rows of the player, each with the rows of
    [loot_items] it joins. *)
Definition getPlayerInventory (playerId : string) (d : Db)
    : list (PlayerInventory * LootItem) :=
  flat_map
    (fun r =>
       List.map (fun i => (r, i))
         (List.filter (fun i => String.eqb (inv_itemId r) (item_id i)) (lootItems d)))
    (List.filter (fun r => String.eqb (inv_playerId r) playerId) (playerInventory d)).

End Storage.

(** ** The rows of [player_inventory] *)

Module Inventory.

(** [and(eq(playerInventory.playerId, playerId),
         eq(playerInventory.itemId, itemId))] *)
Definition stackOf (playerId itemId : string) (r : PlayerInventory) : bool :=
  String.eqb (inv_playerId r) playerId && String.eqb (inv_itemId r) itemId.

(** [removeFromInventory], as a function of the rows of
    [player_inventory], the one table it reads and writes. *)
Definition removeFromInventory (playerId itemId : string) (quantity : Z)
    (rows : list PlayerInventory) : bool * list PlayerInventory :=
  match List.find (stackOf playerId itemId) rows with
  | None => (false, rows)
  | Some existing =>
      if inv_quantity existing <? quantity then (false, rows)
      else if inv_quantity existing =? quantity then
        (true, List.filter (fun r => negb (String.eqb (inv_id r) (inv_id existing))) rows)
      else
        (true, Storage.rewriteQuantity (inv_id existing)
                 (inv_quantity existing - quantity) rows)
  end.

End Inventory.

(** ** The engine ([server/gameEngine.ts], class [GameEngine]) *)

Record AbilityResult := mkAbilityResult {
  success : bool;
  damage : option Z;
  abilityUsed : string;
  playerId : string;
  targetId : option string;
  message : string;
  auraCost : Z
}.

Record AbilityDefinition := mkAbility {
  name : string;
  ability_auraCost : Z;
  ability_damage : Z;
  range : Z;
  cooldown : Z;
  requiredLevel : Z
}.

(** The state the engine works on: the storage it was constructed with
    and its private [playerCooldowns] map. *)
Record World := mkWorld {
  storage : Db;
  playerCooldowns : gmap string (gmap string Z)
}.

(** What one operation reads from outside: [Date.now()] at each of its
    three call sites, the database clock [now()], the successive results
    of [Math.random()] and of [gen_random_uuid()]. *)
Record Env := mkEnv {
  atCheck : Z;
  atRemaining : Z;
  atArm : Z;
  dbNow : Z;
  random : nat -> float;
  uuid : nat -> string
}.

(** Procedures of the engine: a state monad over [World]. *)
Definition Op (A : Type) : Type := World -> A * World.

Definition ret {A} (a : A) : Op A := fun w => (a, w).

Definition bind {A B} (m : Op A) (k : A -> Op B) : Op B :=
  fun w => let (a, w') := m w in k a w'.

Notation "x <- m ;; k" := (bind m (fun x => k))
  (at level 100, m at next level, right associativity).
Notation "m ;; k" := (bind m (fun _ => k))
  (at level 100, right associativity).

(** [await this.storage.f(...)] for a reading [f] *)
Definition query {A} (f : Db -> A) : Op A := fun w => (f (storage w), w).

(** [await this.storage.f(...)] for a writing [f] whose result is dropped *)
Definition exec (f : Db -> Db) : Op unit :=
  fun w => (tt, mkWorld (f (storage w)) (playerCooldowns w)).

Definition when (b : bool) (m : Op unit) : Op unit := if b then m else ret tt.

Fixpoint forEach {A} (l : list A) (body : A -> Op unit) : Op unit :=
  match l with
  | [] => ret tt
  | x :: r => body x ;; forEach r body
  end.

Module GameEngine.

Definition stone_bullet := mkAbility "Stone Bullet" 50 150 30 2000 1.
Definition wind_manipulation := mkAbility "Wind Manipulation" 75 200 15 3000 15.
Definition ground_dig_up := mkAbility "Ground Dig-Up" 100 300 10 5000 60.
Definition aura_release := mkAbility "Aura Release" 200 500 25 10000 85.

(** [initializeAbilities] *)
Definition abilities : gmap string AbilityDefinition :=
  <["aura_release" := aura_release]>
    (<["ground_dig_up" := ground_dig_up]>
       (<["wind_manipulation" := wind_manipulation]>
          (<["stone_bullet" := stone_bullet]> ∅))).

(** [this.abilities.get(abilityName.toLowerCase().replace(" ", "_"))] *)
Definition resolve (abilityName : string) : option AbilityDefinition :=
  abilities !! JS.replace " " "_" (JS.toLowerCase abilityName).

Definition isOnCooldown (e : Env) (playerId abilityName : string) (w : World) : bool :=
  match playerCooldowns w !! playerId with
  | None => false
  | Some playerCooldowns =>
      match playerCooldowns !! abilityName with
      | Some cooldownEnd => if cooldownEnd =? 0 then false else atCheck e <? cooldownEnd
      | None => false
      end
  end.

Definition getRemainingCooldown (e : Env) (playerId abilityName : string) (w : World) : Z :=
  match playerCooldowns w !! playerId with
  | None => 0
  | Some playerCooldowns =>
      match playerCooldowns !! abilityName with
      | Some cooldownEnd =>
          if cooldownEnd =? 0 then 0 else Z.max 0 (cooldownEnd - atRemaining e)
      | None => 0
      end
  end.

Definition setCooldown (e : Env) (playerId abilityName : string) (duration : Z) : Op unit :=
  fun w =>
    let cds :=
      match playerCooldowns w !! playerId with
      | Some _ => playerCooldowns w
      | None => <[playerId := ∅]> (playerCooldowns w)
      end in
    let playerCooldowns := default ∅ (cds !! playerId) in
    (tt, mkWorld (storage w)
           (<[playerId := <[abilityName := atArm e + duration]> playerCooldowns]> cds)).

Definition isInRange (player : Player) (monster : Monster) (range : float) : bool :=
  let dx := (positionX player - monster_positionX monster)%float in
  let dy := (positionY player - monster_positionY monster)%float in
  let dz := (positionZ player - monster_positionZ monster)%float in
  let distance := PrimFloat.sqrt (dx * dx + dy * dy + dz * dz) in
  (distance <=? range)%float.

Definition findNearbyMonster (player : Player) (targetId : string) : Op (option Monster) :=
  monsters <- query (Storage.getMonstersInZone "selha_latna") ;;
  ret (List.find (fun m => String.eqb (monster_id m) targetId && isInRange player m 50)
                 monsters).

Definition newLevelOf (newExp : Z) : Z := JS.floor (JS.num newExp / 100) + 1.

Definition awardUpdates (player : Player) (exp : Z) : PlayerUpdates :=
  let newExp := experience player + exp in
  let newLevel := newLevelOf newExp in
  if (level player <? newLevel) && (newLevel <=? 100) then
    let maxHealth := 1000 + newLevel * 50 in
    let maxAura := 500 + newLevel * 25 in
    {| set_level := Some newLevel;
       set_experience := Some newExp;
       set_rebirthCycle := None;
       set_health := Some maxHealth;
       set_maxHealth := Some maxHealth;
       set_aura := Some maxAura;
       set_maxAura := Some maxAura;
       set_hiddenStrength := None;
       set_hiddenAgility := None;
       set_hiddenIntelligence := None;
       set_hiddenEndurance := None |}
  else
    {| set_level := None;
       set_experience := Some newExp;
       set_rebirthCycle := None;
       set_health := None;
       set_maxHealth := None;
       set_aura := None;
       set_maxAura := None;
       set_hiddenStrength := None;
       set_hiddenAgility := None;
       set_hiddenIntelligence := None;
       set_hiddenEndurance := None |}.

Definition awardExperience (player : Player) (exp : Z) : Op unit :=
  exec (Storage.updatePlayer (player_id player) (awardUpdates player exp)).

(** [dropLoot]: the rolls. Returns the drops and the number of
    [Math.random()] results consumed. *)
Definition Math_min (a b : float) : float := if (b <? a)%float then b else a.

Definition rollDrops (e : Env) (monster : Monster) (boneItem meatItem : LootItem)
    : list (string * Z) * nat :=
  let dropChance := Math_min 0.8 (0.3 + JS.num (monster_level monster) * 0.01) in
  let '(bones, i) :=
    if (random e 0 <? dropChance)%float
    then ([(item_id boneItem, JS.floor (random e 1 * 3) + 1)], 2%nat)
    else ([], 1%nat) in
  let '(meat, j) :=
    if (random e i <? dropChance * 0.6)%float
    then ([(item_id meatItem, JS.floor (random e (S i) * 2) + 1)], S (S i))
    else ([], S i) in
  ((bones ++ meat)%list, j).

(** The loop of [dropLoot] over [drops]; [i] counts the random numbers
    and [k] the identifiers already used. *)
Fixpoint placeDrops (e : Env) (monster : Monster) (killerId : string)
    (drops : list (string * Z)) (i k : nat) : Op unit :=
  match drops with
  | [] => ret tt
  | (itemId, quantity) :: rest =>
      let offsetX := ((random e i - 0.5) * 10)%float in
      let offsetZ := ((random e (S i) - 0.5) * 10)%float in
      exec (Storage.createWorldLoot
              {| loot_id := uuid e k;
                 loot_itemId := itemId;
                 loot_quantity := quantity;
                 loot_positionX := (monster_positionX monster + offsetX)%float;
                 loot_positionY := monster_positionY monster;
                 loot_positionZ := (monster_positionZ monster + offsetZ)%float;
                 loot_zone := monster_zone monster;
                 droppedBy := Some killerId;
                 loot_spawnedAt := Some (dbNow e);
                 expiresAt := Some (dbNow e + Storage.fiveMinutes) |}) ;;
      placeDrops e monster killerId rest (S (S i)) (S k)
  end.

Definition dropLoot (e : Env) (monster : Monster) (killerId : string) : Op unit :=
  allLootItems <- query Storage.getAllLootItems ;;
  match List.find (fun item => String.eqb (item_name item) "Monster Bone") allLootItems,
        List.find (fun item => String.eqb (item_name item) "Monster Meat") allLootItems with
  | Some boneItem, Some meatItem =>
      let '(drops, i) := rollDrops e monster boneItem meatItem in
      placeDrops e monster killerId drops i 0
  | _, _ => ret tt
  end.

(** [if (targetId)]: [undefined] and the empty string are falsy. *)
Definition truthy (targetId : option string) : option string :=
  match targetId with
  | Some EmptyString => None
  | t => t
  end.

Definition failure (abilityName playerId message : string) (auraCost : Z) : AbilityResult :=
  {| success := false;
     damage := None;
     abilityUsed := abilityName;
     playerId := playerId;
     targetId := None;
     message := message;
     auraCost := auraCost |}.

Definition totalDamageOf (ability : AbilityDefinition) (player : Player) : Z :=
  ability_damage ability + JS.floor (JS.num (hiddenStrength player) * 0.1).

Definition expGainOf (monster : Monster) (player : Player) : Z :=
  JS.floor (JS.num (monster_level monster) * 10 * (1 + JS.num (rebirthCycle player) * 0.1)).

Definition auraSpent (player : Player) (ability : AbilityDefinition) : PlayerUpdates :=
  {| set_level := None;
     set_experience := None;
     set_rebirthCycle := None;
     set_health := None;
     set_maxHealth := None;
     set_aura := Some (aura player - ability_auraCost ability);
     set_maxAura := None;
     set_hiddenStrength := None;
     set_hiddenAgility := None;
     set_hiddenIntelligence := None;
     set_hiddenEndurance := None |}.

(** The body of [if (monster) { ... }] in [useAbility]. *)
Definition hitMonster (e : Env) (player : Player) (monster : Monster) (totalDamage : Z)
    : Op unit :=
  let newHealth := Z.max 0 (monster_health monster - totalDamage) in
  exec (Storage.updateMonster (monster_id monster)
          (mkMonsterUpdates (Some newHealth) None)) ;;
  when (newHealth <=? 0)
    (exec (Storage.deleteMonster (monster_id monster)) ;;
     awardExperience player (expGainOf monster player) ;;
     dropLoot e monster (player_id player)).

Definition useAbility (e : Env) (playerId abilityName : string)
    (targetId : option string) : Op AbilityResult :=
  player <- query (Storage.getPlayer playerId) ;;
  match player with
  | None => ret (failure abilityName playerId "Player not found" 0)
  | Some player =>
    match resolve abilityName with
    | None => ret (failure abilityName playerId "Unknown ability" 0)
    | Some ability =>
      if level player <? requiredLevel ability then
        ret (failure abilityName playerId
               ("Requires level " ++ JS.show (requiredLevel ability))
               (ability_auraCost ability))
      else if aura player <? ability_auraCost ability then
        ret (failure abilityName playerId "Not enough aura" (ability_auraCost ability))
      else
        onCooldown <- (fun w => (isOnCooldown e playerId abilityName w, w)) ;;
        if onCooldown : bool then
          remainingTime <- (fun w => (getRemainingCooldown e playerId abilityName w, w)) ;;
          ret (failure abilityName playerId
                 ("Ability on cooldown (" ++ JS.show remainingTime ++ "ms remaining)")
                 (ability_auraCost ability))
        else
          let totalDamage := totalDamageOf ability player in
          exec (Storage.updatePlayer playerId (auraSpent player ability)) ;;
          setCooldown e playerId abilityName (cooldown ability) ;;
          match truthy targetId with
          | Some target =>
              monster <- findNearbyMonster player target ;;
              match monster with
              | Some monster => hitMonster e player monster totalDamage
              | None => ret tt
              end
          | None => ret tt
          end ;;
          ret {| success := true;
                 damage := Some totalDamage;
                 abilityUsed := abilityName;
                 playerId := playerId;
                 targetId := targetId;
                 message := "Used " ++ name ability ++ " for "
                            ++ JS.show totalDamage ++ " damage";
                 auraCost := ability_auraCost ability |}
    end
  end.

(** [spawnMonster]; [i] is the index of its first random number, the
    new row takes the identifier [uuid e 0]. *)
Definition monsterTypes : list string :=
  ["Stone Golem"; "Shadow Wolf"; "Crystal Spider"; "Wind Elemental"].

Definition spawnMonster (e : Env) (i : nat) (zone : string) (level : Z)
    (difficultyMultiplier : float) : Op unit :=
  let randomType :=
    nth (Z.to_nat (JS.floor (random e i * JS.num (Z.of_nat (length monsterTypes)))))
        monsterTypes EmptyString in
  let baseHealth := level * 100 in
  let scaledHealth := JS.floor (JS.num baseHealth * difficultyMultiplier) in
  let x := (random e (S i) * 200 - 100)%float in
  let z := (random e (S (S i)) * 200 - 100)%float in
  exec (Storage.createMonster
          {| monster_id := uuid e 0;
             monster_name := randomType;
             monster_level := level;
             monster_health := scaledHealth;
             monster_maxHealth := scaledHealth;
             monster_positionX := x;
             monster_positionY := 0;
             monster_positionZ := z;
             monster_zone := zone;
             difficultyMultiplier := difficultyMultiplier;
             isAlive := true;
             monster_spawnedAt := Some (dbNow e) |}).

(** The three timers of [start], one tick each. *)
Definition spawnTick (e : Env) : Op unit :=
  onlinePlayers <- query Storage.getOnlinePlayers ;;
  when (0 <? Z.of_nat (length onlinePlayers))
    (let total := fold_left (fun sum p => sum + rebirthCycle p) onlinePlayers 0 in
     let avgRebirthCycle :=
       (JS.num total / JS.num (Z.of_nat (length onlinePlayers)))%float in
     let difficultyMultiplier := (1 + avgRebirthCycle * 0.5)%float in
     monsters <- query (Storage.getMonstersInZone "selha_latna") ;;
     let maxMonsters := Z.min 20 (Z.of_nat (length onlinePlayers) * 3) in
     when (Z.of_nat (length monsters) <? maxMonsters)
       (let level := JS.floor (random e 0 * 90) + 10 in
        spawnMonster e 1 "selha_latna" level difficultyMultiplier)).

Definition healthRegenOf (player : Player) : Z :=
  Z.min (maxHealth player) (health player + JS.floor (JS.num (maxHealth player) * 0.01)).

Definition auraRegenOf (player : Player) : Z :=
  Z.min (maxAura player) (aura player + JS.floor (JS.num (maxAura player) * 0.02)).

Definition regenUpdates (player : Player) : PlayerUpdates :=
  {| set_level := None;
     set_experience := None;
     set_rebirthCycle := None;
     set_health := Some (healthRegenOf player);
     set_maxHealth := None;
     set_aura := Some (auraRegenOf player);
     set_maxAura := None;
     set_hiddenStrength := None;
     set_hiddenAgility := None;
     set_hiddenIntelligence := None;
     set_hiddenEndurance := None |}.

(** [healthRegen !== player.health || auraRegen !== player.aura] *)
Definition regenChanges (player : Player) : bool :=
  negb (healthRegenOf player =? health player) || negb (auraRegenOf player =? aura player).

Definition regenTick : Op unit :=
  onlinePlayers <- query Storage.getOnlinePlayers ;;
  forEach onlinePlayers (fun player =>
    when (regenChanges player)
      (exec (Storage.updatePlayer (player_id player) (regenUpdates player)))).

Definition cleanupTick (e : Env) : Op unit :=
  exec (Storage.cleanupExpiredLoot (dbNow e)).

End GameEngine.

(** ** The endpoints of [server/routes.ts] that change the game state *)

Module Routes.

Inductive Response (A : Type) :=
| Json (body : A)
| Status (code : Z) (message : string).
Arguments Json {A} body.
Arguments Status {A} code message.

(** What [wss.clients.forEach] sends to every open connection. *)
Inductive Broadcast :=
| player_rebirth (playerId : string) (newCycle : Z)
| combat_action (data : AbilityResult).

(** [POST /api/game/rebirth/:playerId] *)
Definition rebirth (playerId : string) : Op (Response Player * list Broadcast) :=
  player <- query (Storage.getPlayer playerId) ;;
  match player with
  | None => ret (Status 404 "Player not found", [])
  | Some player =>
      if level player <? 100 then
        ret (Status 400 "Must reach level 100 to rebirth", [])
      else
        fun w =>
          match Storage.performRebirth (player_id player) (storage w) with
          | Some (Some reborntPlayer, d) =>
              ((Json reborntPlayer,
                [player_rebirth (player_id player) (rebirthCycle reborntPlayer)]),
               mkWorld d (playerCooldowns w))
          | Some (None, d) =>
              ((Status 500 "Cannot read properties of undefined", []),
               mkWorld d (playerCooldowns w))
          | None => ((Status 500 "Player not found", []), w)
          end
  end.

(** [POST /api/loot/collect/:playerId/:lootId]; [errorMessage] is the
    [error.message] the [catch] answers with when the storage throws,
    worded by the database driver. *)
Definition collect (e : Env) (errorMessage : string) (playerId lootId : string)
    : Op (Response string) :=
  fun w =>
    match Storage.collectWorldLoot (uuid e 0) (dbNow e) playerId lootId (storage w) with
    | Some (success, d) =>
        (if success : bool then Json "Loot collected successfully"
         else Status 400 "Could not collect loot",
         mkWorld d (playerCooldowns w))
    | None => (Status 400 errorMessage, w)
    end.

(** [POST /api/combat/ability/:playerId] *)
Definition combat (e : Env) (playerId abilityName : string) (targetId : option string)
    : Op (Response AbilityResult * list Broadcast) :=
  result <- GameEngine.useAbility e playerId abilityName targetId ;;
  ret (Json result, [combat_action result]).

End Routes.

(** ** Runs of the system *)

(** One operation of the core, run to completion. A new monster row
    takes an identifier no row of [monsters] has: [id] is the primary
    key, and the insert of a taken one is refused. *)
Inductive step : World -> World -> Prop :=
| step_useAbility e playerId abilityName targetId w :
    step w (GameEngine.useAbility e playerId abilityName targetId w).2
| step_spawn e w :
    uuid e 0 ∉ List.map monster_id (monsters (storage w)) ->
    step w (GameEngine.spawnTick e w).2
| step_regen w :
    step w (GameEngine.regenTick w).2
| step_cleanup e w :
    step w (GameEngine.cleanupTick e w).2
| step_rebirth playerId w :
    step w (Routes.rebirth playerId w).2
| step_collect e errorMessage playerId lootId w :
    step w (Routes.collect e errorMessage playerId lootId w).2.

Definition reachable : World -> World -> Prop := rtc step.

(** ** The invariants of the data model *)

(** [0 <= health <= maxHealth] and [0 <= aura <= maxAura] *)
Definition withinBounds (p : Player) : Prop :=
  0 <= health p <= maxHealth p /\ 0 <= aura p <= maxAura p.

(** The primary key of [players]. *)
Definition playersKeyed (d : Db) : Prop := NoDup (List.map player_id (players d)).

(** The ability catalog as the specification words it: lowercase, every
    space replaced with an underscore. *)
Module Spec.

Fixpoint replaceAll (a b : ascii) (s : string) : string :=
  match s with
  | EmptyString => EmptyString
  | String c r => String (if Ascii.eqb c a then b else c) (replaceAll a b r)
  end.

Definition normalize (abilityName : string) : string :=
  replaceAll " " "_" (JS.toLowerCase abilityName).

Fixpoint spaces (s : string) : nat :=
  match s with
  | EmptyString => 0%nat
  | String c r => ((if Ascii.eqb c " " then 1 else 0) + spaces r)%nat
  end.

End Spec.

(** ** Vocabulary of the statements *)

(** The sign bit of a binary64 value is clear (or it is not a number). *)
Definition signClear (x : spec_float) : Prop :=
  match x with
  | S754_zero s | S754_infinity s | S754_finite s _ _ => s = false
  | S754_nan => True
  end.

(** [eq(table.key, id)] *)
Definition hasKey {A : Type} (key : A -> string) (id : string) (r : A) : bool :=
  String.eqb (key r) id.

(** The invariant of a player row in the data model, as far as the
    bounds need it: the bounds themselves and a level of at least 1. *)
Definition playerInvariant (p : Player) : Prop := withinBounds p /\ 1 <= level p.

(** [newHealth] in [useAbility]. *)
Definition hits (monster : Monster) (totalDamage : Z) : Z :=
  Z.max 0 (monster_health monster - totalDamage).

(** The world once the aura is paid and the cooldown armed. *)
Definition afterCast (e : Env) (playerId abilityName : string)
    (player : Player) (ability : AbilityDefinition) (w : World) : World :=
  (GameEngine.setCooldown e playerId abilityName (cooldown ability)
     (mkWorld
        (Storage.updatePlayer playerId (GameEngine.auraSpent player ability) (storage w))
        (playerCooldowns w))).2.

(** The monster [useAbility] strikes, if any. *)
Definition struck (player : Player) (targetId : option string) (w : World)
    : option Monster :=
  match GameEngine.truthy targetId with
  | Some target => (GameEngine.findNearbyMonster player target w).1
  | None => None
  end.

(** The result [useAbility] returns once its five checks have passed. *)
Definition used (playerId abilityName : string) (targetId : option string)
    (player : Player) (ability : AbilityDefinition) : AbilityResult :=
  {| success := true;
     damage := Some (GameEngine.totalDamageOf ability player);
     abilityUsed := abilityName;
     playerId := playerId;
     targetId := targetId;
     message := "Used " ++ name ability ++ " for "
                ++ JS.show (GameEngine.totalDamageOf ability player) ++ " damage";
     auraCost := ability_auraCost ability |}.

(** The instant stored for [(playerId, abilityName)] in [playerCooldowns]. *)
Definition cooldownEnd (playerId abilityName : string) (w : World) : option Z :=
  match playerCooldowns w !! playerId with
  | Some playerCooldowns => playerCooldowns !! abilityName
  | None => None
  end.

(** The body of the [for ... of onlinePlayers] loop of the regenerator. *)
Definition regenBody (player : Player) : Op unit :=
  when (GameEngine.regenChanges player)
    (exec (Storage.updatePlayer (player_id player) (GameEngine.regenUpdates player))).

(** The row [q] once that loop has gone through the snapshot [l]. *)
Definition regenRow (l : list Player) (q : Player) : Player :=
  match List.find (hasKey player_id (player_id q)) l with
  | Some p =>
      if GameEngine.regenChanges p then setPlayer (GameEngine.regenUpdates p) q else q
  | None => q
  end.

(** A player after one tick of the regenerator. *)
Definition regenerated (p : Player) : Player :=
  if isOnline p then setPlayer (GameEngine.regenUpdates p) p else p.

(** The writes one tick of the regenerator issues over the rows [ps]. *)
Definition regenWrites (ps : list Player) : list Write :=
  List.map (fun p => UpdatePlayer (player_id p) (GameEngine.regenUpdates p))
    (List.filter GameEngine.regenChanges (List.filter isOnline ps)).

(** [id] names a monster row, and every row it names is dead. *)
Definition slain (id : string) (d : Db) : Prop :=
  In id (List.map monster_id (monsters d))
  /\ forall m, In m (monsters d) -> monster_id m = id -> isAlive m = false.

(** A rewriting of monster rows that keeps their identifiers and
    revives none. *)
Definition quiet (g : Monster -> Monster) : Prop :=
  forall m, monster_id (g m) = monster_id m /\ (isAlive m = false -> isAlive (g m) = false).

(** What the player holds of the item: the quantity of the stack
    [addToInventory] and [removeFromInventory] find, 0 without one. *)
Definition quantityOf (playerId itemId : string) (rows : list PlayerInventory) : Z :=
  match List.find (Inventory.stackOf playerId itemId) rows with
  | Some existing => inv_quantity existing
  | None => 0
  end.

(** [players] has a row of this [id]; [loot_items] has one: what the
    foreign keys of [player_inventory] ask for. *)
Definition playerExists (id : string) (d : Db) : Prop :=
  In id (List.map player_id (players d)).

Definition itemExists (id : string) (d : Db) : Prop :=
  In id (List.map item_id (lootItems d)).

(** The item of every [world_loot] row exists: the foreign key of
    [world_loot.item_id]. *)
Definition lootReferenced (d : Db) : Prop :=
  Forall (fun l => itemExists (loot_itemId l) d) (worldLoot d).

(** Every (player, item) has at most one stack. *)
Definition stacked (rows : list PlayerInventory) : Prop :=
  forall playerId itemId,
    (length (List.filter (Inventory.stackOf playerId itemId) rows) <= 1)%nat.

(** [0 <= health <= maxHealth] of a monster. *)
Definition monsterWithinBounds (m : Monster) : Prop :=
  0 <= monster_health m <= monster_maxHealth m.

(** The number of monsters [getMonstersInZone] returns. *)
Definition aliveIn (zone : string) (d : Db) : Z :=
  Z.of_nat (length (Storage.getMonstersInZone zone d)).

(** The rows the loop of [dropLoot] inserts for [drops]. *)
Fixpoint droppedRows (e : Env) (monster : Monster) (killerId : string)
    (drops : list (string * Z)) (i k : nat) : list WorldLoot :=
  match drops with
  | [] => []
  | (itemId, quantity) :: rest =>
      {| loot_id := uuid e k;
         loot_itemId := itemId;
         loot_quantity := quantity;
         loot_positionX :=
           (monster_positionX monster + (random e i - 0.5) * 10)%float;
         loot_positionY := monster_positionY monster;
         loot_positionZ :=
           (monster_positionZ monster + (random e (S i) - 0.5) * 10)%float;
         loot_zone := monster_zone monster;
         droppedBy := Some killerId;
         loot_spawnedAt := Some (dbNow e);
         expiresAt := Some (dbNow e + Storage.fiveMinutes) |}
      :: droppedRows e monster killerId rest (S (S i)) (S k)
  end.

(** The rows [dropLoot] inserts. *)
Definition lootOf (e : Env) (monster : Monster) (killerId : string) (d : Db)
    : list WorldLoot :=
  match List.find (fun item => String.eqb (item_name item) "Monster Bone") (lootItems d),
        List.find (fun item => String.eqb (item_name item) "Monster Meat") (lootItems d) with
  | Some boneItem, Some meatItem =>
      droppedRows e monster killerId
        (GameEngine.rollDrops e monster boneItem meatItem).1
        (GameEngine.rollDrops e monster boneItem meatItem).2 0
  | _, _ => []
  end.

(** The row the spawner inserts when it spawns. *)
Definition spawnedMonster (e : Env) (d : Db) : Monster :=
  let onlinePlayers := Storage.getOnlinePlayers d in
  let total := fold_left (fun sum p => sum + rebirthCycle p) onlinePlayers 0 in
  let avgRebirthCycle :=
    (JS.num total / JS.num (Z.of_nat (length onlinePlayers)))%float in
  let difficultyMultiplier := (1 + avgRebirthCycle * 0.5)%float in
  let level := JS.floor (random e 0 * 90) + 10 in
  let scaledHealth := JS.floor (JS.num (level * 100) * difficultyMultiplier) in
  {| monster_id := uuid e 0;
     monster_name :=
       nth (Z.to_nat
              (JS.floor (random e 1
                         * JS.num (Z.of_nat (length GameEngine.monsterTypes)))))
           GameEngine.monsterTypes EmptyString;
     monster_level := level;
     monster_health := scaledHealth;
     monster_maxHealth := scaledHealth;
     monster_positionX := (random e 2 * 200 - 100)%float;
     monster_positionY := 0;
     monster_positionZ := (random e 3 * 200 - 100)%float;
     monster_zone := "selha_latna";
     difficultyMultiplier := difficultyMultiplier;
     isAlive := true;
     monster_spawnedAt := Some (dbNow e) |}.

(** The cap of the spawner: [Math.min(20, onlinePlayers.length * 3)]. *)
Definition spawnCap (d : Db) : Z :=
  Z.min 20 (Z.of_nat (length (Storage.getOnlinePlayers d)) * 3).

(** [Math.random()] is not negative. *)
Definition randomNonNegative (e : Env) : Prop :=
  forall n, signClear (Prim2SF (random e n)).

(** ** A small world to run the operations on *)

Module Sample.

Definition player (id : string) (level experience aura maxAura : Z) (online : bool)
    : Player :=
  {| player_id := id;
     username := id;
     password := "secret";
     characterName := id;
     level := level;
     experience := experience;
     rebirthCycle := 0;
     health := 3000;
     maxHealth := 4000;
     aura := aura;
     maxAura := maxAura;
     hiddenStrength := 0;
     hiddenAgility := 0;
     hiddenIntelligence := 0;
     hiddenEndurance := 0;
     positionX := 0;
     positionY := 0;
     positionZ := 0;
     rotationY := 0;
     isInTutorialZone := true;
     tutorialProgress := 0;
     unlockedAbilities := [];
     isOnline := online;
     lastSeen := None;
     createdAt := Some 0 |}.

(** Level 60 with 500 aura, as in the example of the specification. *)
Definition hero : Player := player "hero" 60 5900 500 2000 true.

(** Just enough aura for one Stone Bullet. *)
Definition novice : Player := player "novice" 1 0 60 525 true.

(** Level 20 with 40 aura left. *)
Definition drained : Player := player "drained" 20 1900 40 1000 true.

(** At level 100. *)
Definition elder : Player := player "elder" 100 9950 3000 3000 false.

(** One kill away from experience 10000. *)
Definition veteran : Player := player "veteran" 99 9850 2975 2975 false.

Definition monster (id : string) (level health : Z) (x : float) : Monster :=
  {| monster_id := id;
     monster_name := "Stone Golem";
     monster_level := level;
     monster_health := health;
     monster_maxHealth := 2000;
     monster_positionX := x;
     monster_positionY := 0;
     monster_positionZ := 4;
     monster_zone := "selha_latna";
     difficultyMultiplier := 1;
     isAlive := true;
     monster_spawnedAt := Some 0 |}.

(** Health 250 at distance 5. *)
Definition golem : Monster := monster "golem" 20 250 3.

(** At distance above 50. *)
Definition farGolem : Monster := monster "far" 20 250 300.

Definition item (id name : string) : LootItem :=
  {| item_id := id;
     item_name := name;
     item_type := "material";
     rarity := "common";
     description := name;
     effects := [];
     value := 1;
     stackable := true;
     maxStack := 99;
     icon := "fas fa-cube" |}.

(** Dropped at time 0, expired at 300000. *)
Definition oldBone : WorldLoot :=
  {| loot_id := "loot";
     loot_itemId := "bone";
     loot_quantity := 2;
     loot_positionX := 1;
     loot_positionY := 0;
     loot_positionZ := 1;
     loot_zone := "selha_latna";
     droppedBy := Some "hero";
     loot_spawnedAt := Some 0;
     expiresAt := Some 300000 |}.

Definition db : Db :=
  {| players := [hero; novice; drained; elder; veteran];
     monsters := [golem; farGolem];
     lootItems := [item "bone" "Monster Bone"; item "meat" "Monster Meat"];
     playerInventory := [];
     worldLoot := [oldBone];
     journal := [] |}.

Definition world : World := mkWorld db ∅.

(** The world between the two writes of a use of [ability] by the hero:
    the aura is spent, the cooldown is not armed yet and nothing has
    been awarded. *)
Definition spent (ability : AbilityDefinition) : World :=
  mkWorld (Storage.updatePlayer "hero" (GameEngine.auraSpent hero ability) db) ∅.

(** The same database with three stacks in the inventories. *)
Definition stocked : Db :=
  {| players := players db;
     monsters := monsters db;
     lootItems := lootItems db;
     playerInventory :=
       [mkPlayerInventory "inv0" "hero" "bone" 3 (Some 0);
        mkPlayerInventory "inv1" "hero" "meat" 1 (Some 0);
        mkPlayerInventory "inv2" "novice" "bone" 2 (Some 0)];
     worldLoot := worldLoot db;
     journal := journal db |}.

(** An operation at time [t]: every clock reads [t], every random
    number is 0.5, the identifiers are [new0], [new1], ... *)
Definition env (t : Z) : Env :=
  {| atCheck := t;
     atRemaining := t;
     atArm := t;
     dbNow := t;
     random := fun _ => 0.5%float;
     uuid := fun n => "new" ++ pretty n |}.

(** As [env], with every random number 0.1: both drop rolls succeed. *)
Definition luckyEnv (t : Z) : Env :=
  {| atCheck := t;
     atRemaining := t;
     atArm := t;
     dbNow := t;
     random := fun _ => 0.1%float;
     uuid := fun n => "new" ++ pretty n |}.

End Sample.

(** * Properties *)

(** ** Numbers *)

(** [Math.floor] of a scaled integer, as JavaScript computes it; the
    third sample is the experience for a monster of level 9 and a
    rebirth cycle of 4, where [90 * 1.4] is [125.99999999999999]. *)
Example floor_samples :
  JS.floor (JS.num 1234 * 0.1) = 123 /\ JS.floor (JS.num 1000 * 0.01) = 10 /\
  JS.floor (JS.num 9 * 10 * (1 + JS.num 4 * 0.1)) = 125 /\
  JS.floor (JS.num (-5) / 100) = -1 /\ JS.show (-12) = "-12" /\
  JS.replace " " "_" (JS.toLowerCase "Ground Dig Up") = "ground_dig up".
Proof. vm_compute. repeat split. Qed.

(** On the integers a column of this game holds, the scaled floors are
    the integer quotients. *)
Example floor_scaled_exact :
  forallb (fun n => (JS.floor (JS.num n * 0.1) =? n / 10)
                    && (JS.floor (JS.num n * 0.01) =? n / 100)
                    && (JS.floor (JS.num n * 0.02) =? n / 50)
                    && (JS.floor (JS.num n / 100) =? n / 100)
                    && (JS.floor (JS.num n * 10) =? n * 10))
          (List.map Z.of_nat (List.seq 0 (Z.to_nat 10000))) = true.
Proof. vm_compute. reflexivity. Qed.

Section Numbers.

Lemma binary_round_aux_signClear mx ex lx :
  signClear (binary_round_aux prec emax false mx ex lx).
Proof.
  unfold binary_round_aux.
  destruct (shr_fexp prec emax mx ex lx) as [mrs' e'].
  destruct (shr_fexp prec emax _ e' loc_Exact) as [mrs'' e''].
  destruct (shr_m mrs''); simpl; try easy.
  now destruct (Z.leb e'' _).
Qed.

Lemma num_signClear n : 0 <= n -> signClear (Prim2SF (JS.num n)).
Proof.
  intros Hn. unfold JS.num.
  destruct (Z.ltb_spec n 0) as [Hlt|_]; [lia|].
  rewrite of_uint63_spec. unfold binary_normalize.
  pose proof (Uint63.to_Z_bounded (Uint63.of_Z n)) as Hb.
  destruct (Uint63.to_Z (Uint63.of_Z n)) as [|m|m]; simpl; try easy; try lia.
  unfold binary_round.
  destruct (shl_align m 0 _) as [mz ez].
  apply binary_round_aux_signClear.
Qed.

Lemma SFmul_signClear x y :
  signClear x -> signClear y -> signClear (SF64mul x y).
Proof.
  unfold SF64mul, SFmul.
  destruct x as [sx|sx| |sx mx ex], y as [sy|sy| |sy my ey]; simpl;
    intros Hx Hy; subst; simpl; try easy.
  apply binary_round_aux_signClear.
Qed.

Lemma floor_signClear x : signClear (Prim2SF x) -> 0 <= JS.floor x.
Proof.
  unfold JS.floor. destruct (Prim2SF x) as [s|s| |s m e]; simpl; try lia.
  intros ->. apply Z.shiftl_nonneg. lia.
Qed.

(** [Math.floor(n * c)] is not negative for [n >= 0] and a constant
    [c] whose sign bit is clear. *)
Lemma floor_scaled_nonneg n c :
  0 <= n -> signClear (Prim2SF c) -> 0 <= JS.floor (JS.num n * c).
Proof.
  intros Hn Hc. apply floor_signClear. rewrite mul_spec.
  apply SFmul_signClear; [now apply num_signClear | exact Hc].
Qed.

End Numbers.

(** ** Tables *)

Section Tables.

Context {A : Type} (key : A -> string).

Lemma find_hasKey_Some id l r :
  List.find (hasKey key id) l = Some r -> In r l /\ key r = id.
Proof.
  intros H. apply find_some in H as [Hin Hk]. split; [exact Hin|].
  now apply String.eqb_eq.
Qed.

Lemma find_hasKey_None id l r :
  List.find (hasKey key id) l = None -> In r l -> key r <> id.
Proof.
  intros H Hin Hk. apply (find_none _ _ H) in Hin.
  unfold hasKey in Hin. rewrite Hk, String.eqb_refl in Hin. discriminate.
Qed.

(** Under the primary key, the row [find] returns is the only one
    with that key. *)
Lemma keyed_unique l r q :
  NoDup (List.map key l) -> In r l -> In q l -> key q = key r -> q = r.
Proof.
  induction l as [|x l IH]; simpl; [easy|].
  intros Hnd Hr Hq Hk. inversion Hnd as [|? ? Hx Hl]; subst.
  destruct Hr as [->|Hr], Hq as [->|Hq]; try easy.
  - exfalso. apply Hx. rewrite list_elem_of_In, <- Hk. now apply in_map.
  - exfalso. apply Hx. rewrite list_elem_of_In, Hk. now apply in_map.
  - now apply IH.
Qed.

Lemma find_keyed id l r q :
  NoDup (List.map key l) -> List.find (hasKey key id) l = Some r ->
  In q l -> key q = id -> q = r.
Proof.
  intros Hnd Hf Hq Hk. apply find_hasKey_Some in Hf as [Hr Hkr].
  apply (keyed_unique l); congruence.
Qed.

Lemma find_keyed_self l r :
  NoDup (List.map key l) -> In r l -> List.find (hasKey key (key r)) l = Some r.
Proof.
  intros Hnd Hr.
  destruct (List.find (hasKey key (key r)) l) as [q|] eqn:Hf.
  - f_equal. symmetry. now apply (find_keyed (key r) l q r).
  - now apply (find_hasKey_None _ _ r) in Hf.
Qed.

Variable f : A -> A.
Hypothesis f_key : forall r, key (f r) = key r.

Lemma updateWhere_keys id l :
  List.map key (Storage.updateWhere key id f l) = List.map key l.
Proof.
  unfold Storage.updateWhere. rewrite List.map_map. apply List.map_ext.
  intros r. now destruct (String.eqb (key r) id).
Qed.

Lemma updateWhere_Forall (P : A -> Prop) id l :
  Forall P l -> (forall r, In r l -> key r = id -> P (f r)) ->
  Forall P (Storage.updateWhere key id f l).
Proof.
  intros Hl Hf. unfold Storage.updateWhere.
  rewrite List.Forall_forall in *. intros r' Hin.
  apply in_map_iff in Hin as (r & <- & Hin).
  destruct (String.eqb_spec (key r) id) as [Hk|Hk]; auto.
Qed.

Lemma find_updateWhere id id' l :
  List.find (hasKey key id') (Storage.updateWhere key id f l)
  = option_map (fun r => if String.eqb (key r) id then f r else r)
               (List.find (hasKey key id') l).
Proof.
  induction l as [|x l IH]; simpl; [easy|].
  unfold hasKey at 1 3.
  assert (key (if String.eqb (key x) id then f x else x) = key x) as ->
    by (destruct (String.eqb (key x) id); auto).
  destruct (String.eqb (key x) id'); [easy | exact IH].
Qed.

End Tables.

(** ** What each procedure of the engine touches *)

Ltac run := unfold bind, ret, query, exec, when; simpl.

Section Frames.

Import GameEngine.

Lemma placeDrops_frame e monster killerId drops i k w :
  let w' := (placeDrops e monster killerId drops i k w).2 in
  players (storage w') = players (storage w)
  /\ monsters (storage w') = monsters (storage w)
  /\ playerInventory (storage w') = playerInventory (storage w)
  /\ playerCooldowns w' = playerCooldowns w.
Proof.
  revert i k w. induction drops as [|[itemId quantity] rest IH]; intros i k w.
  - now simpl.
  - simpl. run.
    match goal with |- context [placeDrops _ _ _ _ ?i' ?k' ?w'] =>
      destruct (IH i' k' w') as (-> & -> & -> & ->) end.
    easy.
Qed.

Lemma dropLoot_frame e monster killerId w :
  let w' := (dropLoot e monster killerId w).2 in
  players (storage w') = players (storage w)
  /\ monsters (storage w') = monsters (storage w)
  /\ playerInventory (storage w') = playerInventory (storage w)
  /\ playerCooldowns w' = playerCooldowns w.
Proof.
  unfold dropLoot. run.
  destruct (List.find _ _) as [boneItem|]; [|easy].
  destruct (List.find _ _) as [meatItem|]; [|easy].
  destruct (rollDrops e monster boneItem meatItem) as [drops i].
  apply placeDrops_frame.
Qed.

Lemma hitMonster_players e player monster totalDamage w :
  players (storage (hitMonster e player monster totalDamage w).2)
  = if hits monster totalDamage <=? 0
    then Storage.updateWhere player_id (player_id player)
           (setPlayer (awardUpdates player (expGainOf monster player)))
           (players (storage w))
    else players (storage w).
Proof.
  unfold hitMonster, awardExperience, hits. run.
  destruct (Z.max 0 _ <=? 0); simpl; [|easy].
  match goal with |- context [dropLoot ?e ?m ?k ?w] =>
    destruct (dropLoot_frame e m k w) as (-> & _) end.
  easy.
Qed.

Lemma hitMonster_monsters e player monster totalDamage w :
  monsters (storage (hitMonster e player monster totalDamage w).2)
  = let damaged :=
      Storage.updateWhere monster_id (monster_id monster)
        (setMonster (mkMonsterUpdates (Some (hits monster totalDamage)) None))
        (monsters (storage w)) in
    if hits monster totalDamage <=? 0
    then Storage.updateWhere monster_id (monster_id monster)
           (setMonster (mkMonsterUpdates None (Some false))) damaged
    else damaged.
Proof.
  unfold hitMonster, awardExperience, hits. run.
  destruct (Z.max 0 _ <=? 0); simpl; [|easy].
  match goal with |- context [dropLoot ?e ?m ?k ?w] =>
    destruct (dropLoot_frame e m k w) as (_ & -> & _) end.
  easy.
Qed.

Lemma hitMonster_cooldowns e player monster totalDamage w :
  playerCooldowns (hitMonster e player monster totalDamage w).2 = playerCooldowns w.
Proof.
  unfold hitMonster, awardExperience. run.
  destruct (Z.max 0 _ <=? 0); simpl; [|easy].
  match goal with |- context [dropLoot ?e ?m ?k ?w] =>
    destruct (dropLoot_frame e m k w) as (_ & _ & _ & ->) end.
  easy.
Qed.

(** [useAbility] once the five checks have passed. *)
Lemma useAbility_cast e playerId abilityName targetId w player ability :
  Storage.getPlayer playerId (storage w) = Some player ->
  resolve abilityName = Some ability ->
  requiredLevel ability <= level player ->
  ability_auraCost ability <= aura player ->
  isOnCooldown e playerId abilityName w = false ->
  useAbility e playerId abilityName targetId w
  = (used playerId abilityName targetId player ability,
     let w1 := afterCast e playerId abilityName player ability w in
     match struck player targetId w1 with
     | Some monster => (hitMonster e player monster (totalDamageOf ability player) w1).2
     | None => w1
     end).
Proof.
  intros Hp Ha Hl Hc Hcd. unfold useAbility, struck, afterCast. run.
  rewrite Hp, Ha.
  destruct (Z.ltb_spec (level player) (requiredLevel ability)); [lia|].
  destruct (Z.ltb_spec (aura player) (ability_auraCost ability)); [lia|].
  rewrite Hcd.
  destruct (truthy targetId) as [target|]; [|easy].
  unfold findNearbyMonster. run.
  destruct (List.find _ _) as [monster|]; [|easy].
  now destruct (hitMonster _ _ _ _ _).
Qed.

End Frames.

(** ** The ability catalog *)

Section Catalog.

Import GameEngine.

Lemma abilities_inv key ability :
  abilities !! key = Some ability ->
  (key = "stone_bullet" /\ ability = stone_bullet)
  \/ (key = "wind_manipulation" /\ ability = wind_manipulation)
  \/ (key = "ground_dig_up" /\ ability = ground_dig_up)
  \/ (key = "aura_release" /\ ability = aura_release).
Proof.
  unfold abilities. intros Hlk. rewrite !lookup_insert, lookup_empty in Hlk.
  repeat case_decide; simplify_eq; auto 6.
Qed.

Lemma resolve_positive abilityName ability :
  resolve abilityName = Some ability ->
  0 < ability_auraCost ability /\ 0 < cooldown ability.
Proof.
  intros H. apply abilities_inv in H.
  destruct H as [[_ ->]|[[_ ->]|[[_ ->]|[_ ->]]]]; simpl; lia.
Qed.

(** [useAbility] either fails and changes nothing, or passes its five
    checks. *)
Lemma useAbility_cases e playerId abilityName targetId w :
  (success (useAbility e playerId abilityName targetId w).1 = false
   /\ (useAbility e playerId abilityName targetId w).2 = w)
  \/ (exists player ability,
       Storage.getPlayer playerId (storage w) = Some player
       /\ resolve abilityName = Some ability
       /\ requiredLevel ability <= level player
       /\ ability_auraCost ability <= aura player
       /\ isOnCooldown e playerId abilityName w = false).
Proof.
  unfold useAbility. run.
  destruct (Storage.getPlayer playerId (storage w)) as [player|]; [|now left].
  destruct (resolve abilityName) as [ability|]; [|now left].
  destruct (Z.ltb_spec (level player) (requiredLevel ability)); [now left|].
  destruct (Z.ltb_spec (aura player) (ability_auraCost ability)); [now left|].
  destruct (isOnCooldown e playerId abilityName w) eqn:Hcd; [now left|].
  right. now exists player, ability.
Qed.

Lemma useAbility_short e playerId abilityName targetId w player ability :
  Storage.getPlayer playerId (storage w) = Some player ->
  resolve abilityName = Some ability ->
  requiredLevel ability <= level player ->
  aura player < ability_auraCost ability ->
  useAbility e playerId abilityName targetId w
  = (failure abilityName playerId "Not enough aura" (ability_auraCost ability), w).
Proof.
  intros Hp Ha Hl Hc. unfold useAbility. run. rewrite Hp, Ha.
  destruct (Z.ltb_spec (level player) (requiredLevel ability)); [lia|].
  now destruct (Z.ltb_spec (aura player) (ability_auraCost ability)); [|lia].
Qed.

Lemma useAbility_blocked e playerId abilityName targetId w player ability :
  Storage.getPlayer playerId (storage w) = Some player ->
  resolve abilityName = Some ability ->
  requiredLevel ability <= level player ->
  ability_auraCost ability <= aura player ->
  isOnCooldown e playerId abilityName w = true ->
  useAbility e playerId abilityName targetId w
  = (failure abilityName playerId
       ("Ability on cooldown ("
        ++ JS.show (getRemainingCooldown e playerId abilityName w) ++ "ms remaining)")
       (ability_auraCost ability), w).
Proof.
  intros Hp Ha Hl Hc Hcd. unfold useAbility. run. rewrite Hp, Ha.
  destruct (Z.ltb_spec (level player) (requiredLevel ability)); [lia|].
  destruct (Z.ltb_spec (aura player) (ability_auraCost ability)); [lia|].
  now rewrite Hcd.
Qed.

End Catalog.

(** ** The regenerator *)

Section Regenerator.

Import GameEngine.

Lemma regenTick_unfold w :
  regenTick w = forEach (Storage.getOnlinePlayers (storage w)) regenBody w.
Proof. reflexivity. Qed.

Lemma regenRow_skip x l q :
  player_id q <> player_id x -> regenRow (x :: l) q = regenRow l q.
Proof.
  intros Hne. unfold regenRow. simpl. unfold hasKey at 1.
  destruct (String.eqb_spec (player_id x) (player_id q)); congruence.
Qed.

Lemma regenRow_fresh l q :
  ~ In (player_id q) (List.map player_id l) -> regenRow l q = q.
Proof.
  intros Hq. unfold regenRow.
  destruct (List.find _ l) as [p|] eqn:Hf; [|easy].
  apply find_hasKey_Some in Hf as [Hin Hk].
  exfalso. apply Hq. rewrite <- Hk. now apply in_map.
Qed.

Lemma regenLoop_players l w :
  NoDup (List.map player_id l) ->
  players (storage (forEach l regenBody w).2)
  = List.map (regenRow l) (players (storage w)).
Proof.
  revert w. induction l as [|x l IH]; intros w Hnd.
  - simpl. unfold regenRow. simpl. now rewrite List.map_id.
  - inversion Hnd as [|? ? Hx Hl]; subst. rewrite list_elem_of_In in Hx.
    simpl. unfold bind. destruct (regenBody x w) as [[] w1] eqn:Hb.
    rewrite (IH w1 Hl). unfold regenBody, when in Hb.
    destruct (regenChanges x) eqn:Hch.
    + injection Hb as <-. simpl. unfold Storage.updateWhere.
      rewrite List.map_map. apply List.map_ext. intros q.
      destruct (String.eqb_spec (player_id q) (player_id x)) as [Hk|Hk].
      * rewrite regenRow_fresh by (simpl; now rewrite Hk).
        unfold regenRow. simpl. unfold hasKey at 1.
        now rewrite Hk, String.eqb_refl, Hch.
      * now rewrite regenRow_skip.
    + injection Hb as <-. apply List.map_ext_in. intros q _.
      destruct (String.eqb_spec (player_id q) (player_id x)) as [Hk|Hk].
      * rewrite regenRow_fresh by now rewrite Hk.
        unfold regenRow. simpl. unfold hasKey at 1.
        now rewrite Hk, String.eqb_refl, Hch.
      * now rewrite regenRow_skip.
Qed.

Lemma regenLoop_journal l w :
  journal (storage (forEach l regenBody w).2)
  = (journal (storage w)
     ++ List.map (fun p => UpdatePlayer (player_id p) (regenUpdates p))
          (List.filter regenChanges l))%list.
Proof.
  revert w. induction l as [|x l IH]; intros w.
  - simpl. now rewrite app_nil_r.
  - simpl. unfold bind. destruct (regenBody x w) as [[] w1] eqn:Hb.
    rewrite IH. unfold regenBody, when in Hb.
    destruct (regenChanges x); injection Hb as <-; simpl; [|easy].
    now rewrite <- app_assoc.
Qed.

Lemma regenLoop_frame l w :
  let w' := (forEach l regenBody w).2 in
  monsters (storage w') = monsters (storage w)
  /\ lootItems (storage w') = lootItems (storage w)
  /\ playerInventory (storage w') = playerInventory (storage w)
  /\ worldLoot (storage w') = worldLoot (storage w)
  /\ playerCooldowns w' = playerCooldowns w.
Proof.
  revert w. induction l as [|x l IH]; intros w; [easy|].
  simpl. unfold bind. destruct (regenBody x w) as [[] w1] eqn:Hb.
  destruct (IH w1) as (-> & -> & -> & -> & ->).
  unfold regenBody, when in Hb. now destruct (regenChanges x); injection Hb as <-.
Qed.

Lemma keyed_filter (f : Player -> bool) l :
  NoDup (List.map player_id l) -> NoDup (List.map player_id (List.filter f l)).
Proof.
  induction l as [|x l IH]; simpl; [easy|].
  intros Hnd. inversion Hnd as [|? ? Hx Hl]; subst.
  destruct (f x); simpl; auto. constructor; auto.
  rewrite list_elem_of_In in *. intros Hin. apply Hx.
  apply in_map_iff in Hin as (r & Hr & Hin). apply List.filter_In in Hin as [Hin _].
  rewrite <- Hr. now apply in_map.
Qed.

Lemma setPlayer_regen_same q :
  regenChanges q = false -> setPlayer (regenUpdates q) q = q.
Proof.
  unfold regenChanges. intros H. apply orb_false_elim in H as [Hh Ha].
  apply negb_false_iff, Z.eqb_eq in Hh. apply negb_false_iff, Z.eqb_eq in Ha.
  destruct q. unfold setPlayer, regenUpdates. simpl in *. now rewrite Hh, Ha.
Qed.

Lemma regenRow_online l q :
  NoDup (List.map player_id l) -> In q l ->
  regenRow (List.filter isOnline l) q = regenerated q.
Proof.
  intros Hnd Hq. unfold regenerated. destruct (isOnline q) eqn:Hon.
  - unfold regenRow. rewrite (find_keyed_self player_id).
    + destruct (regenChanges q) eqn:Hch; [easy|]. now rewrite setPlayer_regen_same.
    + now apply keyed_filter.
    + apply List.filter_In. now split.
  - apply regenRow_fresh. intros Hin.
    apply in_map_iff in Hin as (r & Hr & Hin). apply List.filter_In in Hin as [Hin Hron].
    assert (r = q) by (apply (keyed_unique player_id l); auto). congruence.
Qed.

Lemma regenTick_players w :
  playersKeyed (storage w) ->
  players (storage (regenTick w).2) = List.map regenerated (players (storage w)).
Proof.
  intros Hnd. rewrite regenTick_unfold, regenLoop_players.
  - apply List.map_ext_in. intros q Hq. now apply regenRow_online.
  - now apply keyed_filter.
Qed.

End Regenerator.

(** ** Health and aura stay within their bounds *)

Section Bounds.

Import GameEngine.

Lemma setPlayer_id u p : player_id (setPlayer u p) = player_id p.
Proof. reflexivity. Qed.

Lemma setMonster_id u m : monster_id (setMonster u m) = monster_id m.
Proof. reflexivity. Qed.

Lemma auraSpent_invariant player ability :
  playerInvariant player ->
  0 < ability_auraCost ability -> ability_auraCost ability <= aura player ->
  playerInvariant (setPlayer (auraSpent player ability) player).
Proof.
  unfold playerInvariant, withinBounds. simpl. lia.
Qed.

(** The update of [awardExperience], computed from a snapshot whose
    level is at least 1, keeps the invariant of whichever row it is
    applied to. *)
Lemma award_invariant player exp q :
  1 <= level player -> playerInvariant q ->
  playerInvariant (setPlayer (awardUpdates player exp) q).
Proof.
  unfold playerInvariant, withinBounds, awardUpdates. intros Hl Hq.
  destruct (Z.ltb_spec (level player) (newLevelOf (experience player + exp)));
    destruct (Z.leb_spec (newLevelOf (experience player + exp)) 100); simpl; lia.
Qed.

Lemma healthRegen_bounds p :
  0 <= health p <= maxHealth p -> 0 <= healthRegenOf p <= maxHealth p.
Proof.
  intros H. unfold healthRegenOf.
  assert (0 <= JS.floor (JS.num (maxHealth p) * 0.01))
    by (apply floor_scaled_nonneg; [lia | reflexivity]).
  lia.
Qed.

Lemma auraRegen_bounds p :
  0 <= aura p <= maxAura p -> 0 <= auraRegenOf p <= maxAura p.
Proof.
  intros H. unfold auraRegenOf.
  assert (0 <= JS.floor (JS.num (maxAura p) * 0.02))
    by (apply floor_scaled_nonneg; [lia | reflexivity]).
  lia.
Qed.

Lemma regenerated_invariant p :
  playerInvariant p -> playerInvariant (regenerated p).
Proof.
  intros [[Hh Ha] Hl]. unfold regenerated. destruct (isOnline p); [|easy].
  pose proof (healthRegen_bounds p Hh). pose proof (auraRegen_bounds p Ha).
  unfold playerInvariant, withinBounds. simpl. lia.
Qed.

Lemma afterCast_storage e playerId abilityName player ability w :
  storage (afterCast e playerId abilityName player ability w)
  = Storage.updatePlayer playerId (auraSpent player ability) (storage w).
Proof. reflexivity. Qed.

Lemma useAbility_invariant e playerId abilityName targetId w :
  playersKeyed (storage w) ->
  Forall playerInvariant (players (storage w)) ->
  Forall playerInvariant
    (players (storage (useAbility e playerId abilityName targetId w).2)).
Proof.
  intros Hkey Hinv.
  destruct (useAbility_cases e playerId abilityName targetId w)
    as [[_ ->]|(player & ability & Hp & Ha & Hl & Hc & Hcd)]; [exact Hinv|].
  rewrite (useAbility_cast _ _ _ _ _ player ability) by assumption. simpl.
  destruct (resolve_positive _ _ Ha) as [Hcost _].
  pose proof (find_hasKey_Some player_id _ _ _ Hp) as [Hin Hid].
  assert (playerInvariant player) as Hplayer
    by (rewrite List.Forall_forall in Hinv; auto).
  assert (Forall playerInvariant
            (players (storage (afterCast e playerId abilityName player ability w))))
    as Hpaid.
  { rewrite afterCast_storage. simpl.
    apply updateWhere_Forall; [exact Hinv|]. intros q Hq Hk.
    rewrite (find_keyed player_id playerId (players (storage w)) player q); auto.
    now apply auraSpent_invariant. }
  destruct (struck _ _ _) as [monster|]; [|exact Hpaid].
  rewrite hitMonster_players. destruct (_ <=? 0); [|exact Hpaid].
  apply updateWhere_Forall; [exact Hpaid|]. intros q Hq _.
  apply award_invariant; [apply Hplayer|].
  rewrite List.Forall_forall in Hpaid. auto.
Qed.

Lemma regenTick_invariant w :
  playersKeyed (storage w) ->
  Forall playerInvariant (players (storage w)) ->
  Forall playerInvariant (players (storage (regenTick w).2)).
Proof.
  intros Hkey Hinv. rewrite regenTick_players by assumption.
  rewrite List.Forall_forall in *. intros p' Hin.
  apply in_map_iff in Hin as (p & <- & Hin). apply regenerated_invariant. auto.
Qed.


Lemma invariant_bounds l : Forall playerInvariant l -> Forall withinBounds l.
Proof. apply List.Forall_impl. now intros p [H _]. Qed.

End Bounds.

(** * The properties of the specification *)

Import GameEngine.


Lemma sample_keyed : playersKeyed (storage Sample.world).
Proof.
  unfold playersKeyed. simpl. repeat constructor;
    rewrite list_elem_of_In; simpl; intuition discriminate.
Defined.




(** ** The regenerator tick, row by row *)

Lemma regenWrites_In ps x :
  In x (regenWrites ps) <->
  exists p, In p ps /\ isOnline p = true /\ regenChanges p = true
            /\ x = UpdatePlayer (player_id p) (regenUpdates p).
Proof.
  unfold regenWrites. rewrite in_map_iff. split.
  - intros (p & <- & Hin). apply List.filter_In in Hin as [Hin Hch].
    apply List.filter_In in Hin as [Hin Hon]. now exists p.
  - intros (p & Hin & Hon & Hch & ->). exists p. split; [easy|].
    apply List.filter_In. split; [|easy]. apply List.filter_In. now split.
Qed.

Lemma regenChanges_iff p :
  regenChanges p = true <->
  Z.min (maxHealth p) (health p + JS.floor (JS.num (maxHealth p) * 0.01)) <> health p
  \/ Z.min (maxAura p) (aura p + JS.floor (JS.num (maxAura p) * 0.02)) <> aura p.
Proof.
  unfold regenChanges, healthRegenOf, auraRegenOf.
  rewrite orb_true_iff, !negb_true_iff, !Z.eqb_neq. tauto.
Qed.

Lemma regenerated_id p : player_id (regenerated p) = player_id p.
Proof. unfold regenerated. now destruct (isOnline p). Qed.

Lemma find_map_key {A : Type} (key : A -> string) (g : A -> A) id l :
  (forall r, key (g r) = key r) ->
  List.find (hasKey key id) (List.map g l) = option_map g (List.find (hasKey key id) l).
Proof.
  intros Hg. induction l as [|x l IH]; simpl; [easy|].
  unfold hasKey at 1. rewrite Hg. fold (hasKey key id x). now destruct (hasKey key id x).
Qed.

(** C8. One tick of the regenerator, on a [players] table keyed by
    [id]: every online player gets health
    [min(maxHealth, health + floor(maxHealth * 0.01))] and aura
    [min(maxAura, aura + floor(maxAura * 0.02))] and keeps every other
    field; offline players are untouched; the tick issues exactly one
    update, of health and aura only, for each online player whose capped
    health or aura differs from the current one, and none for any other
    player; monsters, loot, inventories and cooldowns are untouched.
    Field by field: the row a player has after the tick has the capped
    health and aura when the player is online and the old ones when
    not, and in both cases the level, experience, rebirth cycle, maxima,
    hidden stats, position and online flag it had. *)
Theorem regenerator_tick (w : World) :
  playersKeyed (storage w) ->
  players (storage (regenTick w).2)
  = List.map
      (fun p =>
         if isOnline p then
           setPlayer
             {| set_level := None;
                set_experience := None;
                set_rebirthCycle := None;
                set_health :=
                  Some (Z.min (maxHealth p)
                          (health p + JS.floor (JS.num (maxHealth p) * 0.01)));
                set_maxHealth := None;
                set_aura :=
                  Some (Z.min (maxAura p)
                          (aura p + JS.floor (JS.num (maxAura p) * 0.02)));
                set_maxAura := None;
                set_hiddenStrength := None;
                set_hiddenAgility := None;
                set_hiddenIntelligence := None;
                set_hiddenEndurance := None |} p
         else p)
      (players (storage w))
  /\ journal (storage (regenTick w).2)
     = (journal (storage w) ++ regenWrites (players (storage w)))%list
  /\ (forall p, In p (players (storage w)) ->
       ((exists u, In (UpdatePlayer (player_id p) u) (regenWrites (players (storage w))))
        <-> isOnline p = true
            /\ (Z.min (maxHealth p) (health p + JS.floor (JS.num (maxHealth p) * 0.01))
                 <> health p
                \/ Z.min (maxAura p) (aura p + JS.floor (JS.num (maxAura p) * 0.02))
                   <> aura p)))
  /\ (forall x, In x (regenWrites (players (storage w))) ->
       exists p, In p (players (storage w)) /\ isOnline p = true
                 /\ x = UpdatePlayer (player_id p) (regenUpdates p))
  /\ (forall p, In p (players (storage w)) ->
       exists p',
         Storage.getPlayer (player_id p) (storage (regenTick w).2) = Some p'
         /\ (isOnline p = true ->
             health p'
             = Z.min (maxHealth p) (health p + JS.floor (JS.num (maxHealth p) * 0.01))
             /\ aura p'
                = Z.min (maxAura p) (aura p + JS.floor (JS.num (maxAura p) * 0.02)))
         /\ (isOnline p = false -> health p' = health p /\ aura p' = aura p)
         /\ level p' = level p
         /\ experience p' = experience p
         /\ rebirthCycle p' = rebirthCycle p
         /\ maxHealth p' = maxHealth p
         /\ maxAura p' = maxAura p
         /\ hiddenStrength p' = hiddenStrength p
         /\ hiddenAgility p' = hiddenAgility p
         /\ hiddenIntelligence p' = hiddenIntelligence p
         /\ hiddenEndurance p' = hiddenEndurance p
         /\ positionX p' = positionX p
         /\ positionY p' = positionY p
         /\ positionZ p' = positionZ p
         /\ username p' = username p
         /\ isOnline p' = isOnline p)
  /\ monsters (storage (regenTick w).2) = monsters (storage w)
  /\ lootItems (storage (regenTick w).2) = lootItems (storage w)
  /\ playerInventory (storage (regenTick w).2) = playerInventory (storage w)
  /\ worldLoot (storage (regenTick w).2) = worldLoot (storage w)
  /\ playerCooldowns (regenTick w).2 = playerCooldowns w.
Proof.
  intros Hkey. split; [|split; [|split; [|split; [|split]]]].
  - now apply regenTick_players.
  - rewrite regenTick_unfold. apply regenLoop_journal.
  - intros p Hp. rewrite <- regenChanges_iff. split.
    + intros (u & Hin). apply regenWrites_In in Hin as (q & Hq & Hon & Hch & Heq).
      injection Heq as Hid _.
      assert (p = q) as -> by (apply (keyed_unique player_id (players (storage w))); auto).
      easy.
    + intros [Hon Hch]. exists (regenUpdates p). apply regenWrites_In. now exists p.
  - intros x Hin. apply regenWrites_In in Hin as (p & Hp & Hon & _ & ->). now exists p.
  - intros p Hp. exists (regenerated p). split.
    + unfold Storage.getPlayer. rewrite (regenTick_players w Hkey).
      change (fun q => String.eqb (player_id q) (player_id p))
        with (hasKey player_id (player_id p)).
      rewrite (find_map_key player_id regenerated) by (intros q; apply regenerated_id).
      now rewrite (find_keyed_self player_id _ p Hkey Hp).
    + unfold regenerated. destruct (isOnline p) eqn:Hon; simpl; rewrite ?Hon;
        repeat split; try reflexivity; intros; discriminate.
  - rewrite regenTick_unfold. apply regenLoop_frame.
Qed.

Lemma regenerator_tick_witness :
  (exists p',
     Storage.getPlayer "hero" (storage (regenTick Sample.world).2) = Some p'
     /\ health p' = 3040 /\ aura p' = 540
     /\ maxHealth p' = 4000 /\ maxAura p' = 2000 /\ level p' = 60)
  /\ (exists p',
        Storage.getPlayer "elder" (storage (regenTick Sample.world).2) = Some p'
        /\ health p' = 3000 /\ aura p' = 3000)
  /\ journal (storage (regenTick Sample.world).2)
     = [UpdatePlayer "hero" (regenUpdates Sample.hero);
        UpdatePlayer "novice" (regenUpdates Sample.novice);
        UpdatePlayer "drained" (regenUpdates Sample.drained)].
Proof.
  pose proof (regenerator_tick Sample.world sample_keyed)
    as (_ & Hjournal & _ & _ & Hrows & _).
  split; [|split].
  - destruct (Hrows Sample.hero) as (p' & Hget & Hon & _ & Hl & _ & _ & Hmh & Hma & _);
      [simpl; tauto|].
    exists p'. split; [exact Hget|].
    destruct (Hon eq_refl) as [Hh Ha].
    rewrite Hh, Ha, Hmh, Hma, Hl. repeat split.
  - destruct (Hrows Sample.elder) as (p' & Hget & _ & Hoff & _); [simpl; tauto|].
    exists p'. split; [exact Hget|]. destruct (Hoff eq_refl) as [Hh Ha].
    rewrite Hh, Ha. split; reflexivity.
  - rewrite Hjournal. reflexivity.
Defined.

(** ** Ability use: the aura check and the missing target *)

Lemma getPlayer_updatePlayer id id' u d :
  Storage.getPlayer id' (Storage.updatePlayer id u d)
  = option_map (fun r => if String.eqb (player_id r) id then setPlayer u r else r)
               (Storage.getPlayer id' d).
Proof.
  exact (find_updateWhere player_id (setPlayer u) (setPlayer_id u) id id' (players d)).
Qed.

Lemma getPlayer_rewritten id id' u d d' :
  players d' = Storage.updateWhere player_id id (setPlayer u) (players d) ->
  Storage.getPlayer id' d'
  = option_map (fun r => if String.eqb (player_id r) id then setPlayer u r else r)
               (Storage.getPlayer id' d).
Proof.
  unfold Storage.getPlayer. intros ->.
  exact (find_updateWhere player_id (setPlayer u) (setPlayer_id u) id id' (players d)).
Qed.

Lemma getPlayer_id id d p : Storage.getPlayer id d = Some p -> player_id p = id.
Proof. intros H. now apply (find_hasKey_Some player_id) in H. Qed.

(** C2. When the player exists, the ability resolves, the level
    requirement is met and the player's aura is below the ability's aura
    cost, [useAbility] returns [success = false] with the message
    "Not enough aura" (which contains "enough aura") and the ability's
    aura cost, and leaves the whole state as it was: the player rows
    (aura included), the journal of storage writes (no update is
    issued) and the cooldown map (no cooldown is armed). *)
Theorem not_enough_aura (e : Env) (playerId abilityName : string)
    (targetId : option string) (w : World) (player : Player)
    (ability : AbilityDefinition) :
  Storage.getPlayer playerId (storage w) = Some player ->
  resolve abilityName = Some ability ->
  requiredLevel ability <= level player ->
  aura player < ability_auraCost ability ->
  success (useAbility e playerId abilityName targetId w).1 = false
  /\ message (useAbility e playerId abilityName targetId w).1 = "Not enough aura"
  /\ JS.includes "enough aura" (message (useAbility e playerId abilityName targetId w).1)
     = true
  /\ auraCost (useAbility e playerId abilityName targetId w).1 = ability_auraCost ability
  /\ (useAbility e playerId abilityName targetId w).2 = w.
Proof.
  intros Hp Ha Hl Hc.
  now rewrite (useAbility_short _ _ _ _ _ player ability).
Qed.

Lemma not_enough_aura_witness :
  success (useAbility (Sample.env 1000) "drained" "Stone Bullet" None Sample.world).1 = false
  /\ message (useAbility (Sample.env 1000) "drained" "Stone Bullet" None Sample.world).1
     = "Not enough aura"
  /\ JS.includes "enough aura"
       (message (useAbility (Sample.env 1000) "drained" "Stone Bullet" None Sample.world).1)
     = true
  /\ auraCost (useAbility (Sample.env 1000) "drained" "Stone Bullet" None Sample.world).1
     = ability_auraCost stone_bullet
  /\ (useAbility (Sample.env 1000) "drained" "Stone Bullet" None Sample.world).2
     = Sample.world.
Proof.
  apply (not_enough_aura (Sample.env 1000) "drained" "Stone Bullet" None Sample.world
           Sample.drained stone_bullet); [reflexivity | reflexivity | simpl; lia | simpl; lia].
Defined.

Lemma struck_afterCast e playerId abilityName player ability caster targetId w :
  struck caster targetId (afterCast e playerId abilityName player ability w)
  = struck caster targetId w.
Proof. reflexivity. Qed.

(** The monster [useAbility] strikes is the one [targetId] names: alive,
    in the zone of combat and within 50 of the player. *)
Lemma struck_Some player targetId w monster :
  struck player targetId w = Some monster ->
  exists target, targetId = Some target /\ target <> EmptyString
    /\ In monster (monsters (storage w))
    /\ monster_id monster = target
    /\ isAlive monster = true
    /\ monster_zone monster = "selha_latna"
    /\ isInRange player monster 50 = true.
Proof.
  unfold struck, truthy. destruct targetId as [target|]; [|easy].
  destruct (String.eqb_spec target EmptyString) as [->|Hne]; [easy|].
  assert (match target with EmptyString => None | _ => Some target end = Some target) as ->
    by now destruct target.
  unfold findNearbyMonster. run. intros Hf. apply find_some in Hf as [Hin Hm].
  apply List.filter_In in Hin as [Hin Hz].
  apply andb_true_iff in Hm as [Hid Hr]. apply andb_true_iff in Hz as [Hz Hal].
  apply String.eqb_eq in Hid, Hz. now exists target.
Qed.

Lemma struck_None player targetId w :
  (forall target monster,
     targetId = Some target -> In monster (monsters (storage w)) ->
     monster_id monster = target -> isAlive monster = true ->
     monster_zone monster = "selha_latna" -> isInRange player monster 50 = false) ->
  struck player targetId w = None.
Proof.
  intros H. destruct (struck player targetId w) as [monster|] eqn:Hs; [|easy].
  apply struck_Some in Hs as (target & Ht & _ & Hin & Hid & Hal & Hz & Hr).
  rewrite (H target monster) in Hr; easy.
Qed.

Lemma afterCast_armed e playerId abilityName player ability w :
  cooldownEnd playerId abilityName (afterCast e playerId abilityName player ability w)
  = Some (atArm e + cooldown ability).
Proof.
  unfold cooldownEnd, afterCast, setCooldown. simpl.
  rewrite lookup_insert_eq. now rewrite lookup_insert_eq.
Qed.

(** C10. When all five checks pass but [targetId] is absent, or names
    no monster that is alive, in the zone of combat and within 50 of the
    player, [useAbility] still succeeds and reports
    [ability.damage + floor(hiddenStrength * 0.1)]; the one write it
    issues takes the full aura cost from the player; the cooldown of
    (player, ability name) is armed for the full duration, from the
    instant [setCooldown] reads the clock; no monster row changes. *)
Theorem cast_without_target (e : Env) (playerId abilityName : string)
    (targetId : option string) (w : World) (player : Player)
    (ability : AbilityDefinition) :
  Storage.getPlayer playerId (storage w) = Some player ->
  resolve abilityName = Some ability ->
  requiredLevel ability <= level player ->
  ability_auraCost ability <= aura player ->
  isOnCooldown e playerId abilityName w = false ->
  (forall target monster,
     targetId = Some target -> In monster (monsters (storage w)) ->
     monster_id monster = target -> isAlive monster = true ->
     monster_zone monster = "selha_latna" -> isInRange player monster 50 = false) ->
  success (useAbility e playerId abilityName targetId w).1 = true
  /\ damage (useAbility e playerId abilityName targetId w).1
     = Some (ability_damage ability + JS.floor (JS.num (hiddenStrength player) * 0.1))
  /\ players (storage (useAbility e playerId abilityName targetId w).2)
     = Storage.updateWhere player_id playerId
         (setPlayer (auraSpent player ability)) (players (storage w))
  /\ option_map aura
       (Storage.getPlayer playerId (storage (useAbility e playerId abilityName targetId w).2))
     = Some (aura player - ability_auraCost ability)
  /\ journal (storage (useAbility e playerId abilityName targetId w).2)
     = (journal (storage w) ++ [UpdatePlayer playerId (auraSpent player ability)])%list
  /\ cooldownEnd playerId abilityName (useAbility e playerId abilityName targetId w).2
     = Some (atArm e + cooldown ability)
  /\ monsters (storage (useAbility e playerId abilityName targetId w).2)
     = monsters (storage w).
Proof.
  intros Hp Ha Hl Hc Hcd Hno.
  rewrite (useAbility_cast _ _ _ _ _ player ability) by assumption. simpl.
  rewrite struck_afterCast, (struck_None _ _ _ Hno).
  repeat split; try reflexivity.
  - rewrite afterCast_storage, getPlayer_updatePlayer, Hp. simpl.
    now rewrite (getPlayer_id _ _ _ Hp), String.eqb_refl.
  - apply afterCast_armed.
Qed.

Lemma cast_without_target_witness :
  success (useAbility (Sample.env 1000) "hero" "Stone Bullet" (Some "far") Sample.world).1
  = true
  /\ damage (useAbility (Sample.env 1000) "hero" "Stone Bullet" (Some "far") Sample.world).1
     = Some 150
  /\ cooldownEnd "hero" "Stone Bullet"
       (useAbility (Sample.env 1000) "hero" "Stone Bullet" (Some "far") Sample.world).2
     = Some 3000
  /\ monsters
       (storage (useAbility (Sample.env 1000) "hero" "Stone Bullet" (Some "far")
                   Sample.world).2)
     = monsters (storage Sample.world).
Proof.
  assert (forall target monster,
            Some "far" = Some target -> In monster (monsters (storage Sample.world)) ->
            monster_id monster = target -> isAlive monster = true ->
            monster_zone monster = "selha_latna" ->
            isInRange Sample.hero monster 50 = false) as Hfar.
  { intros target monster [= <-] [<-|[<-|[]]] Hid _ _; [discriminate Hid | reflexivity]. }
  pose proof (cast_without_target (Sample.env 1000) "hero" "Stone Bullet" (Some "far")
                Sample.world Sample.hero stone_bullet
                eq_refl eq_refl ltac:(simpl; lia) ltac:(simpl; lia) eq_refl Hfar)
    as (H1 & H2 & _ & _ & _ & H6 & H7).
  repeat split; assumption.
Defined.

(** ** Killing a monster *)

Lemma quiet_id : quiet (fun m => m).
Proof. now intros m. Qed.

Lemma quiet_updateWhere id u :
  set_isAlive u <> Some true ->
  quiet (fun m => if String.eqb (monster_id m) id then setMonster u m else m).
Proof.
  intros Hu m. destruct (String.eqb (monster_id m) id); [|easy].
  split; [easy|]. simpl. destruct (set_isAlive u) as [[]|]; simpl; congruence.
Qed.

Lemma quiet_compose g h : quiet g -> quiet h -> quiet (fun m => h (g m)).
Proof.
  intros Hg Hh m. destruct (Hg m) as [Hgi Hga], (Hh (g m)) as [Hhi Hha].
  split; [congruence | auto].
Qed.

Lemma slain_map id g d d' :
  quiet g -> monsters d' = List.map g (monsters d) -> slain id d -> slain id d'.
Proof.
  intros Hg Hm [Hin Hdead]. unfold slain. rewrite Hm. split.
  - rewrite List.map_map. apply in_map_iff in Hin as (m & Hid & Hin).
    apply in_map_iff. exists m. split; [|exact Hin]. destruct (Hg m). congruence.
  - intros m' Hin' Hid'. apply in_map_iff in Hin' as (m & <- & Hm').
    destruct (Hg m) as [Hgi Hga]. apply Hga, Hdead; congruence.
Qed.

Lemma slain_same id d d' : monsters d' = monsters d -> slain id d -> slain id d'.
Proof.
  intros Hm Hs. apply (slain_map id (fun m => m) d d'); [apply quiet_id | | exact Hs].
  now rewrite List.map_id.
Qed.

Lemma slain_insert id m d d' :
  monsters d' = (monsters d ++ [m])%list ->
  ~ In (monster_id m) (List.map monster_id (monsters d)) ->
  slain id d -> slain id d'.
Proof.
  intros Hm Hfresh [Hin Hdead]. unfold slain. rewrite Hm. split.
  - rewrite List.map_app. apply in_or_app. now left.
  - intros m' Hin' Hid'. apply in_app_or in Hin' as [Hin'|[<-|[]]]; [now apply Hdead|].
    exfalso. apply Hfresh. now rewrite Hid'.
Qed.

Lemma useAbility_monsters e playerId abilityName targetId w :
  exists g, quiet g
    /\ monsters (storage (useAbility e playerId abilityName targetId w).2)
       = List.map g (monsters (storage w)).
Proof.
  destruct (useAbility_cases e playerId abilityName targetId w)
    as [[_ ->]|(player & ability & Hp & Ha & Hl & Hc & Hcd)].
  - exists (fun m => m). split; [apply quiet_id | now rewrite List.map_id].
  - rewrite (useAbility_cast _ _ _ _ _ player ability) by assumption. simpl.
    destruct (struck _ _ _) as [monster|].
    + rewrite hitMonster_monsters. rewrite afterCast_storage. simpl.
      unfold Storage.updateWhere. destruct (_ <=? 0).
      * rewrite List.map_map. eexists. split; [|reflexivity].
        refine (quiet_compose _ _ (quiet_updateWhere (monster_id monster) _ _)
                  (quiet_updateWhere (monster_id monster) _ _)); easy.
      * eexists. split; [|reflexivity]. now apply quiet_updateWhere.
    + exists (fun m => m). split; [apply quiet_id | now rewrite List.map_id].
Qed.

Lemma spawnTick_monsters e w :
  monsters (storage (spawnTick e w).2) = monsters (storage w)
  \/ exists m, monster_id m = uuid e 0
       /\ monsters (storage (spawnTick e w).2) = (monsters (storage w) ++ [m])%list.
Proof.
  unfold spawnTick, spawnMonster. run.
  destruct (0 <? _); [|now left]. simpl.
  destruct (_ <? _); [|now left]. simpl.
  right. eexists. split; [|reflexivity]. reflexivity.
Qed.

Lemma rebirth_monsters playerId w :
  monsters (storage (Routes.rebirth playerId w).2) = monsters (storage w).
Proof.
  unfold Routes.rebirth, Storage.performRebirth. run.
  destruct (Storage.getPlayer playerId (storage w)) as [player|]; [|easy].
  destruct (level player <? 100); [easy|].
  destruct (Storage.getPlayer (player_id player) (storage w)); [|easy].
  now destruct (Storage.getPlayer _ _).
Qed.

Lemma collect_monsters e errorMessage playerId lootId w :
  monsters (storage (Routes.collect e errorMessage playerId lootId w).2) = monsters (storage w).
Proof.
  unfold Routes.collect, Storage.collectWorldLoot, Storage.addToInventory.
  destruct (List.find _ (worldLoot _)); [|easy].
  destruct (List.find _ (playerInventory _)); [easy|].
  now destruct (_ && _).
Qed.

(** A dead monster stays dead, whatever the system does next. *)
Lemma step_slain id w w' : step w w' -> slain id (storage w) -> slain id (storage w').
Proof.
  intros Hstep Hs. destruct Hstep as [e p a t w|e w Hfresh|w|e w|p w|e msg p l w].
  - destruct (useAbility_monsters e p a t w) as (g & Hg & Hm).
    now apply (slain_map id g (storage w)).
  - destruct (spawnTick_monsters e w) as [Hm|(m & Hid & Hm)].
    + now apply (slain_same id (storage w)).
    + apply (slain_insert id m (storage w)); [exact Hm| |exact Hs].
      rewrite Hid. now rewrite list_elem_of_In in Hfresh.
  - apply (slain_same id (storage w)); [|exact Hs].
    rewrite regenTick_unfold. apply regenLoop_frame.
  - now apply (slain_same id (storage w)).
  - apply (slain_same id (storage w)); [apply rebirth_monsters | exact Hs].
  - apply (slain_same id (storage w)); [apply collect_monsters | exact Hs].
Qed.

Lemma reachable_slain id w w' :
  reachable w w' -> slain id (storage w) -> slain id (storage w').
Proof.
  induction 1 as [|w1 w2 w3 Hstep _ IH]; [easy|].
  intros Hs. apply IH. now apply (step_slain id w1).
Qed.

Lemma slain_excluded id zone d m :
  slain id d -> In m (Storage.getMonstersInZone zone d) -> monster_id m <> id.
Proof.
  intros [_ Hdead] Hin Hid. apply List.filter_In in Hin as [Hin Hz].
  apply andb_true_iff in Hz as [_ Hal]. rewrite (Hdead m Hin Hid) in Hal. discriminate.
Qed.

(** C4. When [useAbility] passes its checks, strikes the monster its
    [targetId] names (alive, in the zone of combat, within 50) and the
    damage is at least the monster's health, then the call succeeds;
    every row of that monster has health 0 and [isAlive = false]; no
    result of [getMonstersInZone], in the state reached or in any state
    the system reaches from it, contains the monster; and the player's
    experience has grown by
    [floor(monsterLevel * 10 * (1 + playerRebirthCycle * 0.1))]. *)
Theorem kill_soft_deletes (e : Env) (playerId abilityName : string)
    (targetId : option string) (w : World) (player : Player)
    (ability : AbilityDefinition) (monster : Monster) :
  Storage.getPlayer playerId (storage w) = Some player ->
  resolve abilityName = Some ability ->
  requiredLevel ability <= level player ->
  ability_auraCost ability <= aura player ->
  isOnCooldown e playerId abilityName w = false ->
  struck player targetId w = Some monster ->
  monster_health monster
  <= ability_damage ability + JS.floor (JS.num (hiddenStrength player) * 0.1) ->
  success (useAbility e playerId abilityName targetId w).1 = true
  /\ (forall m,
        In m (monsters (storage (useAbility e playerId abilityName targetId w).2)) ->
        monster_id m = monster_id monster ->
        isAlive m = false /\ monster_health m = 0)
  /\ (forall w' zone m,
        reachable (useAbility e playerId abilityName targetId w).2 w' ->
        In m (Storage.getMonstersInZone zone (storage w')) ->
        monster_id m <> monster_id monster)
  /\ option_map experience
       (Storage.getPlayer playerId (storage (useAbility e playerId abilityName targetId w).2))
     = Some (experience player
             + JS.floor (JS.num (monster_level monster) * 10
                         * (1 + JS.num (rebirthCycle player) * 0.1))).
Proof.
  intros Hp Ha Hl Hc Hcd Hs Hdmg.
  rewrite (useAbility_cast _ _ _ _ _ player ability) by assumption. simpl.
  rewrite struck_afterCast, Hs.
  set (w1 := afterCast e playerId abilityName player ability w).
  set (w2 := (hitMonster e player monster (totalDamageOf ability player) w1).2).
  assert (hits monster (totalDamageOf ability player) = 0) as Hzero
    by (unfold hits, totalDamageOf; lia).
  assert (monsters (storage w2)
          = Storage.updateWhere monster_id (monster_id monster)
              (setMonster (mkMonsterUpdates None (Some false)))
              (Storage.updateWhere monster_id (monster_id monster)
                 (setMonster (mkMonsterUpdates (Some 0) None)) (monsters (storage w))))
    as Hm2 by (unfold w2; rewrite hitMonster_monsters, Hzero; reflexivity).
  apply struck_Some in Hs as (target & _ & _ & Hin & _).
  assert (forall m, In m (monsters (storage w2)) -> monster_id m = monster_id monster ->
                    isAlive m = false /\ monster_health m = 0) as Hdead.
  { intros m. rewrite Hm2. unfold Storage.updateWhere. rewrite List.map_map.
    intros Hm Hid. apply in_map_iff in Hm as (m0 & <- & _).
    destruct (String.eqb_spec (monster_id m0) (monster_id monster)) as [Hk|Hk].
    - simpl. now rewrite Hk, String.eqb_refl.
    - rewrite (proj2 (String.eqb_neq _ _) Hk) in Hid |- *. contradiction. }
  assert (slain (monster_id monster) (storage w2)) as Hslain.
  { split; [|intros m Hm Hid; now apply Hdead].
    rewrite Hm2, !(updateWhere_keys monster_id _ (setMonster_id _)).
    now apply in_map. }
  repeat split.
  - now apply Hdead.
  - now apply Hdead.
  - intros w' zone m Hreach. apply slain_excluded.
    now apply (reachable_slain _ w2).
  - rewrite (getPlayer_rewritten (player_id player) playerId
               (awardUpdates player (expGainOf monster player)) (storage w1))
      by (unfold w2; now rewrite hitMonster_players, Hzero).
    unfold w1. rewrite afterCast_storage, getPlayer_updatePlayer, Hp. simpl.
    rewrite (getPlayer_id _ _ _ Hp), !String.eqb_refl. simpl.
    rewrite (getPlayer_id _ _ _ Hp), String.eqb_refl.
    unfold awardUpdates, expGainOf. now destruct (_ && _).
Qed.

Lemma kill_soft_deletes_witness :
  success (useAbility (Sample.env 1000) "hero" "ground_dig_up" (Some "golem")
             Sample.world).1 = true
  /\ (forall m,
        In m (monsters (storage (useAbility (Sample.env 1000) "hero" "ground_dig_up"
                                   (Some "golem") Sample.world).2)) ->
        monster_id m = "golem" -> isAlive m = false /\ monster_health m = 0)
  /\ option_map experience
       (Storage.getPlayer "hero"
          (storage (useAbility (Sample.env 1000) "hero" "ground_dig_up" (Some "golem")
                      Sample.world).2))
     = Some 6100.
Proof.
  destruct (kill_soft_deletes (Sample.env 1000) "hero" "ground_dig_up" (Some "golem")
              Sample.world Sample.hero ground_dig_up Sample.golem)
    as (H1 & H2 & _ & H4);
    [reflexivity | reflexivity | simpl; lia | simpl; lia | reflexivity | reflexivity
    | vm_compute; discriminate | ].
  split; [exact H1 | split; [exact H2 | exact H4]].
Defined.

(** ** Cooldowns *)

Lemma isOnCooldown_armed e playerId abilityName w t :
  cooldownEnd playerId abilityName w = Some t -> t <> 0 -> atCheck e < t ->
  isOnCooldown e playerId abilityName w = true
  /\ getRemainingCooldown e playerId abilityName w = Z.max 0 (t - atRemaining e).
Proof.
  unfold cooldownEnd, isOnCooldown, getRemainingCooldown.
  destruct (playerCooldowns w !! playerId) as [m|]; [|easy].
  intros -> Hne Hlt. destruct (Z.eqb_spec t 0); [easy|].
  split; [now apply Z.ltb_lt | easy].
Qed.

(** A successful [useAbility] has passed the five checks, has armed the
    cooldown, and leaves the player in the table, at a level no lower
    than before. *)
Lemma useAbility_success e playerId abilityName targetId w :
  success (useAbility e playerId abilityName targetId w).1 = true ->
  exists player ability player',
    Storage.getPlayer playerId (storage w) = Some player
    /\ resolve abilityName = Some ability
    /\ requiredLevel ability <= level player
    /\ cooldownEnd playerId abilityName (useAbility e playerId abilityName targetId w).2
       = Some (atArm e + cooldown ability)
    /\ Storage.getPlayer playerId (storage (useAbility e playerId abilityName targetId w).2)
       = Some player'
    /\ level player <= level player'.
Proof.
  destruct (useAbility_cases e playerId abilityName targetId w)
    as [[-> _]|(player & ability & Hp & Ha & Hl & Hc & Hcd)]; [easy|].
  intros _. rewrite (useAbility_cast _ _ _ _ _ player ability) by assumption. simpl.
  set (w1 := afterCast e playerId abilityName player ability w).
  assert (Storage.getPlayer playerId (storage w1)
          = Some (setPlayer (auraSpent player ability) player)) as Hp1.
  { unfold w1. rewrite afterCast_storage, getPlayer_updatePlayer, Hp. simpl.
    now rewrite (getPlayer_id _ _ _ Hp), String.eqb_refl. }
  exists player, ability.
  destruct (struck player targetId w1) as [monster|].
  - set (w2 := (hitMonster e player monster (totalDamageOf ability player) w1).2).
    assert (cooldownEnd playerId abilityName w2 = Some (atArm e + cooldown ability)) as Hcd2.
    { unfold cooldownEnd, w2. rewrite hitMonster_cooldowns. apply afterCast_armed. }
    pose proof (hitMonster_players e player monster (totalDamageOf ability player) w1)
      as Hpl. fold w2 in Hpl.
    destruct (hits monster (totalDamageOf ability player) <=? 0).
    + eexists. repeat split; try eassumption.
      * rewrite (getPlayer_rewritten _ playerId _ _ _ Hpl), Hp1. simpl.
        rewrite (getPlayer_id _ _ _ Hp), String.eqb_refl. reflexivity.
      * unfold awardUpdates.
        destruct (Z.ltb_spec (level player)
                    (newLevelOf (experience player + expGainOf monster player)));
          destruct (_ <=? 100); simpl; lia.
    + exists (setPlayer (auraSpent player ability) player).
      repeat split; try assumption; [|simpl; lia].
      unfold Storage.getPlayer in *. now rewrite Hpl.
  - exists (setPlayer (auraSpent player ability) player).
    repeat split; try assumption; [apply afterCast_armed | simpl; lia].
Qed.

(** C5, as the code has it. When [useAbility] succeeds, arming the
    cooldown at an instant not before [t >= 0], a second call by the
    same player under the same ability name that starts once the first
    has returned, and so checks the cooldown at a [t'] not before the
    arming, with [t' - t] below the ability's cooldown, returns
    [success = false] and changes nothing: at most one of the two
    succeeds. Its message is the on-cooldown one, with the time
    remaining, when the player still has the aura the ability costs; it
    is "Not enough aura" when not, as the aura is checked before the
    cooldown. *)
Theorem cooldown_blocks_reuse (e1 e2 : Env) (playerId abilityName : string)
    (target1 target2 : option string) (w : World) (ability : AbilityDefinition) (t : Z) :
  resolve abilityName = Some ability ->
  success (useAbility e1 playerId abilityName target1 w).1 = true ->
  0 <= t <= atArm e1 ->
  atArm e1 <= atCheck e2 ->
  atCheck e2 - t < cooldown ability ->
  let w1 := (useAbility e1 playerId abilityName target1 w).2 in
  let second := useAbility e2 playerId abilityName target2 w1 in
  let onCooldown :=
    "Ability on cooldown ("
    ++ JS.show (Z.max 0 (atArm e1 + cooldown ability - atRemaining e2))
    ++ "ms remaining)" in
  success second.1 = false
  /\ second.2 = w1
  /\ (message second.1 = onCooldown \/ message second.1 = "Not enough aura")
  /\ (forall player1,
        Storage.getPlayer playerId (storage w1) = Some player1 ->
        (ability_auraCost ability <= aura player1 -> message second.1 = onCooldown)
        /\ (aura player1 < ability_auraCost ability ->
            message second.1 = "Not enough aura")).
Proof.
  intros Ha Hok Ht Hafter Hwin. simpl.
  destruct (useAbility_success _ _ _ _ _ Hok)
    as (player & ability' & player1 & Hp & Ha' & Hl & Hcd & Hp1 & Hlevel).
  assert (ability' = ability) as -> by congruence.
  destruct (resolve_positive _ _ Ha) as [_ Hpos].
  set (w1 := (useAbility e1 playerId abilityName target1 w).2) in *.
  destruct (isOnCooldown_armed e2 playerId abilityName w1 _ Hcd) as [Hon Hrem]; [lia..|].
  destruct (Z.lt_ge_cases (aura player1) (ability_auraCost ability)).
  - rewrite (useAbility_short _ _ _ _ _ player1 ability) by (auto; lia). simpl.
    split; [easy|]. split; [easy|]. split; [now right|].
    intros p Hp'. rewrite Hp1 in Hp'. injection Hp' as <-. split; [lia | easy].
  - rewrite (useAbility_blocked _ _ _ _ _ player1 ability) by (auto; lia).
    rewrite Hrem. simpl.
    split; [easy|]. split; [easy|]. split; [now left|].
    intros p Hp'. rewrite Hp1 in Hp'. injection Hp' as <-. split; [easy | lia].
Qed.

Lemma cooldown_blocks_reuse_witness :
  success (useAbility (Sample.env 2500) "hero" "stone_bullet" None
             (useAbility (Sample.env 1000) "hero" "stone_bullet" None Sample.world).2).1
  = false
  /\ (useAbility (Sample.env 2500) "hero" "stone_bullet" None
        (useAbility (Sample.env 1000) "hero" "stone_bullet" None Sample.world).2).2
     = (useAbility (Sample.env 1000) "hero" "stone_bullet" None Sample.world).2.
Proof.
  destruct (cooldown_blocks_reuse (Sample.env 1000) (Sample.env 2500) "hero" "stone_bullet"
              None None Sample.world stone_bullet 1000)
    as (H1 & H2 & _);
    [reflexivity | reflexivity | simpl; lia | simpl; lia | simpl; lia | ].
  split; assumption.
Defined.

(** C5 as the specification words it fails: the novice has 60 aura, a
    Stone Bullet costs 50; the first use at 1000 succeeds, and the second
    at 1500, inside the 2000 ms of cooldown, is refused for its aura:
    its message is not the on-cooldown one. *)
Lemma cooldown_message_counterexample :
  success (useAbility (Sample.env 1000) "novice" "stone_bullet" None Sample.world).1 = true
  /\ (atCheck (Sample.env 1500) - atArm (Sample.env 1000) <? cooldown stone_bullet) = true
  /\ success (useAbility (Sample.env 1500) "novice" "stone_bullet" None
                (useAbility (Sample.env 1000) "novice" "stone_bullet" None
                   Sample.world).2).1 = false
  /\ message (useAbility (Sample.env 1500) "novice" "stone_bullet" None
                (useAbility (Sample.env 1000) "novice" "stone_bullet" None
                   Sample.world).2).1 = "Not enough aura"
  /\ JS.includes "cooldown"
       (message (useAbility (Sample.env 1500) "novice" "stone_bullet" None
                   (useAbility (Sample.env 1000) "novice" "stone_bullet" None
                      Sample.world).2).1) = false.
Proof. vm_compute. repeat split. Qed.

(** The cooldown is checked before the aura is written and armed after
    it: a call that starts while another is between the two finds no
    cooldown, and succeeds. The property above is about calls that do
    not overlap. *)
Example cooldown_armed_after_write :
  success (useAbility (Sample.env 1000) "hero" "stone_bullet" None Sample.world).1 = true
  /\ storage (useAbility (Sample.env 1000) "hero" "stone_bullet" None Sample.world).2
     = storage (Sample.spent stone_bullet)
  /\ success (useAbility (Sample.env 1001) "hero" "stone_bullet" None
                (Sample.spent stone_bullet)).1 = true.
Proof. vm_compute. repeat split. Qed.

(** The cooldown is stored under the name as the caller spelled it,
    while the catalog is looked up under the normalized name: the same
    ability under another spelling is not on cooldown. *)
Example cooldown_keyed_by_spelling :
  success (useAbility (Sample.env 1000) "hero" "stone_bullet" None Sample.world).1 = true
  /\ success (useAbility (Sample.env 1500) "hero" "Stone Bullet" None
                (useAbility (Sample.env 1000) "hero" "stone_bullet" None
                   Sample.world).2).1 = true
  /\ resolve "Stone Bullet" = resolve "stone_bullet".
Proof. vm_compute. repeat split. Qed.

(** ** Experience and levels *)

(** C3 as the specification words it fails: the veteran is at level 99
    with experience 9850; an award of 500 gives experience 10350, for
    which [floor(newExperience / 100) + 1 = 104], capped at 100 gives
    100; the level stays 99. *)
Lemma level_cap_counterexample :
  option_map experience
    (Storage.getPlayer "veteran"
       (storage (awardExperience Sample.veteran 500 Sample.world).2)) = Some 10350
  /\ Z.min 100 (JS.floor (JS.num 10350 / 100) + 1) = 100
  /\ option_map level
       (Storage.getPlayer "veteran"
          (storage (awardExperience Sample.veteran 500 Sample.world).2)) = Some 99.
Proof. vm_compute. repeat split. Qed.

(** C3, as the code has it. [awardExperience] is given a snapshot
    [player] and rewrites the row [row] the table has under the
    snapshot's id; in [useAbility] the two differ, the aura having been
    spent in between. It sets the experience to
    [newExperience = experience + exp], the experience being the
    snapshot's. With [newLevel = floor(newExperience / 100) + 1]: when
    [newLevel] is above the snapshot's level and at most 100, the level
    becomes [newLevel], [maxHealth] becomes [1000 + newLevel * 50],
    [maxAura] becomes [500 + newLevel * 25], and health and aura are
    restored to those maxima; otherwise level, health, aura and their
    maxima stay as the row has them. So the level of the row changes
    only in the first case, and every change of it comes with the new
    maxima and the full restore. *)
Theorem award_experience_levels (player row : Player) (exp : Z) (w : World) :
  Storage.getPlayer (player_id player) (storage w) = Some row ->
  let newExperience := experience player + exp in
  let newLevel := JS.floor (JS.num newExperience / 100) + 1 in
  exists player',
    Storage.getPlayer (player_id player) (storage (awardExperience player exp w).2)
    = Some player'
    /\ experience player' = newExperience
    /\ (level player < newLevel <= 100 ->
        level player' = newLevel
        /\ maxHealth player' = 1000 + newLevel * 50
        /\ maxAura player' = 500 + newLevel * 25
        /\ health player' = maxHealth player'
        /\ aura player' = maxAura player')
    /\ (~ level player < newLevel <= 100 ->
        level player' = level row
        /\ maxHealth player' = maxHealth row
        /\ maxAura player' = maxAura row
        /\ health player' = health row
        /\ aura player' = aura row)
    /\ (level player' <> level row ->
        level player < newLevel <= 100
        /\ level player' = newLevel
        /\ maxHealth player' = 1000 + level player' * 50
        /\ maxAura player' = 500 + level player' * 25
        /\ health player' = maxHealth player'
        /\ aura player' = maxAura player').
Proof.
  intros Hp. simpl. exists (setPlayer (awardUpdates player exp) row). split.
  - unfold awardExperience. run. rewrite getPlayer_updatePlayer, Hp. simpl.
    now rewrite (getPlayer_id _ _ _ Hp), String.eqb_refl.
  - unfold awardUpdates, newLevelOf.
    destruct (Z.ltb_spec (level player) (JS.floor (JS.num (experience player + exp) / 100) + 1));
      destruct (Z.leb_spec (JS.floor (JS.num (experience player + exp) / 100) + 1) 100);
      simpl; repeat split; intros; lia.
Qed.

Lemma award_experience_levels_witness :
  (exists player',
     Storage.getPlayer "hero"
       (storage (awardExperience Sample.hero 200 (Sample.spent ground_dig_up)).2)
     = Some player'
     /\ experience player' = 6100
     /\ level player' = 62
     /\ maxHealth player' = 4100
     /\ maxAura player' = 2050
     /\ health player' = 4100
     /\ aura player' = 2050)
  /\ (exists player',
        Storage.getPlayer "hero"
          (storage (awardExperience Sample.hero 20 (Sample.spent ground_dig_up)).2)
        = Some player'
        /\ experience player' = 5920
        /\ level player' = 60
        /\ health player' = 3000
        /\ aura player' = 400).
Proof.
  split.
  - destruct (award_experience_levels Sample.hero
                (setPlayer (auraSpent Sample.hero ground_dig_up) Sample.hero) 200
                (Sample.spent ground_dig_up) eq_refl)
      as (player' & Hp & He & Hup & _).
    exists player'. split; [exact Hp|]. split; [exact He|].
    destruct Hup as (Hl & Hmh & Hma & Hh & Ha);
      [vm_compute; split; [reflexivity | discriminate]|].
    rewrite Hh, Ha, Hmh, Hma, Hl. repeat split.
  - destruct (award_experience_levels Sample.hero
                (setPlayer (auraSpent Sample.hero ground_dig_up) Sample.hero) 20
                (Sample.spent ground_dig_up) eq_refl)
      as (player' & Hp & He & _ & Hstay & _).
    exists player'. split; [exact Hp|]. split; [exact He|].
    destruct Hstay as (Hl & _ & _ & Hh & Ha);
      [vm_compute; intros [H _]; discriminate|].
    rewrite Hl, Hh, Ha. repeat split.
Defined.

(** ** Rebirth *)

(** C6. The rebirth endpoint, for a player of the table: below level
    100 it answers 400 and changes nothing; from level 100 on it answers
    with the reborn player, now the row of that identifier, whose level
    is 1, experience 0, rebirth cycle one more, health and [maxHealth]
    1000, aura and [maxAura] 500, whose four hidden stats have each
    grown by [floor(oldLevel * 10)], and whose other fields are as
    before. *)
Theorem rebirth_rules (playerId : string) (w : World) (player : Player) :
  Storage.getPlayer playerId (storage w) = Some player ->
  (level player < 100 ->
   Routes.rebirth playerId w
   = ((Routes.Status 400 "Must reach level 100 to rebirth", []), w))
  /\ (100 <= level player ->
      exists reborn,
        (Routes.rebirth playerId w).1
        = (Routes.Json reborn, [Routes.player_rebirth playerId (rebirthCycle player + 1)])
        /\ Storage.getPlayer playerId (storage (Routes.rebirth playerId w).2) = Some reborn
        /\ level reborn = 1
        /\ experience reborn = 0
        /\ rebirthCycle reborn = rebirthCycle player + 1
        /\ health reborn = 1000 /\ maxHealth reborn = 1000
        /\ aura reborn = 500 /\ maxAura reborn = 500
        /\ hiddenStrength reborn
           = hiddenStrength player + JS.floor (JS.num (level player) * 10)
        /\ hiddenAgility reborn
           = hiddenAgility player + JS.floor (JS.num (level player) * 10)
        /\ hiddenIntelligence reborn
           = hiddenIntelligence player + JS.floor (JS.num (level player) * 10)
        /\ hiddenEndurance reborn
           = hiddenEndurance player + JS.floor (JS.num (level player) * 10)
        /\ reborn = setPlayer (Storage.rebirthUpdates player) player).
Proof.
  intros Hp. pose proof (getPlayer_id _ _ _ Hp) as Hid. split; intros Hl.
  - unfold Routes.rebirth. run. rewrite Hp.
    now destruct (Z.ltb_spec (level player) 100); [|lia].
  - exists (setPlayer (Storage.rebirthUpdates player) player).
    unfold Routes.rebirth, Storage.performRebirth. run. rewrite Hp.
    destruct (Z.ltb_spec (level player) 100); [lia|].
    rewrite Hid, Hp, getPlayer_updatePlayer, Hp. simpl.
    rewrite Hid, String.eqb_refl. simpl.
    rewrite getPlayer_updatePlayer, Hp. simpl. rewrite Hid, String.eqb_refl.
    repeat split.
Qed.

Lemma rebirth_rules_witness :
  Routes.rebirth "hero" Sample.world
  = ((Routes.Status 400 "Must reach level 100 to rebirth", []), Sample.world)
  /\ exists reborn,
       (Routes.rebirth "elder" Sample.world).1
       = (Routes.Json reborn, [Routes.player_rebirth "elder" 1])
       /\ level reborn = 1 /\ rebirthCycle reborn = 1 /\ hiddenStrength reborn = 1000.
Proof.
  split.
  - apply (rebirth_rules "hero" Sample.world Sample.hero eq_refl). simpl. lia.
  - destruct (proj2 (rebirth_rules "elder" Sample.world Sample.elder eq_refl))
      as (reborn & Hr & _ & Hl & _ & Hc & _ & _ & _ & _ & Hs & _); [simpl; lia|].
    exists reborn. repeat split; assumption.
Defined.

(** ** Collecting world loot *)

(** C7. When every [world_loot] row that [lootId] names has expired
    ([expiresAt <= now]), [collectWorldLoot] returns [false] and the
    database is as it was: no inventory row is added or changed, no
    world-loot row is deleted, no statement that writes is issued. *)
Theorem collect_expired (newId : string) (now : Z) (playerId lootId : string) (d : Db) :
  (forall l, In l (worldLoot d) -> loot_id l = lootId ->
             exists t, expiresAt l = Some t /\ t <= now) ->
  Storage.collectWorldLoot newId now playerId lootId d = Some (false, d).
Proof.
  intros Hexp. unfold Storage.collectWorldLoot.
  destruct (List.find _ (worldLoot d)) as [loot|] eqn:Hf; [|easy].
  apply find_some in Hf as [Hin Hl]. apply andb_true_iff in Hl as [Hid Hlater].
  apply String.eqb_eq in Hid. destruct (Hexp loot Hin Hid) as (t & Ht & Hle).
  rewrite Ht in Hlater. simpl in Hlater. apply Z.ltb_lt in Hlater. lia.
Qed.

Lemma collect_expired_witness :
  Storage.collectWorldLoot "new0" 300000 "hero" "loot" Sample.db = Some (false, Sample.db).
Proof.
  apply (collect_expired "new0" 300000 "hero" "loot" Sample.db).
  intros l [<-|[]] _. exists 300000. split; [reflexivity | lia].
Defined.

(** ** Resolving an ability name *)

Lemma lower_space c : Ascii.eqb (JS.lower c) " " = Ascii.eqb c " ".
Proof. destruct c as [[] [] [] [] [] [] [] []]; reflexivity. Qed.

Lemma spaces_toLowerCase s : Spec.spaces (JS.toLowerCase s) = Spec.spaces s.
Proof.
  induction s as [|c r IH]; simpl; [easy|]. now rewrite lower_space, IH.
Qed.

Lemma replaceAll_none s : Spec.spaces s = 0%nat -> Spec.replaceAll " " "_" s = s.
Proof.
  induction s as [|c r IH]; simpl; [easy|].
  destruct (Ascii.eqb c " "); [easy|]. intros H. now rewrite IH.
Qed.

(** With at most one space, replacing the first space is replacing
    every space. *)
Lemma replace_first_is_all s :
  (Spec.spaces s <= 1)%nat -> JS.replace " " "_" s = Spec.replaceAll " " "_" s.
Proof.
  induction s as [|c r IH]; simpl; [easy|].
  destruct (Ascii.eqb c " ").
  - intros H. rewrite replaceAll_none; [easy | lia].
  - intros H. now rewrite IH.
Qed.

(** C9 as the specification words it fails: the display name of the
    third ability, "Ground Dig-Up", does not resolve, while its wire
    identifier [ground_dig_up] does; lowercasing and replacing spaces
    leaves the hyphen. *)
Lemma display_name_counterexample :
  resolve "ground_dig_up" = Some ground_dig_up
  /\ name ground_dig_up = "Ground Dig-Up"
  /\ Spec.normalize "Ground Dig-Up" = "ground_dig-up"
  /\ resolve "Ground Dig-Up" = None.
Proof. vm_compute. repeat split. Qed.

(** Past the first space nothing is replaced. *)
Example only_first_space_replaced :
  Spec.normalize "ground dig up" = Spec.normalize "ground_dig_up"
  /\ resolve "ground_dig_up" = Some ground_dig_up
  /\ resolve "ground dig up" = None.
Proof. vm_compute. repeat split. Qed.

(** C9, as the code has it. For names with at most one space,
    resolution is the lookup of the name lowercased with its space
    replaced by an underscore, so two such names equal after that
    normalization resolve to the same result; the display name and the
    wire identifier resolve to the same definition for Stone Bullet,
    Wind Manipulation and Aura Release; of Ground Dig-Up the wire
    identifier resolves and the display name, with its hyphen, does
    not. *)
Theorem catalog_resolution (a b : string) :
  (Spec.spaces a <= 1)%nat ->
  (Spec.spaces b <= 1)%nat ->
  resolve a = abilities !! Spec.normalize a
  /\ (Spec.normalize a = Spec.normalize b -> resolve a = resolve b)
  /\ resolve "Stone Bullet" = Some stone_bullet
  /\ resolve "stone_bullet" = Some stone_bullet
  /\ resolve "Wind Manipulation" = Some wind_manipulation
  /\ resolve "wind_manipulation" = Some wind_manipulation
  /\ resolve "Aura Release" = Some aura_release
  /\ resolve "aura_release" = Some aura_release
  /\ resolve "ground_dig_up" = Some ground_dig_up
  /\ resolve "Ground Dig-Up" = None.
Proof.
  intros Ha Hb.
  assert (forall s, (Spec.spaces s <= 1)%nat -> resolve s = abilities !! Spec.normalize s)
    as Hres.
  { intros s Hs. unfold resolve, Spec.normalize.
    now rewrite replace_first_is_all by now rewrite spaces_toLowerCase. }
  split; [now apply Hres|]. split.
  - intros Heq. now rewrite !Hres, Heq.
  - vm_compute. repeat split.
Qed.

Lemma catalog_resolution_witness :
  resolve "Stone Bullet" = abilities !! Spec.normalize "Stone Bullet"
  /\ (Spec.normalize "Stone Bullet" = Spec.normalize "stone_bullet" ->
      resolve "Stone Bullet" = resolve "stone_bullet").
Proof.
  destruct (catalog_resolution "Stone Bullet" "stone_bullet") as (H1 & H2 & _);
    [simpl; lia | simpl; lia | ].
  split; assumption.
Defined.

(** ** The player invariant along runs *)

Lemma useAbility_player_ids e playerId abilityName targetId w :
  List.map player_id (players (storage (useAbility e playerId abilityName targetId w).2))
  = List.map player_id (players (storage w)).
Proof.
  destruct (useAbility_cases e playerId abilityName targetId w)
    as [[_ ->]|(player & ability & Hp & Ha & Hl & Hc & Hcd)]; [easy|].
  rewrite (useAbility_cast _ _ _ _ _ player ability) by assumption. simpl.
  assert (List.map player_id
            (players (storage (afterCast e playerId abilityName player ability w)))
          = List.map player_id (players (storage w))) as Hpaid
    by (rewrite afterCast_storage; apply updateWhere_keys, setPlayer_id).
  destruct (struck _ _ _) as [monster|]; [|exact Hpaid].
  rewrite hitMonster_players. destruct (_ <=? 0); [|exact Hpaid].
  rewrite updateWhere_keys by apply setPlayer_id. exact Hpaid.
Qed.

Lemma spawnTick_players e w :
  players (storage (spawnTick e w).2) = players (storage w).
Proof.
  unfold spawnTick, spawnMonster. run.
  destruct (0 <? _); [|easy]. simpl. now destruct (_ <? _).
Qed.

Lemma collect_players e errorMessage playerId lootId w :
  players (storage (Routes.collect e errorMessage playerId lootId w).2) = players (storage w).
Proof.
  unfold Routes.collect, Storage.collectWorldLoot, Storage.addToInventory.
  destruct (List.find _ (worldLoot _)); [|easy].
  destruct (List.find _ (playerInventory _)); [easy|].
  now destruct (_ && _).
Qed.

Lemma rebirth_players playerId w :
  players (storage (Routes.rebirth playerId w).2) = players (storage w)
  \/ exists player,
       players (storage (Routes.rebirth playerId w).2)
       = Storage.updateWhere player_id (player_id player)
           (setPlayer (Storage.rebirthUpdates player)) (players (storage w)).
Proof.
  unfold Routes.rebirth, Storage.performRebirth. run.
  destruct (Storage.getPlayer playerId (storage w)) as [player|]; [|now left].
  destruct (level player <? 100); [now left|].
  destruct (Storage.getPlayer (player_id player) (storage w)) as [player2|] eqn:Hp2;
    [|now left].
  right. exists player2. rewrite (getPlayer_id _ _ _ Hp2).
  destruct (Storage.getPlayer _ (Storage.updatePlayer _ _ _)); reflexivity.
Qed.

Lemma rebirth_invariant player q :
  playerInvariant (setPlayer (Storage.rebirthUpdates player) q).
Proof. unfold playerInvariant, withinBounds. simpl. lia. Qed.

(** The primary key and the player invariant are kept by every
    operation of the core. *)
Lemma step_invariant w w' :
  step w w' ->
  playersKeyed (storage w) /\ Forall playerInvariant (players (storage w)) ->
  playersKeyed (storage w') /\ Forall playerInvariant (players (storage w')).
Proof.
  unfold playersKeyed. intros Hstep [Hkey Hinv].
  destruct Hstep as [e p a t w|e w Hfresh|w|e w|p w|e msg p l w].
  - rewrite useAbility_player_ids. split; [exact Hkey | now apply useAbility_invariant].
  - now rewrite spawnTick_players.
  - split; [|now apply regenTick_invariant].
    rewrite regenTick_players by exact Hkey. rewrite List.map_map.
    erewrite List.map_ext; [exact Hkey|]. intros q. unfold regenerated.
    now destruct (isOnline q).
  - easy.
  - destruct (rebirth_players p w) as [->|(player & ->)]; [easy|].
    rewrite updateWhere_keys by apply setPlayer_id. split; [exact Hkey|].
    apply updateWhere_Forall; [exact Hinv|]. intros q _ _. apply rebirth_invariant.
  - now rewrite collect_players.
Qed.

(** From a state where the bounds hold, they hold at all times. *)
Lemma bounds_at_all_times w w' :
  reachable w w' ->
  playersKeyed (storage w) -> Forall playerInvariant (players (storage w)) ->
  Forall withinBounds (players (storage w')).
Proof.
  intros Hrun Hkey Hinv. apply invariant_bounds.
  assert (playersKeyed (storage w') /\ Forall playerInvariant (players (storage w')))
    as [_ H]; [|exact H].
  induction Hrun as [|w1 w2 w3 Hstep _ IH]; [easy|].
  apply IH; now apply (step_invariant w1 w2).
Qed.

(** * Further properties of the code *)

(** ** What a use of an ability leaves alone *)

Lemma updateWhere_other {A : Type} (key : A -> string) (f : A -> A) id l q :
  (forall r, key (f r) = key r) -> key q <> id ->
  In q (Storage.updateWhere key id f l) <-> In q l.
Proof.
  intros Hf Hq. unfold Storage.updateWhere. rewrite in_map_iff. split.
  - intros (r & Hr & Hin). destruct (String.eqb_spec (key r) id) as [Hk|Hk].
    + exfalso. apply Hq. now rewrite <- Hr, Hf.
    + now subst.
  - intros Hin. exists q. split; [|exact Hin].
    now rewrite (proj2 (String.eqb_neq _ _) Hq).
Qed.

Lemma updateWhere_length {A : Type} (key : A -> string) (f : A -> A) id l :
  length (Storage.updateWhere key id f l) = length l.
Proof. apply List.length_map. Qed.

(** The state [useAbility] leaves: unchanged, or the one after the cast,
    or the one after the cast and the hit. *)
Lemma useAbility_shape e playerId abilityName targetId w :
  (success (useAbility e playerId abilityName targetId w).1 = false
   /\ damage (useAbility e playerId abilityName targetId w).1 = None
   /\ (useAbility e playerId abilityName targetId w).2 = w)
  \/ exists player ability,
       Storage.getPlayer playerId (storage w) = Some player
       /\ resolve abilityName = Some ability
       /\ requiredLevel ability <= level player
       /\ ability_auraCost ability <= aura player
       /\ isOnCooldown e playerId abilityName w = false
       /\ (useAbility e playerId abilityName targetId w).1
          = used playerId abilityName targetId player ability
       /\ (useAbility e playerId abilityName targetId w).2
          = match struck player targetId w with
            | Some monster =>
                (hitMonster e player monster (totalDamageOf ability player)
                   (afterCast e playerId abilityName player ability w)).2
            | None => afterCast e playerId abilityName player ability w
            end.
Proof.
  destruct (Storage.getPlayer playerId (storage w)) as [player|] eqn:Hp;
    [|left; unfold useAbility; run; now rewrite Hp].
  destruct (resolve abilityName) as [ability|] eqn:Ha;
    [|left; unfold useAbility; run; now rewrite Hp, Ha].
  destruct (Z.lt_ge_cases (level player) (requiredLevel ability)) as [Hl|Hl].
  { left. unfold useAbility. run. rewrite Hp, Ha.
    now destruct (Z.ltb_spec (level player) (requiredLevel ability)); [|lia]. }
  destruct (Z.lt_ge_cases (aura player) (ability_auraCost ability)) as [Hc|Hc].
  { left. now rewrite (useAbility_short _ _ _ _ _ player ability) by (auto; lia). }
  destruct (isOnCooldown e playerId abilityName w) eqn:Hcd.
  { left. now rewrite (useAbility_blocked _ _ _ _ _ player ability) by (auto; lia). }
  right. exists player, ability.
  rewrite (useAbility_cast _ _ _ _ _ player ability) by (auto; lia). simpl.
  rewrite struck_afterCast. repeat split; auto; lia.
Qed.

(** X1. A use of an ability that fails reports no damage and changes
    nothing: no row, no write, no cooldown. *)
Theorem failed_ability_changes_nothing (e : Env) (playerId abilityName : string)
    (targetId : option string) (w : World) :
  success (useAbility e playerId abilityName targetId w).1 = false ->
  damage (useAbility e playerId abilityName targetId w).1 = None
  /\ (useAbility e playerId abilityName targetId w).2 = w.
Proof.
  intros Hfail.
  destruct (useAbility_shape e playerId abilityName targetId w)
    as [(_ & Hd & Hw)|(player & ability & _ & _ & _ & _ & _ & Hr & _)]; [easy|].
  rewrite Hr in Hfail. discriminate.
Qed.

Lemma failed_ability_changes_nothing_witness :
  damage (useAbility (Sample.env 1000) "hero" "Aura Release" (Some "golem") Sample.world).1
  = None
  /\ (useAbility (Sample.env 1000) "hero" "Aura Release" (Some "golem") Sample.world).2
     = Sample.world.
Proof.
  apply (failed_ability_changes_nothing (Sample.env 1000) "hero" "Aura Release"
           (Some "golem") Sample.world).
  reflexivity.
Defined.

(** ** Dropping loot *)

Lemma placeDrops_storage e monster killerId drops i k w :
  (placeDrops e monster killerId drops i k w).2
  = mkWorld
      {| players := players (storage w);
         monsters := monsters (storage w);
         lootItems := lootItems (storage w);
         playerInventory := playerInventory (storage w);
         worldLoot :=
           (worldLoot (storage w) ++ droppedRows e monster killerId drops i k)%list;
         journal :=
           (journal (storage w)
            ++ List.map InsertWorldLoot (droppedRows e monster killerId drops i k))%list |}
      (playerCooldowns w).
Proof.
  revert i k w. induction drops as [|[itemId quantity] rest IH]; intros i k w.
  - simpl. rewrite !app_nil_r. now destruct w as [[] ?].
  - simpl. run. rewrite IH. simpl. now rewrite <- !app_assoc.
Qed.

(** [dropLoot] inserts the rows [lootOf] lists, and does nothing else. *)
Lemma dropLoot_storage e monster killerId w :
  (dropLoot e monster killerId w).2
  = mkWorld
      {| players := players (storage w);
         monsters := monsters (storage w);
         lootItems := lootItems (storage w);
         playerInventory := playerInventory (storage w);
         worldLoot := (worldLoot (storage w) ++ lootOf e monster killerId (storage w))%list;
         journal :=
           (journal (storage w)
            ++ List.map InsertWorldLoot (lootOf e monster killerId (storage w)))%list |}
      (playerCooldowns w).
Proof.
  unfold dropLoot, lootOf. run. unfold Storage.getAllLootItems.
  destruct (List.find _ _) as [boneItem|];
    [|simpl; rewrite !app_nil_r; now destruct w as [[] ?]].
  destruct (List.find _ _) as [meatItem|];
    [|simpl; rewrite !app_nil_r; now destruct w as [[] ?]].
  destruct (rollDrops e monster boneItem meatItem) as [drops i]. simpl.
  apply placeDrops_storage.
Qed.

Lemma floor_product_nonneg x c :
  signClear (Prim2SF x) -> signClear (Prim2SF c) -> 0 <= JS.floor (x * c).
Proof.
  intros Hx Hc. apply floor_signClear. rewrite mul_spec. now apply SFmul_signClear.
Qed.

Lemma droppedRows_length e monster killerId drops i k :
  length (droppedRows e monster killerId drops i k) = length drops.
Proof.
  revert i k. induction drops as [|[itemId quantity] rest IH]; intros i k; simpl; auto.
Qed.

Lemma droppedRows_In e monster killerId drops i k l :
  In l (droppedRows e monster killerId drops i k) ->
  In (loot_itemId l, loot_quantity l) drops
  /\ loot_zone l = monster_zone monster
  /\ droppedBy l = Some killerId
  /\ loot_spawnedAt l = Some (dbNow e)
  /\ expiresAt l = Some (dbNow e + 300000)
  /\ loot_positionY l = monster_positionY monster.
Proof.
  revert i k. induction drops as [|[itemId quantity] rest IH]; intros i k; simpl; [easy|].
  intros [<-|Hin]; [simpl; auto 10|].
  destruct (IH _ _ Hin) as (H1 & H2). auto.
Qed.

Lemma rollDrops_spec e monster boneItem meatItem :
  (length (rollDrops e monster boneItem meatItem).1 <= 2)%nat
  /\ forall itemId quantity,
       In (itemId, quantity) (rollDrops e monster boneItem meatItem).1 ->
       (itemId = item_id boneItem \/ itemId = item_id meatItem)
       /\ (randomNonNegative e -> 1 <= quantity).
Proof.
  unfold rollDrops.
  destruct (random e 0 <? _)%float; destruct (random e _ <? _)%float; simpl;
    (split; [lia|]); intros itemId quantity Hin;
    repeat (destruct Hin as [[= <- <-]|Hin]); try easy;
    (split; [auto|]); intros Hr;
    match goal with |- 1 <= JS.floor (random e ?n * ?c) + 1 =>
      pose proof (floor_product_nonneg (random e n) c (Hr n) eq_refl) end; lia.
Qed.

Lemma lootOf_In e monster killerId d l :
  In l (lootOf e monster killerId d) ->
  loot_zone l = monster_zone monster
  /\ loot_positionY l = monster_positionY monster
  /\ droppedBy l = Some killerId
  /\ expiresAt l = Some (dbNow e + 300000)
  /\ (exists item, In item (lootItems d)
        /\ loot_itemId l = item_id item
        /\ (item_name item = "Monster Bone" \/ item_name item = "Monster Meat"))
  /\ (randomNonNegative e -> 1 <= loot_quantity l).
Proof.
  unfold lootOf.
  destruct (List.find _ _) as [boneItem|] eqn:Hb; [|easy].
  match goal with |- context [match ?x with _ => _ end] =>
    destruct x as [meatItem|] eqn:Hm end; [|easy].
  intros Hin. apply droppedRows_In in Hin as (Hin & Hz & Hk & _ & Hx & Hy).
  apply rollDrops_spec in Hin as [Hid Hq].
  apply find_some in Hb as [Hb1 Hb2]. apply String.eqb_eq in Hb2.
  apply find_some in Hm as [Hm1 Hm2]. apply String.eqb_eq in Hm2.
  repeat split; auto.
  destruct Hid as [Hid|Hid]; [exists boneItem | exists meatItem]; auto.
Qed.

Lemma lootOf_length e monster killerId d :
  (length (lootOf e monster killerId d) <= 2)%nat.
Proof.
  unfold lootOf. destruct (List.find _ _); [|simpl; lia].
  match goal with |- context [match ?x with _ => _ end] => destruct x end; [|simpl; lia].
  rewrite droppedRows_length. apply rollDrops_spec.
Qed.

Lemma lootOf_nothing e monster killerId d :
  (forall item, In item (lootItems d) -> item_name item <> "Monster Bone")
  \/ (forall item, In item (lootItems d) -> item_name item <> "Monster Meat") ->
  lootOf e monster killerId d = [].
Proof.
  intros [Hno|Hno]; unfold lootOf.
  - destruct (List.find _ _) as [boneItem|] eqn:Hb; [|easy].
    apply find_some in Hb as [Hb1 Hb2]. apply String.eqb_eq in Hb2.
    now apply Hno in Hb1.
  - destruct (List.find _ _) as [boneItem|]; [|easy].
    match goal with |- context [match ?x with _ => _ end] =>
      destruct x as [meatItem|] eqn:Hm end; [|easy].
    apply find_some in Hm as [Hm1 Hm2]. apply String.eqb_eq in Hm2.
    now apply Hno in Hm1.
Qed.

(** X2. [dropLoot] only appends rows to [world_loot], at most two. Each
    row is in the monster's zone, at the monster's height, carries the
    killer as [droppedBy], expires 5 minutes (300000 ms) after the
    database clock, and is of a catalog item named "Monster Bone" or
    "Monster Meat", with a quantity of at least 1 when [Math.random()]
    is not negative. When the catalog has no item of one of the two
    names, nothing is dropped. *)
Theorem loot_drop (e : Env) (monster : Monster) (killerId : string) (w : World) :
  worldLoot (storage (dropLoot e monster killerId w).2)
  = (worldLoot (storage w) ++ lootOf e monster killerId (storage w))%list
  /\ (length (lootOf e monster killerId (storage w)) <= 2)%nat
  /\ players (storage (dropLoot e monster killerId w).2) = players (storage w)
  /\ monsters (storage (dropLoot e monster killerId w).2) = monsters (storage w)
  /\ lootItems (storage (dropLoot e monster killerId w).2) = lootItems (storage w)
  /\ playerInventory (storage (dropLoot e monster killerId w).2)
     = playerInventory (storage w)
  /\ playerCooldowns (dropLoot e monster killerId w).2 = playerCooldowns w
  /\ (forall l, In l (lootOf e monster killerId (storage w)) ->
        loot_zone l = monster_zone monster
        /\ loot_positionY l = monster_positionY monster
        /\ droppedBy l = Some killerId
        /\ expiresAt l = Some (dbNow e + 300000)
        /\ (exists item, In item (lootItems (storage w))
              /\ loot_itemId l = item_id item
              /\ (item_name item = "Monster Bone" \/ item_name item = "Monster Meat"))
        /\ (randomNonNegative e -> 1 <= loot_quantity l))
  /\ ((forall item, In item (lootItems (storage w)) -> item_name item <> "Monster Bone")
      \/ (forall item, In item (lootItems (storage w)) -> item_name item <> "Monster Meat")
      -> lootOf e monster killerId (storage w) = []).
Proof.
  rewrite dropLoot_storage. simpl.
  split; [reflexivity|]. split; [apply lootOf_length|].
  do 5 (split; [reflexivity|]).
  split; [intros l; apply lootOf_In | apply lootOf_nothing].
Qed.

(** ** The rows a use of an ability rewrites *)

Lemma hitMonster_catalog e player monster totalDamage w :
  lootItems (storage (hitMonster e player monster totalDamage w).2) = lootItems (storage w)
  /\ playerInventory (storage (hitMonster e player monster totalDamage w).2)
     = playerInventory (storage w).
Proof.
  unfold hitMonster, awardExperience. run.
  destruct (Z.max 0 _ <=? 0); simpl; [|easy].
  now rewrite dropLoot_storage.
Qed.

Lemma useAbility_players e playerId abilityName targetId w :
  players (storage (useAbility e playerId abilityName targetId w).2) = players (storage w)
  \/ exists player ability,
       Storage.getPlayer playerId (storage w) = Some player
       /\ ability_auraCost ability <= aura player
       /\ resolve abilityName = Some ability
       /\ (players (storage (useAbility e playerId abilityName targetId w).2)
           = Storage.updateWhere player_id playerId
               (setPlayer (auraSpent player ability)) (players (storage w))
           \/ exists monster,
                struck player targetId w = Some monster
                /\ monster_health monster <= totalDamageOf ability player
                /\ players (storage (useAbility e playerId abilityName targetId w).2)
                   = Storage.updateWhere player_id playerId
                       (setPlayer (awardUpdates player (expGainOf monster player)))
                       (Storage.updateWhere player_id playerId
                          (setPlayer (auraSpent player ability)) (players (storage w)))).
Proof.
  destruct (useAbility_shape e playerId abilityName targetId w)
    as [(_ & _ & ->)|(player & ability & Hp & Ha & Hl & Hc & Hcd & _ & ->)]; [now left|].
  right. exists player, ability. repeat split; auto.
  destruct (struck player targetId w) as [monster|]; [|now left].
  rewrite hitMonster_players, afterCast_storage. simpl.
  destruct (Z.leb_spec (hits monster (totalDamageOf ability player)) 0) as [Hk|Hk];
    [|now left].
  right. exists monster. rewrite (getPlayer_id _ _ _ Hp).
  repeat split; auto. unfold hits in Hk. lia.
Qed.

(** X3. A use of an ability creates and deletes no player and rewrites
    no row of another player: the rows whose [id] is not the caster's
    are the same before and after. The item catalog and the inventories
    are untouched. *)
Theorem ability_touches_one_player (e : Env) (playerId abilityName : string)
    (targetId : option string) (w : World) :
  (forall q, player_id q <> playerId ->
     (In q (players (storage (useAbility e playerId abilityName targetId w).2))
      <-> In q (players (storage w))))
  /\ length (players (storage (useAbility e playerId abilityName targetId w).2))
     = length (players (storage w))
  /\ lootItems (storage (useAbility e playerId abilityName targetId w).2)
     = lootItems (storage w)
  /\ playerInventory (storage (useAbility e playerId abilityName targetId w).2)
     = playerInventory (storage w).
Proof.
  split; [|split].
  - intros q Hq.
    destruct (useAbility_players e playerId abilityName targetId w)
      as [->|(player & ability & _ & _ & _ & [->|(monster & _ & _ & ->)])]; [easy| |].
    + now apply updateWhere_other.
    + rewrite updateWhere_other by (auto using setPlayer_id).
      now apply updateWhere_other.
  - destruct (useAbility_players e playerId abilityName targetId w)
      as [->|(player & ability & _ & _ & _ & [->|(monster & _ & _ & ->)])]; [easy| |];
      now rewrite ?updateWhere_length.
  - destruct (useAbility_shape e playerId abilityName targetId w)
      as [(_ & _ & ->)|(player & ability & _ & _ & _ & _ & _ & _ & ->)]; [easy|].
    destruct (struck player targetId w) as [monster|]; [|easy].
    destruct (hitMonster_catalog e player monster (totalDamageOf ability player)
                (afterCast e playerId abilityName player ability w)) as [-> ->].
    easy.
Qed.

(** X4. Whatever [useAbility] does, the caster stays in the table, at a
    level no lower than before, with the same rebirth cycle, hidden
    stats, position, name and online flag. *)
Theorem ability_keeps_caster (e : Env) (playerId abilityName : string)
    (targetId : option string) (w : World) (player : Player) :
  Storage.getPlayer playerId (storage w) = Some player ->
  exists player',
    Storage.getPlayer playerId (storage (useAbility e playerId abilityName targetId w).2)
    = Some player'
    /\ level player <= level player'
    /\ rebirthCycle player' = rebirthCycle player
    /\ hiddenStrength player' = hiddenStrength player
    /\ hiddenAgility player' = hiddenAgility player
    /\ hiddenIntelligence player' = hiddenIntelligence player
    /\ hiddenEndurance player' = hiddenEndurance player
    /\ positionX player' = positionX player
    /\ positionY player' = positionY player
    /\ positionZ player' = positionZ player
    /\ username player' = username player
    /\ isOnline player' = isOnline player.
Proof.
  intros Hp. pose proof (getPlayer_id _ _ _ Hp) as Hid.
  destruct (useAbility_players e playerId abilityName targetId w)
    as [Hsame|(player0 & ability & Hp0 & _ & _ & [Hpl|(monster & _ & _ & Hpl)])].
  - exists player. unfold Storage.getPlayer in *. rewrite Hsame. repeat split; auto; lia.
  - exists (setPlayer (auraSpent player0 ability) player).
    rewrite (getPlayer_rewritten _ playerId _ _ _ Hpl), Hp. simpl.
    rewrite Hid, String.eqb_refl. repeat split; simpl; lia.
  - assert (player0 = player) as -> by congruence.
    exists (setPlayer (awardUpdates player (expGainOf monster player))
              (setPlayer (auraSpent player ability) player)).
    split.
    + rewrite (getPlayer_rewritten playerId playerId
                 (awardUpdates player (expGainOf monster player))
                 (Storage.updatePlayer playerId (auraSpent player ability) (storage w))
                 _ Hpl).
      rewrite getPlayer_updatePlayer, Hp. simpl.
      rewrite Hid, String.eqb_refl. simpl. now rewrite Hid, String.eqb_refl.
    + unfold awardUpdates.
      destruct (Z.ltb_spec (level player)
                  (newLevelOf (experience player + expGainOf monster player)));
        destruct (_ <=? 100); simpl; repeat split; lia.
Qed.

Lemma ability_keeps_caster_witness :
  exists player',
    Storage.getPlayer "hero"
      (storage (useAbility (Sample.env 1000) "hero" "ground_dig_up" (Some "golem")
                  Sample.world).2) = Some player'
    /\ level Sample.hero <= level player'
    /\ rebirthCycle player' = rebirthCycle Sample.hero
    /\ hiddenStrength player' = hiddenStrength Sample.hero.
Proof.
  destruct (ability_keeps_caster (Sample.env 1000) "hero" "ground_dig_up" (Some "golem")
              Sample.world Sample.hero eq_refl)
    as (player' & H1 & H2 & H3 & H4 & _).
  exists player'. repeat split; assumption.
Defined.

Lemma useAbility_struck e playerId abilityName targetId w :
  monsters (storage (useAbility e playerId abilityName targetId w).2) = monsters (storage w)
  \/ exists player ability monster,
       Storage.getPlayer playerId (storage w) = Some player
       /\ resolve abilityName = Some ability
       /\ struck player targetId w = Some monster
       /\ monsters (storage (useAbility e playerId abilityName targetId w).2)
          = let damaged :=
              Storage.updateWhere monster_id (monster_id monster)
                (setMonster
                   (mkMonsterUpdates
                      (Some (hits monster (totalDamageOf ability player))) None))
                (monsters (storage w)) in
            if hits monster (totalDamageOf ability player) <=? 0
            then Storage.updateWhere monster_id (monster_id monster)
                   (setMonster (mkMonsterUpdates None (Some false))) damaged
            else damaged.
Proof.
  destruct (useAbility_shape e playerId abilityName targetId w)
    as [(_ & _ & ->)|(player & ability & Hp & Ha & _ & _ & _ & _ & ->)]; [now left|].
  destruct (struck player targetId w) as [monster|] eqn:Hs; [|now left].
  right. exists player, ability, monster. repeat split; auto.
  now rewrite hitMonster_monsters.
Qed.

(** X5. A use of an ability creates and deletes no monster row and
    rewrites only rows whose [id] is the [targetId] it was given: every
    other monster is the same before and after. *)
Theorem ability_touches_one_monster (e : Env) (playerId abilityName : string)
    (targetId : option string) (w : World) :
  (forall m, targetId <> Some (monster_id m) ->
     (In m (monsters (storage (useAbility e playerId abilityName targetId w).2))
      <-> In m (monsters (storage w))))
  /\ length (monsters (storage (useAbility e playerId abilityName targetId w).2))
     = length (monsters (storage w)).
Proof.
  destruct (useAbility_struck e playerId abilityName targetId w)
    as [->|(player & ability & monster & _ & _ & Hs & ->)]; [easy|].
  apply struck_Some in Hs as (target & -> & _ & _ & Hid & _). simpl. split.
  - intros m Hm. assert (monster_id m <> monster_id monster) by congruence.
    destruct (_ <=? 0); rewrite ?updateWhere_other; auto using setMonster_id; easy.
  - destruct (_ <=? 0); now rewrite ?updateWhere_length.
Qed.

(** X6. A hit that does not kill. When the checks pass, the target is
    struck and its health is above the damage, every row of that
    monster has its health lowered by exactly the damage and nothing
    else changed; the monster is still listed by [getMonstersInZone];
    the caster's experience is as before; no loot appears; the use
    issues two writes, the aura of the player and the health of the
    monster. *)
Theorem hit_without_kill (e : Env) (playerId abilityName : string)
    (targetId : option string) (w : World) (player : Player)
    (ability : AbilityDefinition) (monster : Monster) :
  Storage.getPlayer playerId (storage w) = Some player ->
  resolve abilityName = Some ability ->
  requiredLevel ability <= level player ->
  ability_auraCost ability <= aura player ->
  isOnCooldown e playerId abilityName w = false ->
  struck player targetId w = Some monster ->
  ability_damage ability + JS.floor (JS.num (hiddenStrength player) * 0.1)
  < monster_health monster ->
  let damaged :=
    setMonster
      (mkMonsterUpdates
         (Some (monster_health monster
                - (ability_damage ability
                   + JS.floor (JS.num (hiddenStrength player) * 0.1))))
         None) in
  monsters (storage (useAbility e playerId abilityName targetId w).2)
  = Storage.updateWhere monster_id (monster_id monster) damaged (monsters (storage w))
  /\ In (damaged monster)
        (Storage.getMonstersInZone "selha_latna"
           (storage (useAbility e playerId abilityName targetId w).2))
  /\ option_map experience
       (Storage.getPlayer playerId (storage (useAbility e playerId abilityName targetId w).2))
     = Some (experience player)
  /\ worldLoot (storage (useAbility e playerId abilityName targetId w).2)
     = worldLoot (storage w)
  /\ journal (storage (useAbility e playerId abilityName targetId w).2)
     = (journal (storage w)
        ++ [UpdatePlayer playerId (auraSpent player ability);
            UpdateMonster (monster_id monster)
              (mkMonsterUpdates
                 (Some (monster_health monster
                        - (ability_damage ability
                           + JS.floor (JS.num (hiddenStrength player) * 0.1))))
                 None)])%list.
Proof.
  intros Hp Ha Hl Hc Hcd Hs Hdmg. simpl.
  rewrite (useAbility_cast _ _ _ _ _ player ability) by assumption. simpl.
  rewrite struck_afterCast, Hs.
  assert (hits monster (totalDamageOf ability player)
          = monster_health monster
            - (ability_damage ability + JS.floor (JS.num (hiddenStrength player) * 0.1)))
    as Hh by (unfold hits, totalDamageOf; lia).
  unfold hitMonster. fold (hits monster (totalDamageOf ability player)). rewrite Hh. run.
  destruct (Z.leb_spec (monster_health monster
              - (ability_damage ability
                 + JS.floor (JS.num (hiddenStrength player) * 0.1))) 0); [lia|].
  simpl. apply struck_Some in Hs as (target & _ & _ & Hin & _ & Hal & Hz & _).
  split; [reflexivity|]. split.
  - unfold Storage.getMonstersInZone. apply List.filter_In. simpl. split.
    + unfold Storage.updateWhere. apply in_map_iff. exists monster.
      now rewrite String.eqb_refl.
    + now rewrite Hz, Hal.
  - split; [|split; [reflexivity|]].
    + rewrite (getPlayer_rewritten playerId playerId (auraSpent player ability)
                 (storage w)) by reflexivity.
      rewrite Hp. simpl. now rewrite (getPlayer_id _ _ _ Hp), String.eqb_refl.
    + now rewrite <- app_assoc.
Qed.

Lemma hit_without_kill_witness :
  option_map monster_health
    (List.find (hasKey monster_id "golem")
       (Storage.getMonstersInZone "selha_latna"
          (storage (useAbility (Sample.env 1000) "hero" "stone_bullet" (Some "golem")
                      Sample.world).2))) = Some 100
  /\ option_map experience
       (Storage.getPlayer "hero"
          (storage (useAbility (Sample.env 1000) "hero" "stone_bullet" (Some "golem")
                      Sample.world).2)) = Some 5900
  /\ worldLoot (storage (useAbility (Sample.env 1000) "hero" "stone_bullet" (Some "golem")
                           Sample.world).2) = worldLoot (storage Sample.world).
Proof.
  destruct (hit_without_kill (Sample.env 1000) "hero" "stone_bullet" (Some "golem")
              Sample.world Sample.hero stone_bullet Sample.golem)
    as (H1 & _ & H3 & H4 & _);
    [reflexivity | reflexivity | simpl; lia | simpl; lia | reflexivity | reflexivity
    | vm_compute; reflexivity | ].
  split; [|split; [exact H3 | exact H4]].
  unfold Storage.getMonstersInZone. rewrite H1. reflexivity.
Defined.

Lemma resolve_damage abilityName ability :
  resolve abilityName = Some ability -> 0 < ability_damage ability.
Proof.
  intros H. apply abilities_inv in H.
  destruct H as [[_ ->]|[[_ ->]|[[_ ->]|[_ ->]]]]; simpl; lia.
Qed.

(** X7. Monsters keep [0 <= health <= maxHealth] under a use of an
    ability, on a [monsters] table keyed by [id], when no player has a
    negative hidden strength (the damage is then positive). *)
Theorem monster_bounds_preserved (e : Env) (playerId abilityName : string)
    (targetId : option string) (w : World) :
  NoDup (List.map monster_id (monsters (storage w))) ->
  Forall (fun p => 0 <= hiddenStrength p) (players (storage w)) ->
  Forall monsterWithinBounds (monsters (storage w)) ->
  Forall monsterWithinBounds
    (monsters (storage (useAbility e playerId abilityName targetId w).2)).
Proof.
  intros Hkey Hstr Hb.
  destruct (useAbility_struck e playerId abilityName targetId w)
    as [->|(player & ability & monster & Hp & Ha & Hs & ->)]; [exact Hb|].
  apply struck_Some in Hs as (target & _ & _ & Hin & _).
  pose proof (resolve_damage _ _ Ha) as Hd.
  apply (find_hasKey_Some player_id) in Hp as [Hpin _].
  rewrite List.Forall_forall in Hstr. specialize (Hstr _ Hpin).
  assert (0 <= JS.floor (JS.num (hiddenStrength player) * 0.1))
    by (apply floor_scaled_nonneg; [exact Hstr | reflexivity]).
  assert (monsterWithinBounds monster) as Hm
    by (rewrite List.Forall_forall in Hb; auto).
  assert (Forall monsterWithinBounds
            (Storage.updateWhere monster_id (monster_id monster)
               (setMonster
                  (mkMonsterUpdates (Some (hits monster (totalDamageOf ability player)))
                     None))
               (monsters (storage w)))) as Hdamaged.
  { apply updateWhere_Forall; [exact Hb|]. intros q Hq Hk.
    assert (q = monster) as -> by (apply (keyed_unique monster_id (monsters (storage w))); auto).
    unfold monsterWithinBounds, hits, totalDamageOf in *. simpl. lia. }
  simpl. destruct (_ <=? 0); [|exact Hdamaged].
  apply updateWhere_Forall; [exact Hdamaged|]. intros q Hq _.
  rewrite List.Forall_forall in Hdamaged. exact (Hdamaged q Hq).
Qed.

Lemma sample_monsters_keyed : NoDup (List.map monster_id (monsters (storage Sample.world))).
Proof.
  simpl. repeat constructor; rewrite list_elem_of_In; simpl; intuition discriminate.
Defined.

Lemma monster_bounds_preserved_witness :
  Forall monsterWithinBounds
    (monsters (storage (useAbility (Sample.env 1000) "hero" "stone_bullet" (Some "golem")
                          Sample.world).2)).
Proof.
  apply (monster_bounds_preserved (Sample.env 1000) "hero" "stone_bullet" (Some "golem")
           Sample.world sample_monsters_keyed).
  - repeat constructor; simpl; lia.
  - repeat constructor; simpl; lia.
Defined.

(** ** The cooldown tracker *)

Lemma afterCast_other e playerId abilityName player ability w playerId' abilityName' :
  (playerId', abilityName') <> (playerId, abilityName) ->
  cooldownEnd playerId' abilityName' (afterCast e playerId abilityName player ability w)
  = cooldownEnd playerId' abilityName' w.
Proof.
  intros Hne. unfold cooldownEnd, afterCast, setCooldown. simpl.
  destruct (decide (playerId = playerId')) as [<-|Hp].
  - rewrite lookup_insert_eq.
    assert (abilityName <> abilityName') as Ha by congruence.
    rewrite lookup_insert_ne by exact Ha.
    destruct (playerCooldowns w !! playerId) as [m|] eqn:Hm.
    + now rewrite Hm.
    + now rewrite lookup_insert_eq.
  - rewrite lookup_insert_ne by exact Hp.
    destruct (playerCooldowns w !! playerId); [easy|].
    now rewrite lookup_insert_ne.
Qed.

Lemma useAbility_cooldowns e playerId abilityName targetId w :
  playerCooldowns (useAbility e playerId abilityName targetId w).2 = playerCooldowns w
  \/ exists player ability,
       playerCooldowns (useAbility e playerId abilityName targetId w).2
       = playerCooldowns (afterCast e playerId abilityName player ability w).
Proof.
  destruct (useAbility_shape e playerId abilityName targetId w)
    as [(_ & _ & ->)|(player & ability & _ & _ & _ & _ & _ & _ & ->)]; [now left|].
  right. exists player, ability.
  destruct (struck player targetId w); [apply hitMonster_cooldowns | easy].
Qed.

(** X8. Cooldowns are independent: a use of an ability by a player
    under a name leaves the cooldown of every other (player, name) pair
    as it was. *)
Theorem cooldowns_independent (e : Env) (playerId abilityName : string)
    (targetId : option string) (w : World) (playerId' abilityName' : string) :
  (playerId', abilityName') <> (playerId, abilityName) ->
  cooldownEnd playerId' abilityName' (useAbility e playerId abilityName targetId w).2
  = cooldownEnd playerId' abilityName' w.
Proof.
  intros Hne. unfold cooldownEnd at 1.
  destruct (useAbility_cooldowns e playerId abilityName targetId w)
    as [->|(player & ability & ->)]; [easy|].
  now apply afterCast_other.
Qed.

Lemma cooldowns_independent_witness :
  cooldownEnd "hero" "wind_manipulation"
    (useAbility (Sample.env 1000) "hero" "stone_bullet" None Sample.world).2
  = cooldownEnd "hero" "wind_manipulation" Sample.world.
Proof.
  apply (cooldowns_independent (Sample.env 1000) "hero" "stone_bullet" None Sample.world
           "hero" "wind_manipulation").
  discriminate.
Defined.

(** X9. The cooldown lasts its duration and no longer. After a
    successful use that armed the cooldown at [atArm], a second use
    under the same name, checked at or after [atArm + cooldown] by a
    player who has the aura the ability costs, succeeds. *)
Theorem cooldown_expires (e1 e2 : Env) (playerId abilityName : string)
    (target1 target2 : option string) (w : World) (ability : AbilityDefinition)
    (player1 : Player) :
  resolve abilityName = Some ability ->
  success (useAbility e1 playerId abilityName target1 w).1 = true ->
  atArm e1 + cooldown ability <= atCheck e2 ->
  Storage.getPlayer playerId (storage (useAbility e1 playerId abilityName target1 w).2)
  = Some player1 ->
  ability_auraCost ability <= aura player1 ->
  isOnCooldown e2 playerId abilityName (useAbility e1 playerId abilityName target1 w).2
  = false
  /\ success (useAbility e2 playerId abilityName target2
                (useAbility e1 playerId abilityName target1 w).2).1 = true.
Proof.
  intros Ha Hok Hlate Hp1 Hc.
  destruct (useAbility_success _ _ _ _ _ Hok)
    as (player & ability' & player1' & Hp & Ha' & Hl & Hcd & Hp1' & Hlevel).
  assert (ability' = ability) as -> by congruence.
  assert (player1' = player1) as -> by congruence.
  assert (isOnCooldown e2 playerId abilityName
            (useAbility e1 playerId abilityName target1 w).2 = false) as Hoff.
  { unfold cooldownEnd in Hcd. unfold isOnCooldown.
    destruct (playerCooldowns _ !! playerId) as [m|]; [|easy]. rewrite Hcd.
    destruct (_ =? 0); [easy|]. apply Z.ltb_ge. lia. }
  split; [exact Hoff|].
  now rewrite (useAbility_cast _ _ _ _ _ player1 ability) by (auto; lia).
Qed.

Lemma cooldown_expires_witness :
  isOnCooldown (Sample.env 3000) "hero" "stone_bullet"
    (useAbility (Sample.env 1000) "hero" "stone_bullet" None Sample.world).2 = false
  /\ success (useAbility (Sample.env 3000) "hero" "stone_bullet" None
                (useAbility (Sample.env 1000) "hero" "stone_bullet" None
                   Sample.world).2).1 = true.
Proof.
  apply (cooldown_expires (Sample.env 1000) (Sample.env 3000) "hero" "stone_bullet"
           None None Sample.world stone_bullet
           (setPlayer (auraSpent Sample.hero stone_bullet) Sample.hero));
    [reflexivity | reflexivity | simpl; lia | reflexivity | simpl; lia].
Defined.

(** X10. The time [getRemainingCooldown] reports is never negative.
    After a successful use that armed the cooldown at [atArm >= 0], read
    at an instant not before [atArm], it is
    [max(0, atArm + cooldown - now)] and so at most the ability's
    cooldown. *)
Theorem remaining_cooldown (e1 e2 : Env) (playerId abilityName : string)
    (target1 : option string) (w : World) (ability : AbilityDefinition) :
  resolve abilityName = Some ability ->
  success (useAbility e1 playerId abilityName target1 w).1 = true ->
  0 <= atArm e1 <= atRemaining e2 ->
  getRemainingCooldown e2 playerId abilityName
    (useAbility e1 playerId abilityName target1 w).2
  = Z.max 0 (atArm e1 + cooldown ability - atRemaining e2)
  /\ 0 <= getRemainingCooldown e2 playerId abilityName
            (useAbility e1 playerId abilityName target1 w).2 <= cooldown ability
  /\ (forall e playerId' abilityName' w', 0 <= getRemainingCooldown e playerId' abilityName' w').
Proof.
  intros Ha Hok Ht.
  destruct (useAbility_success _ _ _ _ _ Hok)
    as (player & ability' & player1 & _ & Ha' & _ & Hcd & _).
  assert (ability' = ability) as -> by congruence.
  destruct (resolve_positive _ _ Ha) as [_ Hpos].
  assert (getRemainingCooldown e2 playerId abilityName
            (useAbility e1 playerId abilityName target1 w).2
          = Z.max 0 (atArm e1 + cooldown ability - atRemaining e2)) as Hrem.
  { unfold cooldownEnd in Hcd. unfold getRemainingCooldown.
    destruct (playerCooldowns _ !! playerId) as [m|]; [|easy]. rewrite Hcd.
    destruct (Z.eqb_spec (atArm e1 + cooldown ability) 0); [lia | easy]. }
  split; [exact Hrem|]. split; [rewrite Hrem; lia|].
  intros e playerId' abilityName' w'. unfold getRemainingCooldown.
  destruct (playerCooldowns w' !! playerId') as [m|]; [|lia].
  destruct (m !! abilityName') as [t|]; [|lia]. destruct (t =? 0); lia.
Qed.

Lemma remaining_cooldown_witness :
  getRemainingCooldown (Sample.env 1500) "hero" "stone_bullet"
    (useAbility (Sample.env 1000) "hero" "stone_bullet" None Sample.world).2 = 1500.
Proof.
  destruct (remaining_cooldown (Sample.env 1000) (Sample.env 1500) "hero" "stone_bullet"
              None Sample.world stone_bullet) as (H & _);
    [reflexivity | reflexivity | simpl; lia | ].
  exact H.
Defined.

(** ** The spawner *)

Lemma spawnTick_spec e w :
  (spawnTick e w).2
  = if (0 <? Z.of_nat (length (Storage.getOnlinePlayers (storage w))))
       && (aliveIn "selha_latna" (storage w) <? spawnCap (storage w))
    then mkWorld (Storage.createMonster (spawnedMonster e (storage w)) (storage w))
           (playerCooldowns w)
    else w.
Proof.
  unfold spawnTick, spawnMonster, aliveIn, spawnCap. run.
  destruct (0 <? _); [|easy]. simpl. now destruct (_ <? _).
Qed.

Lemma aliveIn_insert zone m d :
  aliveIn zone (Storage.createMonster m d)
  = aliveIn zone d + (if String.eqb (monster_zone m) zone && isAlive m then 1 else 0).
Proof.
  unfold aliveIn, Storage.getMonstersInZone. simpl. rewrite List.filter_app, List.length_app.
  simpl. destruct (_ && _); simpl; lia.
Qed.

(** X11. One tick of the spawner inserts at most one monster, and none
    when nobody is online or when the monsters alive in the zone have
    reached [min(20, 3 * online players)]; so it never takes their
    number above that cap. It touches no player, no loot, no inventory
    and no cooldown. *)
Theorem spawner_cap (e : Env) (w : World) :
  (length (Storage.getOnlinePlayers (storage w)) = 0%nat -> (spawnTick e w).2 = w)
  /\ (spawnCap (storage w) <= aliveIn "selha_latna" (storage w) -> (spawnTick e w).2 = w)
  /\ aliveIn "selha_latna" (storage w)
     <= aliveIn "selha_latna" (storage (spawnTick e w).2)
     <= aliveIn "selha_latna" (storage w) + 1
  /\ aliveIn "selha_latna" (storage (spawnTick e w).2)
     <= Z.max (aliveIn "selha_latna" (storage w)) (spawnCap (storage w))
  /\ players (storage (spawnTick e w).2) = players (storage w)
  /\ worldLoot (storage (spawnTick e w).2) = worldLoot (storage w)
  /\ playerInventory (storage (spawnTick e w).2) = playerInventory (storage w)
  /\ playerCooldowns (spawnTick e w).2 = playerCooldowns w.
Proof.
  rewrite spawnTick_spec.
  destruct (Z.ltb_spec 0 (Z.of_nat (length (Storage.getOnlinePlayers (storage w)))));
    destruct (Z.ltb_spec (aliveIn "selha_latna" (storage w)) (spawnCap (storage w)));
    simpl; rewrite ?aliveIn_insert; simpl; repeat split; intros; try reflexivity; lia.
Qed.

Lemma SFadd_signClear x y :
  signClear x -> signClear y -> signClear (SF64add x y).
Proof.
  unfold SF64add, SFadd.
  destruct x as [sx|sx| |sx mx ex], y as [sy|sy| |sy my ey]; simpl;
    intros Hx Hy; subst; simpl; try easy.
  destruct (shl_align mx ex _) as [m1 e1], (shl_align my ey _) as [m2 e2]. simpl.
  unfold binary_round. destruct (shl_align _ _ _) as [mz ez].
  apply binary_round_aux_signClear.
Qed.

Lemma SFdiv_signClear x y :
  signClear x -> signClear y -> signClear (SF64div x y).
Proof.
  unfold SF64div, SFdiv.
  destruct x as [sx|sx| |sx mx ex], y as [sy|sy| |sy my ey]; simpl;
    intros Hx Hy; subst; simpl; try easy.
  destruct (SFdiv_core_binary _ _ _ _ _ _) as [[mz ez] lz].
  apply binary_round_aux_signClear.
Qed.

Lemma rebirth_total_nonneg (ps : list Player) acc :
  0 <= acc -> Forall (fun p => 0 <= rebirthCycle p) ps ->
  0 <= fold_left (fun sum p => sum + rebirthCycle p) ps acc.
Proof.
  revert acc. induction ps as [|p ps IH]; intros acc Hacc Hps; simpl; [easy|].
  inversion Hps; subst. apply IH; [lia | assumption].
Qed.

(** The multiplier of the spawner has its sign bit clear when no online
    player has a negative rebirth cycle. *)
Lemma multiplier_signClear e d :
  Forall (fun p => 0 <= rebirthCycle p) (Storage.getOnlinePlayers d) ->
  signClear (Prim2SF (difficultyMultiplier (spawnedMonster e d))).
Proof.
  intros Hrc. simpl. rewrite add_spec. apply SFadd_signClear; [reflexivity|].
  rewrite mul_spec. apply SFmul_signClear; [|reflexivity].
  rewrite div_spec. apply SFdiv_signClear; apply num_signClear; [|lia].
  now apply rebirth_total_nonneg.
Qed.

(** X12. The monster the spawner inserts is the last row of
    [monsters]: alive, in the zone [selha_latna], on the ground
    ([positionY = 0]), at full health ([health = maxHealth]). When
    [Math.random()] is not negative and no online player has a negative
    rebirth cycle, its level is at least 10 and its health is not
    negative. *)
Theorem spawned_monster (e : Env) (w : World) :
  0 < Z.of_nat (length (Storage.getOnlinePlayers (storage w))) ->
  aliveIn "selha_latna" (storage w) < spawnCap (storage w) ->
  exists m,
    monsters (storage (spawnTick e w).2) = (monsters (storage w) ++ [m])%list
    /\ journal (storage (spawnTick e w).2) = (journal (storage w) ++ [InsertMonster m])%list
    /\ monster_id m = uuid e 0
    /\ isAlive m = true
    /\ monster_zone m = "selha_latna"
    /\ monster_positionY m = 0%float
    /\ monster_health m = monster_maxHealth m
    /\ monster_spawnedAt m = Some (dbNow e)
    /\ (randomNonNegative e ->
        Forall (fun p => 0 <= rebirthCycle p) (Storage.getOnlinePlayers (storage w)) ->
        10 <= monster_level m /\ monsterWithinBounds m).
Proof.
  intros Hon Hcap. exists (spawnedMonster e (storage w)). rewrite spawnTick_spec.
  destruct (Z.ltb_spec 0 (Z.of_nat (length (Storage.getOnlinePlayers (storage w)))));
    [|lia].
  destruct (Z.ltb_spec (aliveIn "selha_latna" (storage w)) (spawnCap (storage w)));
    [|lia].
  simpl. do 8 (split; [reflexivity|]).
  intros Hr Hrc.
  assert (0 <= JS.floor (random e 0 * 90)) as Hlevel
    by (apply floor_product_nonneg; [apply Hr | reflexivity]).
  split; [lia|]. unfold monsterWithinBounds. simpl.
  assert (0 <= JS.floor
                 (JS.num ((JS.floor (random e 0 * 90) + 10) * 100)
                  * difficultyMultiplier (spawnedMonster e (storage w))))
    by (apply floor_scaled_nonneg; [lia | now apply multiplier_signClear]).
  simpl in *. lia.
Qed.

Lemma spawned_monster_witness :
  exists m,
    monsters (storage (spawnTick (Sample.env 1000) Sample.world).2)
    = (monsters (storage Sample.world) ++ [m])%list
    /\ monster_id m = "new0"
    /\ isAlive m = true
    /\ monster_health m = monster_maxHealth m.
Proof.
  destruct (spawned_monster (Sample.env 1000) Sample.world)
    as (m & H1 & _ & H3 & H4 & _ & _ & H7 & _); [simpl; lia | vm_compute; reflexivity | ].
  exists m. repeat split; assumption.
Defined.

Lemma filter_map_length {A : Type} (P : A -> bool) (g : A -> A) l :
  (forall x, P (g x) = true -> P x = true) ->
  (length (List.filter P (List.map g l)) <= length (List.filter P l))%nat.
Proof.
  intros Hg. induction l as [|x l IH]; simpl; [lia|].
  destruct (P (g x)) eqn:Hgx.
  - rewrite (Hg x Hgx). simpl. lia.
  - destruct (P x); simpl; lia.
Qed.

Lemma aliveIn_updateWhere zone id u d d' :
  set_isAlive u <> Some true ->
  monsters d' = Storage.updateWhere monster_id id (setMonster u) (monsters d) ->
  aliveIn zone d' <= aliveIn zone d.
Proof.
  intros Hu Hm. unfold aliveIn, Storage.getMonstersInZone. rewrite Hm.
  apply Nat2Z.inj_le. apply filter_map_length. intros m.
  destruct (String.eqb (monster_id m) id); [|easy]. simpl.
  destruct (set_isAlive u) as [[]|]; simpl; try easy.
  now rewrite andb_false_r.
Qed.

(** A use of an ability never adds to the monsters alive in a zone. *)
Lemma useAbility_aliveIn zone e playerId abilityName targetId w :
  aliveIn zone (storage (useAbility e playerId abilityName targetId w).2)
  <= aliveIn zone (storage w).
Proof.
  destruct (useAbility_struck e playerId abilityName targetId w)
    as [Hm|(player & ability & monster & _ & _ & _ & Hm)].
  - unfold aliveIn, Storage.getMonstersInZone. rewrite Hm. lia.
  - simpl in Hm. destruct (_ <=? 0).
    + etransitivity.
      * apply (aliveIn_updateWhere zone (monster_id monster)
                 (mkMonsterUpdates None (Some false))
                 (Storage.updateMonster (monster_id monster)
                    (mkMonsterUpdates (Some (hits monster (totalDamageOf ability player)))
                       None) (storage w))); [easy | exact Hm].
      * now apply (aliveIn_updateWhere zone (monster_id monster)
                     (mkMonsterUpdates (Some (hits monster (totalDamageOf ability player)))
                        None) (storage w)).
    + now apply (aliveIn_updateWhere zone (monster_id monster)
                   (mkMonsterUpdates (Some (hits monster (totalDamageOf ability player)))
                      None) (storage w)).
Qed.

Lemma step_aliveIn w w' :
  step w w' ->
  aliveIn "selha_latna" (storage w') <= Z.max 20 (aliveIn "selha_latna" (storage w)).
Proof.
  intros Hstep. destruct Hstep as [e p a t w|e w Hfresh|w|e w|p w|e msg p l w].
  - pose proof (useAbility_aliveIn "selha_latna" e p a t w). lia.
  - rewrite spawnTick_spec.
    destruct (0 <? _); simpl; [|lia].
    destruct (Z.ltb_spec (aliveIn "selha_latna" (storage w)) (spawnCap (storage w)));
      simpl; [|lia].
    rewrite aliveIn_insert. unfold spawnCap in *. simpl. lia.
  - unfold aliveIn, Storage.getMonstersInZone.
    rewrite regenTick_unfold. destruct (regenLoop_frame (Storage.getOnlinePlayers (storage w)) w)
      as (-> & _). lia.
  - unfold aliveIn, Storage.getMonstersInZone. simpl. lia.
  - unfold aliveIn, Storage.getMonstersInZone. rewrite rebirth_monsters. lia.
  - unfold aliveIn, Storage.getMonstersInZone. rewrite collect_monsters. lia.
Qed.

(** X13. The monsters alive in [selha_latna] never exceed 20 once they
    do not: from a state with at most 20 of them, every state the core
    reaches has at most 20. *)
Theorem monsters_capped (w w' : World) :
  reachable w w' ->
  aliveIn "selha_latna" (storage w) <= 20 ->
  aliveIn "selha_latna" (storage w') <= 20.
Proof.
  induction 1 as [|w1 w2 w3 Hstep _ IH]; [easy|].
  intros H1. apply IH. pose proof (step_aliveIn w1 w2 Hstep). lia.
Qed.

Lemma monsters_capped_witness :
  aliveIn "selha_latna"
    (storage (spawnTick (Sample.env 2000)
                (useAbility (Sample.env 1000) "hero" "ground_dig_up" (Some "golem")
                   Sample.world).2).2) <= 20.
Proof.
  apply (monsters_capped Sample.world).
  - eapply rtc_l; [apply step_useAbility|].
    eapply rtc_l; [apply (step_spawn (Sample.env 2000))|apply rtc_refl].
    rewrite list_elem_of_In. vm_compute. intuition discriminate.
  - vm_compute. discriminate.
Defined.

(** ** Inventories *)

Lemma find_map_same {A : Type} (P : A -> bool) (g : A -> A) l :
  (forall x, P (g x) = P x) ->
  List.find P (List.map g l) = option_map g (List.find P l).
Proof.
  intros Hg. induction l as [|x l IH]; simpl; [easy|].
  rewrite Hg. now destruct (P x).
Qed.

Lemma filter_map_same {A : Type} (P : A -> bool) (g : A -> A) l :
  (forall x, P (g x) = P x) ->
  List.filter P (List.map g l) = List.map g (List.filter P l).
Proof.
  intros Hg. induction l as [|x l IH]; simpl; [easy|].
  rewrite Hg. destruct (P x); simpl; now rewrite IH.
Qed.

Lemma find_app_none {A : Type} (P : A -> bool) l l' :
  List.find P l = None -> List.find P (l ++ l') = List.find P l'.
Proof.
  induction l as [|x l IH]; simpl; [easy|]. now destruct (P x).
Qed.

Lemma find_app_some {A : Type} (P : A -> bool) l l' x :
  List.find P l = Some x -> List.find P (l ++ l') = Some x.
Proof.
  induction l as [|y l IH]; simpl; [easy|]. now destruct (P y).
Qed.

Lemma find_none_filter {A : Type} (P : A -> bool) l :
  List.find P l = None -> List.filter P l = [].
Proof.
  induction l as [|x l IH]; simpl; [easy|]. now destruct (P x).
Qed.

(** The row [find] returns when only one row satisfies the test, and
    when none does. *)
Lemma find_unique {A : Type} (P : A -> bool) l x :
  In x l -> P x = true -> (forall y, In y l -> P y = true -> y = x) ->
  List.find P l = Some x.
Proof.
  induction l as [|a l IH]; simpl; [easy|]. intros Hin HP Hall.
  destruct (P a) eqn:Ha.
  - f_equal. apply Hall; auto.
  - destruct Hin as [->|Hin]; [congruence|]. apply IH; auto.
Qed.

Lemma find_nowhere {A : Type} (P : A -> bool) l :
  (forall y, In y l -> P y = false) -> List.find P l = None.
Proof.
  induction l as [|a l IH]; simpl; [easy|]. intros Hall.
  rewrite (Hall a) by now left. apply IH. auto.
Qed.

Lemma filter_at_most_one {A : Type} (P : A -> bool) l a b :
  (length (List.filter P l) <= 1)%nat ->
  In a l -> In b l -> P a = true -> P b = true -> a = b.
Proof.
  intros Hlen Ha Hb HPa HPb.
  assert (In a (List.filter P l)) as Ha' by (apply List.filter_In; auto).
  assert (In b (List.filter P l)) as Hb' by (apply List.filter_In; auto).
  destruct (List.filter P l) as [|x [|y rest]]; simpl in *; [easy| |lia].
  destruct Ha' as [<-|[]], Hb' as [<-|[]]. reflexivity.
Qed.

Lemma filter_filter_length {A : Type} (P Q : A -> bool) l :
  (length (List.filter P (List.filter Q l)) <= length (List.filter P l))%nat.
Proof.
  induction l as [|x l IH]; simpl; [lia|].
  destruct (Q x), (P x) eqn:HP; simpl; rewrite ?HP; simpl; lia.
Qed.

Lemma filter_all_but {A : Type} (key : A -> string) id l :
  ~ In id (List.map key l) ->
  List.filter (fun r => negb (String.eqb (key r) id)) l = l.
Proof.
  induction l as [|x l IH]; simpl; [easy|]. intros Hno.
  destruct (String.eqb_spec (key x) id) as [Hk|Hk]; [tauto|]. simpl.
  rewrite IH; tauto.
Qed.

Lemma existsb_key {A : Type} (key : A -> string) id l :
  existsb (fun r => String.eqb (key r) id) l = true <-> In id (List.map key l).
Proof.
  rewrite existsb_exists, in_map_iff. split.
  - intros (r & Hin & Hk). apply String.eqb_eq in Hk. now exists r.
  - intros (r & Hk & Hin). exists r. split; [exact Hin|]. now apply String.eqb_eq.
Qed.

Lemma stackOf_setQuantity playerId itemId q r :
  Inventory.stackOf playerId itemId (setQuantity q r) = Inventory.stackOf playerId itemId r.
Proof. reflexivity. Qed.

Lemma stackOf_distinct playerId itemId playerId' itemId' r :
  (playerId', itemId') <> (playerId, itemId) ->
  Inventory.stackOf playerId itemId r = true ->
  Inventory.stackOf playerId' itemId' r = false.
Proof.
  unfold Inventory.stackOf. intros Hne H.
  apply andb_true_iff in H as [Hp Hi]. apply String.eqb_eq in Hp, Hi.
  apply andb_false_iff.
  destruct (String.eqb_spec (inv_playerId r) playerId') as [Hp'|]; [|now left].
  destruct (String.eqb_spec (inv_itemId r) itemId') as [Hi'|]; [|now right].
  congruence.
Qed.

(** An inventory whose rows have pairwise different (player, item)
    pairs has at most one stack per pair. *)
Lemma stacked_keys rows :
  NoDup (List.map (fun r => (inv_playerId r, inv_itemId r)) rows) -> stacked rows.
Proof.
  intros Hnd p i. induction rows as [|r rows IH]; simpl; [lia|].
  inversion Hnd as [|? ? Hr Hrows]; subst.
  destruct (Inventory.stackOf p i r) eqn:Hst; [|now apply IH].
  simpl. rewrite (find_none_filter (Inventory.stackOf p i) rows); [simpl; lia|].
  apply find_nowhere. intros y Hy.
  destruct (Inventory.stackOf p i y) eqn:Hy'; [|reflexivity].
  exfalso. apply Hr. rewrite list_elem_of_In. apply in_map_iff. exists y.
  split; [|exact Hy]. unfold Inventory.stackOf in *.
  apply andb_true_iff in Hst as [H1 H2]. apply andb_true_iff in Hy' as [H3 H4].
  apply String.eqb_eq in H1, H2, H3, H4. congruence.
Qed.

(** *** The rewritten stack *)

Lemma rewriteQuantity_In rowId q rows r :
  In r (Storage.rewriteQuantity rowId q rows)
  <-> (In r rows /\ inv_id r <> rowId)
      \/ exists r0, In r0 rows /\ inv_id r0 = rowId /\ r = setQuantity q r0.
Proof.
  unfold Storage.rewriteQuantity. rewrite in_app_iff, List.filter_In, in_map_iff. split.
  - intros [[Hin Hid]|(r0 & <- & Hr0)].
    + left. split; [exact Hin|]. now apply negb_true_iff, String.eqb_neq in Hid.
    + apply List.filter_In in Hr0 as [Hin Hid]. apply String.eqb_eq in Hid.
      right. now exists r0.
  - intros [[Hin Hid]|(r0 & Hin & Hid & ->)].
    + left. split; [exact Hin|]. now apply negb_true_iff, String.eqb_neq.
    + right. exists r0. split; [reflexivity|]. apply List.filter_In.
      split; [exact Hin|]. now apply String.eqb_eq.
Qed.

(** With at most one stack per pair, the stack found after the update
    is the rewritten one. *)
Lemma rewriteQuantity_found playerId itemId q rows existing :
  stacked rows ->
  List.find (Inventory.stackOf playerId itemId) rows = Some existing ->
  List.find (Inventory.stackOf playerId itemId)
    (Storage.rewriteQuantity (inv_id existing) q rows)
  = Some (setQuantity q existing).
Proof.
  intros Hst Hf. apply find_some in Hf as [Hin Hmine].
  assert (forall r, In r rows -> Inventory.stackOf playerId itemId r = true -> r = existing)
    as Honly
    by (intros r Hr Hs;
        apply (filter_at_most_one (Inventory.stackOf playerId itemId) rows); auto).
  apply find_unique.
  - apply rewriteQuantity_In. right. now exists existing.
  - exact Hmine.
  - intros y Hy Hs. apply rewriteQuantity_In in Hy as [[Hy Hid]|(r0 & Hr0 & _ & ->)].
    + now rewrite (Honly y Hy Hs) in Hid.
    + now rewrite (Honly r0 Hr0 Hs).
Qed.

(** On a table keyed by [id], the stacks of the other pairs are found
    as before. *)
Lemma rewriteQuantity_other playerId itemId playerId' itemId' q rows existing :
  NoDup (List.map inv_id rows) ->
  stacked rows ->
  List.find (Inventory.stackOf playerId itemId) rows = Some existing ->
  (playerId', itemId') <> (playerId, itemId) ->
  List.find (Inventory.stackOf playerId' itemId')
    (Storage.rewriteQuantity (inv_id existing) q rows)
  = List.find (Inventory.stackOf playerId' itemId') rows.
Proof.
  intros Hkey Hst Hf Hne. apply find_some in Hf as [Hin Hmine].
  pose proof (stackOf_distinct _ _ _ _ _ Hne Hmine) as Hnot.
  destruct (List.find (Inventory.stackOf playerId' itemId') rows) as [other|] eqn:Ho.
  - pose proof (find_some _ _ Ho) as [Hino Hs].
    assert (inv_id other <> inv_id existing) as Hid.
    { intros Hid. assert (other = existing) as ->
        by (apply (keyed_unique inv_id rows); auto).
      congruence. }
    apply find_unique; [apply rewriteQuantity_In; now left | exact Hs |].
    intros y Hy Hsy. apply rewriteQuantity_In in Hy as [[Hy _]|(r0 & Hr0 & Hid0 & ->)].
    + apply (filter_at_most_one (Inventory.stackOf playerId' itemId') rows); auto.
    + assert (r0 = existing) as -> by (apply (keyed_unique inv_id rows); auto).
      rewrite stackOf_setQuantity in Hsy. congruence.
  - apply find_nowhere. intros y Hy.
    apply rewriteQuantity_In in Hy as [[Hy _]|(r0 & Hr0 & _ & ->)].
    + exact (find_none _ _ Ho y Hy).
    + rewrite stackOf_setQuantity. exact (find_none _ _ Ho r0 Hr0).
Qed.

Lemma rewriteQuantity_count playerId itemId rowId q rows :
  length (List.filter (Inventory.stackOf playerId itemId)
            (Storage.rewriteQuantity rowId q rows))
  = length (List.filter (Inventory.stackOf playerId itemId) rows).
Proof.
  unfold Storage.rewriteQuantity. rewrite List.filter_app, List.length_app.
  rewrite filter_map_same by (intros; apply stackOf_setQuantity).
  rewrite List.length_map.
  induction rows as [|r rows IH]; simpl; [reflexivity|].
  destruct (String.eqb (inv_id r) rowId); simpl;
    destruct (Inventory.stackOf playerId itemId r); simpl; lia.
Qed.

Lemma rewriteQuantity_stacked rowId q rows :
  stacked rows -> stacked (Storage.rewriteQuantity rowId q rows).
Proof.
  intros Hst p i. rewrite rewriteQuantity_count. apply Hst.
Qed.

Lemma rewriteQuantity_positive rowId q rows :
  0 < q ->
  Forall (fun r => 0 < inv_quantity r) rows ->
  Forall (fun r => 0 < inv_quantity r) (Storage.rewriteQuantity rowId q rows).
Proof.
  intros Hq Hpos. rewrite List.Forall_forall in *. intros r Hr.
  apply rewriteQuantity_In in Hr as [[Hr _]|(r0 & _ & _ & ->)]; [auto | exact Hq].
Qed.

(** *** [addToInventory] *)

(** When [addToInventory] returns: the rows of [player_inventory] it
    leaves, and the tables it does not touch. *)
Lemma addToInventory_rows newId now playerId itemId quantity d d' :
  Storage.addToInventory newId now playerId itemId quantity d = Some d' ->
  playerInventory d'
  = match List.find (Inventory.stackOf playerId itemId) (playerInventory d) with
    | Some existing =>
        Storage.rewriteQuantity (inv_id existing) (inv_quantity existing + quantity)
          (playerInventory d)
    | None =>
        (playerInventory d
         ++ [mkPlayerInventory newId playerId itemId quantity (Some now)])%list
    end
  /\ players d' = players d
  /\ monsters d' = monsters d
  /\ lootItems d' = lootItems d
  /\ worldLoot d' = worldLoot d.
Proof.
  unfold Storage.addToInventory.
  change (fun r => String.eqb (inv_playerId r) playerId && String.eqb (inv_itemId r) itemId)
    with (Inventory.stackOf playerId itemId).
  destruct (List.find _ _); [now intros [= <-]|].
  destruct (_ && _); [now intros [= <-] | discriminate].
Qed.

(** It returns when the pair has a stack, or when player and item
    exist; it throws otherwise. *)
Lemma addToInventory_returns newId now playerId itemId quantity d :
  playerExists playerId d -> itemExists itemId d ->
  exists d', Storage.addToInventory newId now playerId itemId quantity d = Some d'.
Proof.
  unfold playerExists, itemExists, Storage.addToInventory. intros Hp Hi.
  destruct (List.find _ _); [eauto|].
  rewrite (proj2 (existsb_key player_id playerId (players d)) Hp).
  rewrite (proj2 (existsb_key item_id itemId (lootItems d)) Hi). simpl. eauto.
Qed.

Lemma addToInventory_throws newId now playerId itemId quantity d :
  List.find (Inventory.stackOf playerId itemId) (playerInventory d) = None ->
  ~ (playerExists playerId d /\ itemExists itemId d) ->
  Storage.addToInventory newId now playerId itemId quantity d = None.
Proof.
  unfold playerExists, itemExists, Storage.addToInventory. intros Hf Hno.
  change (fun r => String.eqb (inv_playerId r) playerId && String.eqb (inv_itemId r) itemId)
    with (Inventory.stackOf playerId itemId).
  rewrite Hf.
  destruct (existsb _ (players d)) eqn:Hp; [|reflexivity].
  destruct (existsb _ (lootItems d)) eqn:Hi; [|reflexivity].
  exfalso. apply Hno. split; now apply existsb_key.
Qed.

(** Whether it throws depends on the inventory, the players and the
    catalog only. *)
Lemma addToInventory_thrown newId now playerId itemId quantity d1 d2 :
  playerInventory d1 = playerInventory d2 ->
  players d1 = players d2 ->
  lootItems d1 = lootItems d2 ->
  (Storage.addToInventory newId now playerId itemId quantity d1 = None
   <-> Storage.addToInventory newId now playerId itemId quantity d2 = None).
Proof.
  unfold Storage.addToInventory. intros -> -> ->.
  destruct (List.find _ _); [easy|]. now destruct (_ && _).
Qed.

Lemma addToInventory_quantity newId now playerId itemId quantity d d' :
  stacked (playerInventory d) ->
  Storage.addToInventory newId now playerId itemId quantity d = Some d' ->
  quantityOf playerId itemId (playerInventory d')
  = quantityOf playerId itemId (playerInventory d) + quantity.
Proof.
  intros Hst Hadd. apply addToInventory_rows in Hadd as (-> & _). unfold quantityOf.
  destruct (List.find _ (playerInventory d)) as [existing|] eqn:Hf.
  - now rewrite (rewriteQuantity_found _ _ _ _ _ Hst Hf).
  - rewrite (find_app_none _ _ _ Hf). simpl. unfold Inventory.stackOf. simpl.
    now rewrite !String.eqb_refl.
Qed.

Lemma addToInventory_other newId now playerId itemId quantity d d' playerId' itemId' :
  NoDup (List.map inv_id (playerInventory d)) ->
  stacked (playerInventory d) ->
  Storage.addToInventory newId now playerId itemId quantity d = Some d' ->
  (playerId', itemId') <> (playerId, itemId) ->
  quantityOf playerId' itemId' (playerInventory d')
  = quantityOf playerId' itemId' (playerInventory d).
Proof.
  intros Hkey Hst Hadd Hne. apply addToInventory_rows in Hadd as (-> & _).
  unfold quantityOf.
  destruct (List.find (Inventory.stackOf playerId itemId) (playerInventory d))
    as [existing|] eqn:Hf.
  - now rewrite (rewriteQuantity_other _ _ _ _ _ _ _ Hkey Hst Hf Hne).
  - destruct (List.find (Inventory.stackOf playerId' itemId') (playerInventory d))
      as [other|] eqn:Ho.
    + now rewrite (find_app_some _ _ _ _ Ho).
    + rewrite (find_app_none _ _ _ Ho). simpl.
      assert (Inventory.stackOf playerId' itemId'
                (mkPlayerInventory newId playerId itemId quantity (Some now)) = false) as ->.
      { apply (stackOf_distinct playerId itemId); [exact Hne|].
        unfold Inventory.stackOf. simpl. now rewrite !String.eqb_refl. }
      reflexivity.
Qed.

Lemma addToInventory_stacked newId now playerId itemId quantity d d' :
  stacked (playerInventory d) ->
  Storage.addToInventory newId now playerId itemId quantity d = Some d' ->
  stacked (playerInventory d').
Proof.
  intros Hst Hadd. apply addToInventory_rows in Hadd as (-> & _).
  destruct (List.find (Inventory.stackOf playerId itemId) (playerInventory d))
    as [existing|] eqn:Hf; [now apply rewriteQuantity_stacked|].
  intros p i. rewrite List.filter_app, List.length_app. simpl.
  destruct (Inventory.stackOf p i _) eqn:Hnew; simpl; [|specialize (Hst p i); lia].
  unfold Inventory.stackOf in Hnew. simpl in Hnew.
  apply andb_true_iff in Hnew as [Hp Hi]. apply String.eqb_eq in Hp, Hi. subst.
  rewrite (find_none_filter _ _ Hf). simpl. lia.
Qed.

Lemma addToInventory_positive newId now playerId itemId quantity d d' :
  0 < quantity ->
  Forall (fun r => 0 < inv_quantity r) (playerInventory d) ->
  Storage.addToInventory newId now playerId itemId quantity d = Some d' ->
  Forall (fun r => 0 < inv_quantity r) (playerInventory d').
Proof.
  intros Hq Hpos Hadd. apply addToInventory_rows in Hadd as (-> & _).
  destruct (List.find (Inventory.stackOf playerId itemId) (playerInventory d))
    as [existing|] eqn:Hf.
  - apply find_some in Hf as [Hin _].
    assert (0 < inv_quantity existing) by (rewrite List.Forall_forall in Hpos; auto).
    apply rewriteQuantity_positive; [lia | exact Hpos].
  - apply Forall_app. split; [exact Hpos|]. now repeat constructor.
Qed.

(** X14. [addToInventory] stacks. For a player and an item that exist,
    on an inventory keyed by [id] with at most one stack per (player,
    item), adding a positive quantity returns; what the player holds of
    the item has grown by that quantity, what is held of any other
    (player, item) pair is unchanged, every pair still has at most one
    stack, positive quantities stay positive, and players, monsters,
    the catalog and the world loot are untouched. *)
Theorem add_to_inventory (newId : string) (now : Z) (playerId itemId : string)
    (quantity : Z) (d : Db) :
  0 < quantity ->
  NoDup (List.map inv_id (playerInventory d)) ->
  stacked (playerInventory d) ->
  playerExists playerId d ->
  itemExists itemId d ->
  exists d',
    Storage.addToInventory newId now playerId itemId quantity d = Some d'
    /\ quantityOf playerId itemId (playerInventory d')
       = quantityOf playerId itemId (playerInventory d) + quantity
    /\ (forall playerId' itemId', (playerId', itemId') <> (playerId, itemId) ->
          quantityOf playerId' itemId' (playerInventory d')
          = quantityOf playerId' itemId' (playerInventory d))
    /\ stacked (playerInventory d')
    /\ (Forall (fun r => 0 < inv_quantity r) (playerInventory d) ->
        Forall (fun r => 0 < inv_quantity r) (playerInventory d'))
    /\ players d' = players d
    /\ monsters d' = monsters d
    /\ lootItems d' = lootItems d
    /\ worldLoot d' = worldLoot d.
Proof.
  intros Hq Hkey Hst Hp Hi.
  destruct (addToInventory_returns newId now playerId itemId quantity d Hp Hi)
    as [d' Hadd].
  exists d'. split; [exact Hadd|].
  split; [now apply (addToInventory_quantity newId now)|].
  split; [intros p i Hne; now apply (addToInventory_other newId now playerId itemId quantity)|].
  split; [now apply (addToInventory_stacked newId now playerId itemId quantity d)|].
  split; [intros Hpos;
          now apply (addToInventory_positive newId now playerId itemId quantity d)|].
  now apply addToInventory_rows in Hadd as (_ & ? & ? & ? & ?).
Qed.

Lemma add_to_inventory_witness :
  exists d',
    Storage.addToInventory "new0" 1000 "hero" "bone" 2 Sample.stocked = Some d'
    /\ quantityOf "hero" "bone" (playerInventory d') = 5
    /\ quantityOf "hero" "meat" (playerInventory d') = 1
    /\ quantityOf "novice" "bone" (playerInventory d') = 2.
Proof.
  destruct (add_to_inventory "new0" 1000 "hero" "bone" 2 Sample.stocked)
    as (d' & Hadd & Hq & Hother & _).
  - lia.
  - simpl. repeat constructor; rewrite list_elem_of_In; simpl; intuition discriminate.
  - apply stacked_keys. simpl.
    repeat constructor; rewrite list_elem_of_In; simpl; intuition discriminate.
  - unfold playerExists. simpl. tauto.
  - unfold itemExists. simpl. tauto.
  - exists d'. split; [exact Hadd|]. split; [exact Hq|].
    split; [exact (Hother "hero" "meat" ltac:(discriminate))
           | exact (Hother "novice" "bone" ltac:(discriminate))].
Defined.

(** Should a pair have two stacks, the one an update rewrote is listed
    last, and the next [addToInventory] finds the other. *)
Example rewritten_stack_listed_last :
  option_map playerInventory
    (Storage.addToInventory "new0" 1000 "hero" "bone" 1
       (mkDb [Sample.hero] [] [Sample.item "bone" "Monster Bone"]
          [mkPlayerInventory "a" "hero" "bone" 1 (Some 0);
           mkPlayerInventory "b" "hero" "bone" 5 (Some 0)] [] []))
  = Some [mkPlayerInventory "b" "hero" "bone" 5 (Some 0);
          mkPlayerInventory "a" "hero" "bone" 2 (Some 0)].
Proof. reflexivity. Qed.

(** *** [removeFromInventory] *)

Lemma removeFromInventory_cases (playerId itemId : string) (quantity : Z)
    (rows : list PlayerInventory) :
  stacked rows ->
  Forall (fun r => 0 < inv_quantity r) rows ->
  (List.find (Inventory.stackOf playerId itemId) rows = None
   \/ quantityOf playerId itemId rows < quantity ->
   Inventory.removeFromInventory playerId itemId quantity rows = (false, rows))
  /\ (List.find (Inventory.stackOf playerId itemId) rows <> None ->
      quantity <= quantityOf playerId itemId rows ->
      (Inventory.removeFromInventory playerId itemId quantity rows).1 = true
      /\ quantityOf playerId itemId
           (Inventory.removeFromInventory playerId itemId quantity rows).2
         = quantityOf playerId itemId rows - quantity)
  /\ stacked (Inventory.removeFromInventory playerId itemId quantity rows).2
  /\ Forall (fun r => 0 < inv_quantity r)
       (Inventory.removeFromInventory playerId itemId quantity rows).2.
Proof.
  intros Hst Hpos. unfold Inventory.removeFromInventory, quantityOf.
  destruct (List.find (Inventory.stackOf playerId itemId) rows) as [existing|] eqn:Hf.
  - pose proof (find_some _ _ Hf) as [Hin Hmine].
    destruct (Z.ltb_spec (inv_quantity existing) quantity) as [Hlt|Hge].
    { simpl. split; [easy|]. split; [intros _ Hle; lia|]. split; assumption. }
    destruct (Z.eqb_spec (inv_quantity existing) quantity) as [Heq|Hne]; simpl.
    + split; [intros [H|H]; [discriminate | lia]|].
      split; [intros _ _; split; [reflexivity|]|split].
      * destruct (List.find _ (List.filter _ rows)) as [r|] eqn:Hr; [|lia].
        apply find_some in Hr as [Hr Hrm]. apply List.filter_In in Hr as [Hr Hid].
        assert (r = existing) as ->
          by (apply (filter_at_most_one (Inventory.stackOf playerId itemId) rows); auto).
        now rewrite String.eqb_refl in Hid.
      * intros p i. etransitivity; [apply filter_filter_length | apply Hst].
      * rewrite List.Forall_forall in *. intros r Hr.
        apply List.filter_In in Hr as [Hr _]. auto.
    + split; [intros [H|H]; [discriminate | lia]|].
      split; [intros _ _; split; [reflexivity|]|split].
      * now rewrite (rewriteQuantity_found _ _ _ _ _ Hst Hf).
      * now apply rewriteQuantity_stacked.
      * apply rewriteQuantity_positive; [lia | exact Hpos].
  - simpl. split; [easy|]. split; [intros H; now destruct H|]. split; assumption.
Qed.

(** X15. [removeFromInventory]. Without a stack of the item, or with
    less in it than asked, it returns [false] and leaves the rows as
    they are. Otherwise it returns [true]; the stack loses the quantity,
    and is deleted when nothing is left, so that, with at most one stack
    per (player, item), what the player holds of the item has decreased
    by the quantity. Either way no row is left with a quantity of zero
    or less when there was none, and no (player, item) pair gets a
    second stack. *)
Theorem remove_from_inventory (playerId itemId : string) (quantity : Z)
    (rows : list PlayerInventory) :
  stacked rows ->
  Forall (fun r => 0 < inv_quantity r) rows ->
  (List.find (Inventory.stackOf playerId itemId) rows = None
   \/ quantityOf playerId itemId rows < quantity ->
   Inventory.removeFromInventory playerId itemId quantity rows = (false, rows))
  /\ (List.find (Inventory.stackOf playerId itemId) rows <> None ->
      quantity <= quantityOf playerId itemId rows ->
      (Inventory.removeFromInventory playerId itemId quantity rows).1 = true
      /\ quantityOf playerId itemId
           (Inventory.removeFromInventory playerId itemId quantity rows).2
         = quantityOf playerId itemId rows - quantity)
  /\ stacked (Inventory.removeFromInventory playerId itemId quantity rows).2
  /\ Forall (fun r => 0 < inv_quantity r)
       (Inventory.removeFromInventory playerId itemId quantity rows).2.
Proof.
  intros Hst Hpos.
  destruct (removeFromInventory_cases playerId itemId quantity rows Hst Hpos)
    as (Hfail & Hok & Hst' & Hpos').
  split; [exact Hfail|]. split; [exact Hok|]. split; [exact Hst' | exact Hpos'].
Qed.

Lemma sample_stacked : stacked (playerInventory Sample.stocked).
Proof.
  apply stacked_keys. simpl.
  repeat constructor; rewrite list_elem_of_In; simpl; intuition discriminate.
Defined.

Lemma sample_positive : Forall (fun r => 0 < inv_quantity r) (playerInventory Sample.stocked).
Proof.
  repeat constructor; simpl; lia.
Defined.

Lemma remove_from_inventory_witness :
  ((Inventory.removeFromInventory "hero" "bone" 2 (playerInventory Sample.stocked)).1 = true
   /\ quantityOf "hero" "bone"
        (Inventory.removeFromInventory "hero" "bone" 2 (playerInventory Sample.stocked)).2
      = 1)
  /\ ((Inventory.removeFromInventory "hero" "bone" 3 (playerInventory Sample.stocked)).1 = true
      /\ quantityOf "hero" "bone"
           (Inventory.removeFromInventory "hero" "bone" 3 (playerInventory Sample.stocked)).2
         = 0)
  /\ Inventory.removeFromInventory "hero" "bone" 4 (playerInventory Sample.stocked)
     = (false, playerInventory Sample.stocked).
Proof.
  split; [|split].
  - destruct (remove_from_inventory "hero" "bone" 2 (playerInventory Sample.stocked)
                sample_stacked sample_positive) as (_ & Hok & _).
    apply Hok; [discriminate | vm_compute; discriminate].
  - destruct (remove_from_inventory "hero" "bone" 3 (playerInventory Sample.stocked)
                sample_stacked sample_positive) as (_ & Hok & _).
    apply Hok; [discriminate | vm_compute; discriminate].
  - destruct (remove_from_inventory "hero" "bone" 4 (playerInventory Sample.stocked)
                sample_stacked sample_positive) as (Hfail & _).
    apply Hfail. right. vm_compute. reflexivity.
Defined.

Lemma quantityOf_nonneg playerId itemId rows :
  Forall (fun r => 0 < inv_quantity r) rows -> 0 <= quantityOf playerId itemId rows.
Proof.
  intros Hpos. unfold quantityOf.
  destruct (List.find _ rows) as [r|] eqn:Hf; [|lia].
  apply find_some in Hf as [Hin _]. rewrite List.Forall_forall in Hpos.
  specialize (Hpos r Hin). lia.
Qed.

(** X16. For a player and an item that exist, on an inventory with at
    most one stack per (player, item) and positive quantities, adding a
    positive quantity of the item returns, and removing it again
    succeeds and gives back what the player held. When the player had
    no stack of the item and the new row took an unused identifier, the
    rows themselves are as before. *)
Theorem inventory_round_trip (newId : string) (now : Z) (playerId itemId : string)
    (quantity : Z) (d : Db) :
  0 < quantity ->
  stacked (playerInventory d) ->
  Forall (fun r => 0 < inv_quantity r) (playerInventory d) ->
  playerExists playerId d ->
  itemExists itemId d ->
  exists d',
    Storage.addToInventory newId now playerId itemId quantity d = Some d'
    /\ (Inventory.removeFromInventory playerId itemId quantity (playerInventory d')).1
       = true
    /\ quantityOf playerId itemId
         (Inventory.removeFromInventory playerId itemId quantity (playerInventory d')).2
       = quantityOf playerId itemId (playerInventory d)
    /\ (List.find (Inventory.stackOf playerId itemId) (playerInventory d) = None ->
        ~ In newId (List.map inv_id (playerInventory d)) ->
        (Inventory.removeFromInventory playerId itemId quantity (playerInventory d')).2
        = playerInventory d).
Proof.
  intros Hq Hst Hpos Hp Hi.
  destruct (addToInventory_returns newId now playerId itemId quantity d Hp Hi)
    as [d' Hadd].
  exists d'. split; [exact Hadd|].
  pose proof (addToInventory_quantity _ _ _ _ _ _ _ Hst Hadd) as Hsum.
  pose proof (quantityOf_nonneg playerId itemId _ Hpos) as H0.
  destruct (removeFromInventory_cases playerId itemId quantity (playerInventory d')
              (addToInventory_stacked _ _ _ _ _ _ _ Hst Hadd)
              (addToInventory_positive _ _ _ _ _ _ _ Hq Hpos Hadd))
    as (_ & Hok & _).
  destruct Hok as [Htrue Hqty].
  { intros Hnone. unfold quantityOf in Hsum at 1. rewrite Hnone in Hsum. lia. }
  { lia. }
  split; [exact Htrue|]. split; [lia|].
  intros Hnone Hfresh. apply addToInventory_rows in Hadd as (-> & _). rewrite Hnone.
  unfold Inventory.removeFromInventory.
  rewrite (find_app_none _ _ _ Hnone). simpl.
  assert (Inventory.stackOf playerId itemId
            (mkPlayerInventory newId playerId itemId quantity (Some now)) = true) as ->
    by (unfold Inventory.stackOf; simpl; now rewrite !String.eqb_refl).
  simpl. destruct (Z.ltb_spec quantity quantity); [lia|]. rewrite Z.eqb_refl. simpl.
  rewrite List.filter_app. simpl. rewrite String.eqb_refl. simpl.
  rewrite app_nil_r. now apply filter_all_but.
Qed.

Lemma inventory_round_trip_witness :
  exists d',
    Storage.addToInventory "new0" 1000 "novice" "meat" 2 Sample.stocked = Some d'
    /\ (Inventory.removeFromInventory "novice" "meat" 2 (playerInventory d')).1 = true
    /\ (Inventory.removeFromInventory "novice" "meat" 2 (playerInventory d')).2
       = playerInventory Sample.stocked.
Proof.
  destruct (inventory_round_trip "new0" 1000 "novice" "meat" 2 Sample.stocked)
    as (d' & Hadd & H1 & _ & H3).
  - lia.
  - exact sample_stacked.
  - exact sample_positive.
  - unfold playerExists. simpl. tauto.
  - unfold itemExists. simpl. tauto.
  - exists d'. split; [exact Hadd|]. split; [exact H1|].
    apply H3; [reflexivity | simpl; intuition discriminate].
Defined.

(** ** The life of world loot *)

Lemma find_filter_same {A : Type} (P Q : A -> bool) l :
  (forall x, P x = true -> Q x = true) ->
  List.find P (List.filter Q l) = List.find P l.
Proof.
  intros H. induction l as [|x l IH]; simpl; [easy|].
  destruct (Q x) eqn:HQ; simpl.
  - now destruct (P x).
  - destruct (P x) eqn:HP; [|exact IH]. rewrite (H x HP) in HQ. discriminate.
Qed.

Lemma filter_filter_same {A : Type} (P Q : A -> bool) l :
  (forall x, P x = true -> Q x = true) ->
  List.filter P (List.filter Q l) = List.filter P l.
Proof.
  intros H. induction l as [|x l IH]; simpl; [easy|].
  destruct (Q x) eqn:HQ; simpl.
  - destruct (P x); now rewrite IH.
  - destruct (P x) eqn:HP; [|exact IH]. rewrite (H x HP) in HQ. discriminate.
Qed.

Lemma later_not_expired now t :
  Storage.laterThan now t = true -> negb (Storage.notLaterThan now t) = true.
Proof.
  destruct t as [x|]; simpl; [|easy]. intros H. apply Z.ltb_lt in H.
  apply negb_true_iff, Z.leb_gt. lia.
Qed.

(** A live row of the id, for a player that exists, on a table whose
    items exist: [collectWorldLoot] returns [true]. *)
Lemma collect_live newId now playerId d l :
  lootReferenced d ->
  playerExists playerId d ->
  In l (worldLoot d) -> Storage.laterThan now (expiresAt l) = true ->
  exists d', Storage.collectWorldLoot newId now playerId (loot_id l) d = Some (true, d').
Proof.
  intros Href Hp Hin Hlive. unfold Storage.collectWorldLoot.
  destruct (List.find _ _) as [loot|] eqn:Hf.
  - apply find_some in Hf as [Hloot _].
    unfold lootReferenced in Href. rewrite List.Forall_forall in Href.
    destruct (addToInventory_returns newId now playerId (loot_itemId loot)
                (loot_quantity loot) d Hp (Href loot Hloot)) as [d1 ->].
    eauto.
  - apply (find_none _ _ Hf) in Hin. now rewrite String.eqb_refl, Hlive in Hin.
Qed.

(** X17. The janitor deletes the expired rows of [world_loot] and only
    them: a row is there after [cleanupExpiredLoot] exactly when it was
    there and its [expiresAt] is not at or before the clock (a row
    without [expiresAt] stays). What [getWorldLootInZone] lists and
    what [collectWorldLoot] answers (true, false, or that it throws), at
    that clock, are the same before and after it; the other tables are
    untouched. *)
Theorem cleanup_expired_loot (now : Z) (d : Db) :
  (forall l, In l (worldLoot (Storage.cleanupExpiredLoot now d))
             <-> In l (worldLoot d) /\ Storage.notLaterThan now (expiresAt l) = false)
  /\ (forall zone,
        Storage.getWorldLootInZone now zone (Storage.cleanupExpiredLoot now d)
        = Storage.getWorldLootInZone now zone d)
  /\ (forall newId playerId lootId,
        option_map fst
          (Storage.collectWorldLoot newId now playerId lootId
             (Storage.cleanupExpiredLoot now d))
        = option_map fst (Storage.collectWorldLoot newId now playerId lootId d))
  /\ players (Storage.cleanupExpiredLoot now d) = players d
  /\ monsters (Storage.cleanupExpiredLoot now d) = monsters d
  /\ lootItems (Storage.cleanupExpiredLoot now d) = lootItems d
  /\ playerInventory (Storage.cleanupExpiredLoot now d) = playerInventory d.
Proof.
  split; [|split; [|split]].
  - intros l. simpl. rewrite List.filter_In, negb_true_iff. tauto.
  - intros zone. unfold Storage.getWorldLootInZone. simpl.
    rewrite filter_filter_same; [reflexivity|].
    intros l Hl. apply andb_true_iff in Hl as [_ Hl]. now apply later_not_expired.
  - intros newId playerId lootId. unfold Storage.collectWorldLoot. simpl.
    rewrite find_filter_same
      by (intros l Hl; apply andb_true_iff in Hl as [_ Hl]; now apply later_not_expired).
    destruct (List.find _ (worldLoot d)) as [loot|]; [|reflexivity].
    unfold Storage.addToInventory. simpl.
    destruct (List.find _ (playerInventory d)); [reflexivity|].
    now destruct (_ && _).
  - repeat split.
Qed.

(** X18. What the zone lists can be collected: every pair
    [getWorldLootInZone] returns is a row of [world_loot] in that zone,
    not expired, with a catalog item of its [itemId]; and, when the
    items of [world_loot] exist (its foreign key), [collectWorldLoot] on
    its id at the same clock returns [true] for every player that
    exists. *)
Theorem listed_loot_collectable (now : Z) (zone : string) (d : Db) (l : WorldLoot)
    (item : LootItem) :
  lootReferenced d ->
  In (l, item) (Storage.getWorldLootInZone now zone d) ->
  In l (worldLoot d)
  /\ loot_zone l = zone
  /\ (exists t, expiresAt l = Some t /\ now < t)
  /\ In item (lootItems d)
  /\ item_id item = loot_itemId l
  /\ forall newId playerId,
       playerExists playerId d ->
       exists d',
         Storage.collectWorldLoot newId now playerId (loot_id l) d = Some (true, d').
Proof.
  unfold Storage.getWorldLootInZone. intros Href Hin.
  apply in_flat_map in Hin as (l' & Hl' & Hpair).
  apply in_map_iff in Hpair as (i & [= <- <-] & Hi).
  apply List.filter_In in Hl' as [Hl Hcond]. apply List.filter_In in Hi as [Hi Hid].
  apply andb_true_iff in Hcond as [Hz Hlive].
  apply String.eqb_eq in Hz, Hid.
  repeat split; auto.
  - destruct (expiresAt l') as [t|] eqn:Ht; [|discriminate].
    exists t. split; [reflexivity|]. now apply Z.ltb_lt.
  - intros newId playerId Hp. now apply collect_live.
Qed.

Lemma sample_referenced : lootReferenced Sample.db.
Proof.
  constructor; [|constructor]. unfold itemExists. simpl. tauto.
Defined.

Lemma listed_loot_collectable_witness :
  exists d',
    Storage.collectWorldLoot "new0" 1000 "hero" (loot_id Sample.oldBone) Sample.db
    = Some (true, d').
Proof.
  destruct (listed_loot_collectable 1000 "selha_latna" Sample.db Sample.oldBone
              (Sample.item "bone" "Monster Bone") sample_referenced)
    as (_ & _ & _ & _ & _ & Hcollect).
  - simpl. now left.
  - apply (Hcollect "new0" "hero"). unfold playerExists. simpl. tauto.
Defined.

(** X19. Collecting live loot, on a [world_loot] table keyed by [id]
    and an inventory with at most one stack per (player, item): for a
    row not yet expired whose item exists and a player that exists,
    [collectWorldLoot] returns [true], what the player holds of the
    row's item grows by the row's quantity, the row leaves [world_loot]
    and every other row stays; players, monsters and the catalog are
    untouched. *)
Theorem collect_live_loot (newId : string) (now : Z) (playerId : string) (d : Db)
    (loot : WorldLoot) (t : Z) :
  NoDup (List.map loot_id (worldLoot d)) ->
  stacked (playerInventory d) ->
  playerExists playerId d ->
  itemExists (loot_itemId loot) d ->
  In loot (worldLoot d) ->
  expiresAt loot = Some t ->
  now < t ->
  exists d',
    Storage.collectWorldLoot newId now playerId (loot_id loot) d = Some (true, d')
    /\ quantityOf playerId (loot_itemId loot) (playerInventory d')
       = quantityOf playerId (loot_itemId loot) (playerInventory d) + loot_quantity loot
    /\ (forall l, In l (worldLoot d') <-> In l (worldLoot d) /\ l <> loot)
    /\ players d' = players d
    /\ monsters d' = monsters d
    /\ lootItems d' = lootItems d.
Proof.
  intros Hkey Hst Hp Hi Hin Ht Hlt.
  assert (List.find (fun l => String.eqb (loot_id l) (loot_id loot)
                              && Storage.laterThan now (expiresAt l)) (worldLoot d)
          = Some loot) as Hf.
  { apply find_unique; [exact Hin| |].
    - rewrite String.eqb_refl, Ht. simpl. now apply Z.ltb_lt.
    - intros l Hl Hc. apply andb_true_iff in Hc as [Hid _]. apply String.eqb_eq in Hid.
      apply (keyed_unique loot_id (worldLoot d)); auto. }
  destruct (addToInventory_returns newId now playerId (loot_itemId loot)
              (loot_quantity loot) d Hp Hi) as [d1 Hadd].
  unfold Storage.collectWorldLoot. rewrite Hf, Hadd.
  eexists. split; [reflexivity|]. simpl.
  split; [now apply (addToInventory_quantity newId now)|].
  apply addToInventory_rows in Hadd as (_ & -> & -> & -> & ->).
  split; [|easy]. intros l. rewrite List.filter_In, negb_true_iff. split.
  - intros [Hl Hid]. split; [exact Hl|]. intros ->. now rewrite String.eqb_refl in Hid.
  - intros [Hl Hne]. split; [exact Hl|]. apply String.eqb_neq. intros Hid.
    apply Hne. apply (keyed_unique loot_id (worldLoot d)); auto.
Qed.

Lemma collect_live_loot_witness :
  exists d',
    Storage.collectWorldLoot "new0" 1000 "hero" "loot" Sample.stocked = Some (true, d')
    /\ quantityOf "hero" "bone" (playerInventory d') = 5
    /\ worldLoot d' = [].
Proof.
  destruct (collect_live_loot "new0" 1000 "hero" Sample.stocked Sample.oldBone 300000)
    as (d' & Hc & Hq & _).
  - simpl. repeat constructor. rewrite list_elem_of_In. simpl. tauto.
  - exact sample_stacked.
  - unfold playerExists. simpl. tauto.
  - unfold itemExists. simpl. tauto.
  - simpl. now left.
  - reflexivity.
  - lia.
  - exists d'. split; [exact Hc|]. split; [exact Hq|].
    vm_compute in Hc. now injection Hc as <-.
Defined.

(** X20. Loot is collected once. After a [collectWorldLoot] that
    returned [true], no row of that id is left, and a further
    [collectWorldLoot] of the id, by anyone and at any time, returns
    [false] and changes nothing. *)
Theorem loot_collected_once (newId : string) (now : Z) (playerId lootId : string)
    (d d' : Db) (newId' : string) (now' : Z) (playerId' : string) :
  Storage.collectWorldLoot newId now playerId lootId d = Some (true, d') ->
  (forall l, In l (worldLoot d') -> loot_id l <> lootId)
  /\ Storage.collectWorldLoot newId' now' playerId' lootId d' = Some (false, d').
Proof.
  intros Hok.
  assert (forall l, In l (worldLoot d') -> loot_id l <> lootId) as Hgone.
  { unfold Storage.collectWorldLoot in Hok.
    destruct (List.find _ (worldLoot d)); [|discriminate].
    destruct (Storage.addToInventory _ _ _ _ _ _) as [d1|]; [|discriminate].
    injection Hok as <-. simpl.
    intros l Hl. apply List.filter_In in Hl as [_ Hid].
    now apply negb_true_iff, String.eqb_neq in Hid. }
  split; [exact Hgone|].
  unfold Storage.collectWorldLoot.
  destruct (List.find _ _) as [l|] eqn:Hf; [|reflexivity].
  apply find_some in Hf as [Hl Hc]. apply andb_true_iff in Hc as [Hid _].
  apply String.eqb_eq in Hid. now apply Hgone in Hl.
Qed.

Lemma loot_collected_once_witness :
  exists d',
    Storage.collectWorldLoot "new0" 1000 "hero" "loot" Sample.db = Some (true, d')
    /\ Storage.collectWorldLoot "new1" 2000 "novice" "loot" d' = Some (false, d').
Proof.
  eexists. split; [reflexivity|].
  apply (loot_collected_once "new0" 1000 "hero" "loot" Sample.db _ "new1" 2000 "novice").
  reflexivity.
Defined.

(** X21. Dropped loot lives five minutes. When the items of
    [world_loot] exist before the drop (its foreign key), every row
    [dropLoot] inserts at database time [dbNow] can be collected by a
    player that exists at any time before [dbNow + 300000], and is
    deleted by a janitor tick at or after that time. *)
Theorem dropped_loot_lifetime (e : Env) (monster : Monster) (killerId : string)
    (w : World) (l : WorldLoot) :
  lootReferenced (storage w) ->
  In l (lootOf e monster killerId (storage w)) ->
  (forall newId now playerId,
     playerExists playerId (storage w) ->
     now < dbNow e + 300000 ->
     exists d',
       Storage.collectWorldLoot newId now playerId (loot_id l)
         (storage (dropLoot e monster killerId w).2) = Some (true, d'))
  /\ (forall now,
        dbNow e + 300000 <= now ->
        ~ In l (worldLoot (Storage.cleanupExpiredLoot now
                             (storage (dropLoot e monster killerId w).2)))).
Proof.
  intros Href Hl. destruct (lootOf_In _ _ _ _ _ Hl) as (_ & _ & _ & Hexp & _).
  split.
  - intros newId now playerId Hp Hnow. apply collect_live.
    + unfold lootReferenced, itemExists in *. rewrite dropLoot_storage. simpl.
      apply Forall_app. split; [exact Href|].
      rewrite List.Forall_forall. intros l' Hl'.
      destruct (lootOf_In _ _ _ _ _ Hl') as (_ & _ & _ & _ & (item & Hitem & -> & _) & _).
      now apply in_map.
    + unfold playerExists in *. now rewrite dropLoot_storage.
    + rewrite dropLoot_storage. simpl. apply in_or_app. now right.
    + rewrite Hexp. simpl. now apply Z.ltb_lt.
  - intros now Hnow Hin. simpl in Hin. apply List.filter_In in Hin as [_ Hlive].
    rewrite Hexp in Hlive. simpl in Hlive.
    apply negb_true_iff, Z.leb_gt in Hlive. lia.
Qed.

Lemma dropped_loot_lifetime_witness :
  length (lootOf (Sample.luckyEnv 1000) Sample.golem "hero" Sample.db) = 2%nat
  /\ exists d',
       Storage.collectWorldLoot "new9" 300999 "novice" "new0"
         (storage (dropLoot (Sample.luckyEnv 1000) Sample.golem "hero" Sample.world).2)
       = Some (true, d').
Proof.
  split; [reflexivity|].
  destruct (dropped_loot_lifetime (Sample.luckyEnv 1000) Sample.golem "hero" Sample.world
              (nth 0 (lootOf (Sample.luckyEnv 1000) Sample.golem "hero" Sample.db)
                   Sample.oldBone) sample_referenced) as [Hcollect _].
  - vm_compute. left. reflexivity.
  - apply (Hcollect "new9" 300999 "novice").
    + unfold playerExists. simpl. tauto.
    + simpl. lia.
Defined.

(** X26. What the foreign keys refuse. Without a stack of the pair,
    [addToInventory] for a player or an item no row has throws and
    writes nothing; so does [collectWorldLoot] of a live row of a table
    keyed by [id] for such a player, and the endpoint answers 400 with
    the error's message and leaves the world, the loot row included, as
    it was. *)
Theorem refused_by_foreign_key (e : Env) (errorMessage : string)
    (playerId : string) (w : World) (loot : WorldLoot) (t : Z) :
  ~ playerExists playerId (storage w) ->
  Forall (fun r => inv_playerId r <> playerId) (playerInventory (storage w)) ->
  NoDup (List.map loot_id (worldLoot (storage w))) ->
  In loot (worldLoot (storage w)) ->
  expiresAt loot = Some t ->
  dbNow e < t ->
  (forall newId now itemId quantity,
     Storage.addToInventory newId now playerId itemId quantity (storage w) = None)
  /\ Storage.collectWorldLoot (uuid e 0) (dbNow e) playerId (loot_id loot) (storage w) = None
  /\ Routes.collect e errorMessage playerId (loot_id loot) w
     = (Routes.Status 400 errorMessage, w).
Proof.
  intros Hno Hrows Hkey Hin Ht Hlt.
  assert (forall newId now itemId quantity,
            Storage.addToInventory newId now playerId itemId quantity (storage w) = None)
    as Hadd.
  { intros newId now itemId quantity. apply addToInventory_throws; [|tauto].
    apply find_nowhere. intros r Hr. rewrite List.Forall_forall in Hrows.
    unfold Inventory.stackOf.
    now rewrite (proj2 (String.eqb_neq _ _) (Hrows r Hr)). }
  assert (Storage.collectWorldLoot (uuid e 0) (dbNow e) playerId (loot_id loot) (storage w)
          = None) as Hcollect.
  { unfold Storage.collectWorldLoot.
    rewrite (find_unique _ _ loot Hin).
    - now rewrite Hadd.
    - rewrite String.eqb_refl, Ht. simpl. now apply Z.ltb_lt.
    - intros l Hl Hc. apply andb_true_iff in Hc as [Hid _]. apply String.eqb_eq in Hid.
      apply (keyed_unique loot_id (worldLoot (storage w))); auto. }
  split; [exact Hadd|]. split; [exact Hcollect|].
  unfold Routes.collect. now rewrite Hcollect.
Qed.

Lemma refused_by_foreign_key_witness :
  Storage.collectWorldLoot "new0" 1000 "ghost" "loot" Sample.db = None
  /\ Routes.collect (Sample.env 1000) "refused" "ghost" "loot" Sample.world
     = (Routes.Status 400 "refused", Sample.world).
Proof.
  destruct (refused_by_foreign_key (Sample.env 1000) "refused" "ghost" Sample.world
              Sample.oldBone 300000) as (_ & H2 & H3).
  - unfold playerExists. simpl. intuition discriminate.
  - constructor.
  - simpl. repeat constructor. rewrite list_elem_of_In. simpl. tauto.
  - simpl. now left.
  - reflexivity.
  - simpl. lia.
  - split; [exact H2 | exact H3].
Defined.

(** ** Rebirth and what follows it *)

(** The state the rebirth endpoint leaves: unchanged, or the caller's
    row rewritten with the rebirth values. *)
Lemma rebirth_state playerId w :
  ((Routes.rebirth playerId w).2 = w
   /\ forall player, Storage.getPlayer playerId (storage w) = Some player ->
                     level player < 100)
  \/ exists player,
       Storage.getPlayer playerId (storage w) = Some player
       /\ 100 <= level player
       /\ (Routes.rebirth playerId w).2
          = mkWorld (Storage.updatePlayer playerId (Storage.rebirthUpdates player) (storage w))
                    (playerCooldowns w).
Proof.
  unfold Routes.rebirth. run.
  destruct (Storage.getPlayer playerId (storage w)) as [player|] eqn:Hp; [|now left].
  pose proof (getPlayer_id _ _ _ Hp) as Hid.
  destruct (Z.ltb_spec (level player) 100) as [Hl|Hl].
  - left. split; [reflexivity|]. intros player0 [= <-]. exact Hl.
  - right. exists player. split; [reflexivity|]. split; [exact Hl|].
    unfold Storage.performRebirth. rewrite Hid, Hp.
    now match goal with
        | |- context [match ?x with _ => _ end] => destruct x
        end.
Qed.

Lemma rebirth_reborn playerId w player :
  Storage.getPlayer playerId (storage w) = Some player ->
  100 <= level player ->
  Storage.getPlayer playerId (storage (Routes.rebirth playerId w).2)
  = Some (setPlayer (Storage.rebirthUpdates player) player).
Proof.
  intros Hp Hl.
  destruct (rebirth_state playerId w) as [[_ Hlow]|(player0 & Hp0 & _ & ->)].
  - specialize (Hlow _ Hp). lia.
  - assert (player0 = player) as -> by congruence. simpl.
    rewrite getPlayer_updatePlayer, Hp. simpl.
    now rewrite (getPlayer_id _ _ _ Hp), String.eqb_refl.
Qed.

(** X22. The rebirth endpoint creates and deletes no player and rewrites
    no row of another player; monsters, catalog, inventories, world loot
    and the cooldowns (the caller's included) are as before. For an
    identifier no player has it answers 404 and changes nothing. *)
Theorem rebirth_touches_one_player (playerId : string) (w : World) :
  (forall q, player_id q <> playerId ->
     (In q (players (storage (Routes.rebirth playerId w).2))
      <-> In q (players (storage w))))
  /\ length (players (storage (Routes.rebirth playerId w).2))
     = length (players (storage w))
  /\ monsters (storage (Routes.rebirth playerId w).2) = monsters (storage w)
  /\ lootItems (storage (Routes.rebirth playerId w).2) = lootItems (storage w)
  /\ playerInventory (storage (Routes.rebirth playerId w).2)
     = playerInventory (storage w)
  /\ worldLoot (storage (Routes.rebirth playerId w).2) = worldLoot (storage w)
  /\ playerCooldowns (Routes.rebirth playerId w).2 = playerCooldowns w
  /\ (Storage.getPlayer playerId (storage w) = None ->
      Routes.rebirth playerId w = ((Routes.Status 404 "Player not found", []), w)).
Proof.
  assert (Storage.getPlayer playerId (storage w) = None ->
          Routes.rebirth playerId w = ((Routes.Status 404 "Player not found", []), w))
    as Hnone by (intros Hp; unfold Routes.rebirth; run; now rewrite Hp).
  destruct (rebirth_state playerId w) as [[-> _]|(player & _ & _ & ->)].
  - repeat (split; [easy|]). exact Hnone.
  - simpl. split; [|split].
    + intros q Hq. now apply updateWhere_other.
    + apply updateWhere_length.
    + repeat (split; [reflexivity|]). exact Hnone.
Qed.

(** X23. Rebirth cannot be repeated at once: after a rebirth from level
    100 or above the player is at level 1, so the next call of the
    endpoint answers 400 and changes nothing. *)
Theorem rebirth_not_repeatable (playerId : string) (w : World) (player : Player) :
  Storage.getPlayer playerId (storage w) = Some player ->
  100 <= level player ->
  Routes.rebirth playerId (Routes.rebirth playerId w).2
  = ((Routes.Status 400 "Must reach level 100 to rebirth", []),
     (Routes.rebirth playerId w).2).
Proof.
  intros Hp Hl. pose proof (rebirth_reborn playerId w player Hp Hl) as Hr.
  set (w' := (Routes.rebirth playerId w).2) in *.
  unfold Routes.rebirth at 1. run. now rewrite Hr.
Qed.

Lemma rebirth_not_repeatable_witness :
  Routes.rebirth "elder" (Routes.rebirth "elder" Sample.world).2
  = ((Routes.Status 400 "Must reach level 100 to rebirth", []),
     (Routes.rebirth "elder" Sample.world).2).
Proof.
  apply (rebirth_not_repeatable "elder" Sample.world Sample.elder).
  - reflexivity.
  - simpl. lia.
Defined.

(** X24. Rebirth locks the abilities again: after a rebirth from level
    100 or above, a use of an ability that requires a level above 1 is
    refused with "Requires level N" and changes nothing, whatever aura
    and cooldowns the player has. *)
Theorem rebirth_locks_abilities (e : Env) (playerId abilityName : string)
    (targetId : option string) (w : World) (player : Player)
    (ability : AbilityDefinition) :
  Storage.getPlayer playerId (storage w) = Some player ->
  100 <= level player ->
  GameEngine.resolve abilityName = Some ability ->
  1 < requiredLevel ability ->
  GameEngine.useAbility e playerId abilityName targetId (Routes.rebirth playerId w).2
  = (GameEngine.failure abilityName playerId
       ("Requires level " ++ JS.show (requiredLevel ability))
       (ability_auraCost ability),
     (Routes.rebirth playerId w).2).
Proof.
  intros Hp Hl Ha Hreq. pose proof (rebirth_reborn playerId w player Hp Hl) as Hr.
  set (w' := (Routes.rebirth playerId w).2) in *.
  unfold GameEngine.useAbility. run. rewrite Hr, Ha. simpl.
  now destruct (Z.ltb_spec 1 (requiredLevel ability)); [|lia].
Qed.

Lemma rebirth_locks_abilities_witness :
  message (GameEngine.useAbility (Sample.env 1000) "elder" "Aura Release" None
             (Routes.rebirth "elder" Sample.world).2).1
  = "Requires level 85".
Proof.
  rewrite (rebirth_locks_abilities (Sample.env 1000) "elder" "Aura Release" None
             Sample.world Sample.elder GameEngine.aura_release).
  - reflexivity.
  - reflexivity.
  - simpl. lia.
  - reflexivity.
  - simpl. lia.
Defined.

(** ** Experience *)

(** The experience of a kill is not negative when neither the monster's
    level nor the player's rebirth cycle is. *)
Lemma expGainOf_nonneg monster player :
  0 <= monster_level monster -> 0 <= rebirthCycle player ->
  0 <= GameEngine.expGainOf monster player.
Proof.
  intros Hm Hr. unfold GameEngine.expGainOf. apply floor_product_nonneg.
  - rewrite mul_spec. apply SFmul_signClear; [now apply num_signClear | reflexivity].
  - rewrite add_spec. apply SFadd_signClear; [reflexivity|].
    rewrite mul_spec. apply SFmul_signClear; [now apply num_signClear | reflexivity].
Qed.

(** X25. A use of an ability never costs experience. With no negative
    monster level in the table and a rebirth cycle that is not negative,
    the caster's experience after the call is the one before, or the
    one before plus the experience of the monster that was the target,
    and in both cases not below the one before. *)
Theorem experience_never_lost (e : Env) (playerId abilityName : string)
    (targetId : option string) (w : World) (player : Player) :
  Storage.getPlayer playerId (storage w) = Some player ->
  0 <= rebirthCycle player ->
  Forall (fun m => 0 <= monster_level m) (monsters (storage w)) ->
  exists player',
    Storage.getPlayer playerId
      (storage (GameEngine.useAbility e playerId abilityName targetId w).2)
    = Some player'
    /\ experience player <= experience player'
    /\ (experience player' = experience player
        \/ exists monster,
             In monster (monsters (storage w))
             /\ targetId = Some (monster_id monster)
             /\ experience player'
                = experience player + GameEngine.expGainOf monster player).
Proof.
  intros Hp Hrc Hms. pose proof (getPlayer_id _ _ _ Hp) as Hid.
  destruct (useAbility_players e playerId abilityName targetId w)
    as [Hsame|(player0 & ability & Hp0 & _ & _ & [Hpl|(monster & Hs & _ & Hpl)])].
  - exists player. unfold Storage.getPlayer in *. rewrite Hsame.
    split; [exact Hp|]. split; [lia | now left].
  - exists (setPlayer (GameEngine.auraSpent player0 ability) player).
    rewrite (getPlayer_rewritten _ playerId _ _ _ Hpl), Hp. simpl.
    rewrite Hid, String.eqb_refl. split; [reflexivity|]. simpl. split; [lia | now left].
  - assert (player0 = player) as -> by congruence.
    apply struck_Some in Hs as (target & Ht & _ & Hin & Hmid & _).
    assert (0 <= GameEngine.expGainOf monster player) as Hgain.
    { apply expGainOf_nonneg; [|exact Hrc].
      rewrite Forall_forall in Hms. now apply (Hms monster), list_elem_of_In. }
    exists (setPlayer (GameEngine.awardUpdates player (GameEngine.expGainOf monster player))
              (setPlayer (GameEngine.auraSpent player ability) player)).
    split.
    + rewrite (getPlayer_rewritten playerId playerId
                 (GameEngine.awardUpdates player (GameEngine.expGainOf monster player))
                 (Storage.updatePlayer playerId (GameEngine.auraSpent player ability)
                    (storage w))
                 _ Hpl).
      rewrite getPlayer_updatePlayer, Hp. simpl.
      rewrite Hid, String.eqb_refl. simpl. now rewrite Hid, String.eqb_refl.
    + assert (experience
                (setPlayer (GameEngine.awardUpdates player
                              (GameEngine.expGainOf monster player))
                   (setPlayer (GameEngine.auraSpent player ability) player))
              = experience player + GameEngine.expGainOf monster player) as ->.
      { unfold GameEngine.awardUpdates. now destruct (_ && _). }
      split; [lia|]. right. exists monster.
      split; [exact Hin|]. split; [now rewrite Hmid | reflexivity].
Qed.

Lemma experience_never_lost_witness :
  exists player',
    Storage.getPlayer "hero"
      (storage (GameEngine.useAbility (Sample.env 1000) "hero" "ground_dig_up"
                  (Some "golem") Sample.world).2) = Some player'
    /\ experience Sample.hero <= experience player'.
Proof.
  destruct (experience_never_lost (Sample.env 1000) "hero" "ground_dig_up" (Some "golem")
              Sample.world Sample.hero) as (player' & H1 & H2 & _).
  - reflexivity.
  - simpl. lia.
  - repeat constructor; simpl; lia.
  - exists player'. split; assumption.
Defined.
